(** * go-onvif: SOAP envelope codec, WS-Security token, fault classifier
      and the authentication negotiation of [Client.Do]

    A shallow embedding of [soap/soap.go], [soap/security.go] and the
    client ([Client.Do]) of korylprince/go-onvif, with what they use of
    [encoding/xml], [crypto/sha1], [encoding/base64] and [time]; then the
    properties of the specification, each proved or refuted on it.

    Conventions.
    - A Go [string] is a [string]; a Go [[]byte] is a [list byte].
    - A Go [map[string]string] is a [gmap string string]; the nil map and the
      empty map are both [∅] (the code only ranges over, reads and, after
      [make], writes them).
    - [for k, v := range m] visits every entry once in an order Go leaves
      unspecified: loops over maps take the visiting order as an argument
      [order] constrained by [RangeOrder m order].
    - A pointer that may be nil is an [option].
    - What a call meets outside the program (the server behind the HTTP
      transport, the random source, the clock) is an argument of the
      model. *)

From Stdlib Require Import ZArith NArith Lia List Bool Ascii String.
From Stdlib Require Import Strings.Byte DecimalString.
From stdpp Require Import base gmap strings list fin_maps.

Open Scope string_scope.
Open Scope list_scope.

(** ** Map iteration *)

(** [order] is a possible visiting order of [range m]. *)
Definition RangeOrder (m : gmap string string) (order : list (string * string)) : Prop :=
  order ≡ₚ map_to_list m.

(** ** Bytes and strings *)

(** [[]byte(s)] and [string(b)]. *)
Definition bytes_of_string (s : string) : list byte := list_byte_of_string s.
Definition string_of_bytes (b : list byte) : string := string_of_list_byte b.

Definition byteZ (b : byte) : Z := Z.of_N (Byte.to_N b).

(** [strings.ToLower] on the ASCII letters. Go's function also maps
    non-ASCII runes, none of which lowers to a letter of ["xmlns"], the only
    string its result is compared with here. *)
Definition lowerAscii (c : ascii) : ascii :=
  let n := N_of_ascii c in
  if ((65 <=? n) && (n <=? 90))%N then ascii_of_N (n + 32) else c.

Fixpoint ToLower (s : string) : string :=
  match s with
  | EmptyString => EmptyString
  | String c r => String (lowerAscii c) (ToLower r)
  end.

(** [len(bytes.TrimSpace(t)) == 0]: [t] consists of white space only, that
    is of the ASCII spaces (tab, LF, VT, FF, CR, space) and of the UTF-8
    encodings of the other code points of [unicode.IsSpace]: U+0085, U+00A0,
    U+1680, U+2000..U+200A, U+2028, U+2029, U+202F, U+205F, U+3000. *)
Definition asciiSpace (b : byte) : bool :=
  let n := byteZ b in
  ((9 <=? n) && (n <=? 13) || (n =? 32))%Z.

Fixpoint allSpace (t : list byte) : bool :=
  match t with
  | [] => true
  | b :: r =>
    if asciiSpace b then allSpace r
    else
      match byteZ b, r with
      | 0xC2%Z, b1 :: r1 =>
          ((byteZ b1 =? 0x85) || (byteZ b1 =? 0xA0))%Z && allSpace r1
      | 0xE1%Z, b1 :: b2 :: r2 =>
          ((byteZ b1 =? 0x9A) && (byteZ b2 =? 0x80))%Z && allSpace r2
      | 0xE2%Z, b1 :: b2 :: r2 =>
          (((byteZ b1 =? 0x80)
            && ((0x80 <=? byteZ b2) && (byteZ b2 <=? 0x8A)
                || (byteZ b2 =? 0xA8) || (byteZ b2 =? 0xA9) || (byteZ b2 =? 0xAF)))
           || ((byteZ b1 =? 0x81) && (byteZ b2 =? 0x9F)))%Z && allSpace r2
      | 0xE3%Z, b1 :: b2 :: r2 =>
          ((byteZ b1 =? 0x80) && (byteZ b2 =? 0x80))%Z && allSpace r2
      | _, _ => false
      end
  end.

(** ** The interface of [encoding/xml] used by the package

    The package drives the library through [Decoder.Token],
    [Decoder.DecodeElement], [Encoder.EncodeToken] and [Encoder.Encode].
    The decoder is modelled by the tokens its tokenizer yields, each with
    the source bytes it was read from (which is what an [innerxml] field
    stores); the encoder by the tokens written to its buffer. *)
Module xml.

Record Name := mkName { Space : string; Local : string }.
Record Attr := mkAttr { AttrName : Name; Value : string }.
Record StartElement := mkStart { StartName : Name; StartAttr : list Attr }.

Inductive Token :=
| TokStartElement (t : StartElement)
| TokEndElement (name : Name)
| TokCharData (data : list byte)
| TokComment (data : list byte)
| TokProcInst (target : string) (inst : list byte)
| TokDirective (data : list byte).

(** A token together with its source text. *)
Record Lexeme := mkLexeme { tok : Token; raw : list byte }.

(** The state of a [*xml.Decoder]: the tokens still to come. When they run
    out [Token] returns an error (a syntax error or an unexpected EOF; a
    tokenizer never yields an end element that closes nothing). *)
Definition Decoder := list Lexeme.

(** [d.Token()]; [None] is the error case. *)
Definition DecoderToken (d : Decoder) : option (Token * Decoder) :=
  match d with
  | [] => None
  | l :: d' => Some (tok l, d')
  end.

(** What [d.DecodeElement(v, &start)] and [d.Skip()] consume once the start
    element has been read: everything through the matching end element.
    Returns the content of the element and the decoder after it. *)
Fixpoint readElement (depth : nat) (d : Decoder) : option (list Lexeme * Decoder) :=
  match d with
  | [] => None
  | l :: d' =>
    match tok l with
    | TokStartElement _ =>
        match readElement (S depth) d' with
        | Some (inner, rest) => Some (l :: inner, rest)
        | None => None
        end
    | TokEndElement _ =>
        match depth with
        | O => Some ([], d')
        | S k =>
            match readElement k d' with
            | Some (inner, rest) => Some (l :: inner, rest)
            | None => None
            end
        end
    | _ =>
        match readElement depth d' with
        | Some (inner, rest) => Some (l :: inner, rest)
        | None => None
        end
    end
  end.

(** The source bytes of a run of tokens: the value of an [innerxml] field. *)
Definition rawBytes (ls : list Lexeme) : list byte := concat (raw <$> ls).

(** The child elements of an element's content, each with its own content. *)
Fixpoint children (fuel : nat) (ls : list Lexeme) : list (Name * list Lexeme) :=
  match fuel with
  | O => []
  | S fuel' =>
    match ls with
    | [] => []
    | l :: ls' =>
      match tok l with
      | TokStartElement t =>
          match readElement 0 ls' with
          | Some (inner, rest) => (StartName t, inner) :: children fuel' rest
          | None => []
          end
      | _ => children fuel' ls'
      end
    end
  end.

Definition childElements (ls : list Lexeme) : list (Name * list Lexeme) :=
  children (length ls) ls.

(** The character data directly inside an element (that of nested elements
    is skipped): what the library stores in a [string] field. *)
Fixpoint charData (depth : nat) (ls : list Lexeme) : list byte :=
  match ls with
  | [] => []
  | l :: ls' =>
    match tok l with
    | TokStartElement _ => charData (S depth) ls'
    | TokEndElement _ => charData (Nat.pred depth) ls'
    | TokCharData data =>
        match depth with
        | O => data ++ charData depth ls'
        | S _ => charData depth ls'
        end
    | _ => charData depth ls'
    end
  end.

Definition textOf (ls : list Lexeme) : string := string_of_bytes (charData 0 ls).

(** Tokens handed to an [*xml.Encoder]: [EncodeToken] of a start or end
    element, escaped character data, and bytes copied verbatim (an
    [innerxml] field). *)
Inductive Item :=
| IStart (t : StartElement)
| IEnd (name : Name)
| IText (s : string)
| IRaw (b : list byte).

(** The start element the library passes to a [MarshalXML] method reached
    through [Encode]: the type name, no attributes. *)
Definition defaultStart (typeName : string) : StartElement :=
  mkStart (mkName "" typeName) [].

(** *** How the decoder reads back what the encoder wrote *)

Definition isColon (c : ascii) : bool := bool_decide (c = ":"%char).

Fixpoint countColon (s : string) : nat :=
  match s with
  | EmptyString => 0
  | String c r => (if isColon c then 1 else 0) + countColon r
  end.

(** [strings.Cut(s, ":")] *)
Fixpoint cutColon (s : string) : option (string * string) :=
  match s with
  | EmptyString => None
  | String c r =>
    if isColon c then Some (EmptyString, r)
    else match cutColon r with
         | Some (a, b) => Some (String c a, b)
         | None => None
         end
  end.

(** The tokenizer's split of a name read from the input into prefix and
    local part ([Decoder.nsname]): at the colon, unless the prefix or the
    local part would be empty. Names with several colons, which versions of
    the library treat differently, are kept whole here and left out of
    [isName] below. *)
Definition nsname (s : string) : Name :=
  if (1 <? countColon s)%nat then mkName "" s
  else match cutColon s with
       | Some (space, local) =>
           if bool_decide (space = "") || bool_decide (local = "") then mkName "" s
           else mkName space local
       | None => mkName "" s
       end.

(** Names the model reads back: ASCII XML names with at most one colon. *)
Definition isNameChar (first : bool) (c : ascii) : bool :=
  let n := N_of_ascii c in
  ((65 <=? n) && (n <=? 90) || (97 <=? n) && (n <=? 122) || (n =? 95) || (n =? 58)
   || negb first && ((48 <=? n) && (n <=? 57) || (n =? 45) || (n =? 46)))%N.

Fixpoint isNameRest (s : string) : bool :=
  match s with
  | EmptyString => true
  | String c r => isNameChar false c && isNameRest r
  end.

Definition isName (s : string) : bool :=
  match s with
  | EmptyString => false
  | String c r => isNameChar true c && isNameRest r
  end && (countColon s <=? 1)%nat.

(** Text that escaping on output and unescaping on input leave unchanged:
    ASCII characters of the XML character range. *)
Definition isTextChar (c : ascii) : bool :=
  let n := N_of_ascii c in
  ((n =? 9) || (n =? 10) || (n =? 13) || (32 <=? n) && (n <=? 127))%N.

Fixpoint isText (s : string) : bool :=
  match s with
  | EmptyString => true
  | String c r => isTextChar c && isText r
  end.

(** An attribute as written and as read: the name is split, and a prefix
    other than [xmlns] would be replaced by the URI bound to it, so only
    unprefixed and [xmlns:] attributes are covered. *)
Definition wireAttr (a : Attr) : bool :=
  bool_decide (Space (AttrName a) = "")
  && isName (Local (AttrName a))
  && isText (Value a)
  && (bool_decide (Space (nsname (Local (AttrName a))) = "")
      || bool_decide (Space (nsname (Local (AttrName a))) = "xmlns")).

Definition readAttr (a : Attr) : Attr :=
  mkAttr (nsname (Local (AttrName a))) (Value a).

(** The nesting depth after a run of tokens, [None] when an end element
    closes nothing. *)
Fixpoint nesting (ls : list Lexeme) (depth : nat) : option nat :=
  match ls with
  | [] => Some depth
  | l :: ls' =>
    match tok l with
    | TokStartElement _ => nesting ls' (S depth)
    | TokEndElement _ =>
        match depth with
        | O => None
        | S k => nesting ls' k
        end
    | _ => nesting ls' depth
    end
  end.

(** [reads items ts]: the tokenizer reads the bytes written for [items] as
    the tokens [ts].
    - An element name is written as given (no name space) and read back
      split; the [Space] of the token is the URI bound to the prefix, which
      the package never looks at, and is left open.
    - Escaped text comes back as one character data token.
    - Verbatim bytes are read as whatever well-nested tokens they spell. *)
Inductive reads : list Item -> list Lexeme -> Prop :=
| reads_nil : reads [] []
| reads_start t sp src its ts :
    Space (StartName t) = "" ->
    isName (Local (StartName t)) = true ->
    forallb wireAttr (StartAttr t) = true ->
    reads its ts ->
    reads (IStart t :: its)
          (mkLexeme (TokStartElement
                       (mkStart (mkName sp (Local (nsname (Local (StartName t)))))
                                (readAttr <$> StartAttr t))) src :: ts)
| reads_end n sp src its ts :
    Space n = "" ->
    isName (Local n) = true ->
    reads its ts ->
    reads (IEnd n :: its)
          (mkLexeme (TokEndElement (mkName sp (Local (nsname (Local n))))) src :: ts)
| reads_text_empty its ts :
    reads its ts ->
    reads (IText "" :: its) ts
| reads_text s src its ts :
    s <> "" ->
    isText s = true ->
    reads its ts ->
    reads (IText s :: its) (mkLexeme (TokCharData (bytes_of_string s)) src :: ts)
| reads_raw b ls its ts :
    rawBytes ls = b ->
    nesting ls 0 = Some 0%nat ->
    reads its ts ->
    reads (IRaw b :: its) (ls ++ ts).

End xml.

(** ** [crypto/sha1]: the SHA-1 hash, on 32-bit words held in [Z] *)
Module sha1.
Local Open Scope Z_scope.

Definition mask32 : Z := 0xFFFFFFFF.
Definition add32 (a b : Z) : Z := (a + b) mod 2 ^ 32.
Definition rotl32 (n x : Z) : Z :=
  Z.lor (Z.land (Z.shiftl x n) mask32) (Z.shiftr x (32 - n)).
Definition not32 (x : Z) : Z := Z.lxor x mask32.

(** Big-endian bytes of a word and back. *)
Fixpoint be_bytes (n : nat) (x : Z) : list Z :=
  match n with
  | O => []
  | S k => Z.land (Z.shiftr x (8 * Z.of_nat k)) 0xFF :: be_bytes k x
  end.

Definition be_word (bs : list Z) : Z := fold_left (fun acc b => acc * 256 + b) bs 0.

(** The message followed by 0x80, zeros up to 56 modulo 64, and the bit
    length on 8 bytes. *)
Definition pad (msg : list Z) : list Z :=
  let len := Z.of_nat (length msg) in
  let zeros := Z.to_nat ((55 - len) mod 64) in
  msg ++ [0x80] ++ repeat 0 zeros ++ be_bytes 8 (8 * len).

Fixpoint words (n : nat) (bs : list Z) : list Z :=
  match n with
  | O => []
  | S k => be_word (firstn 4 bs) :: words k (skipn 4 bs)
  end.

(** The message schedule: [n] more words after the ones in [w]. *)
Fixpoint schedule (n : nat) (w : list Z) : list Z :=
  match n with
  | O => w
  | S k =>
    let i := length w in
    let x := Z.lxor (Z.lxor (nth (i - 3)%nat w 0) (nth (i - 8)%nat w 0))
                    (Z.lxor (nth (i - 14)%nat w 0) (nth (i - 16)%nat w 0)) in
    schedule k (w ++ [rotl32 1 x])
  end.

Definition State : Type := Z * Z * Z * Z * Z.

Definition round (i : nat) (wi : Z) (s : State) : State :=
  let '(a, b, c, d, e) := s in
  let '(f, k) :=
    if (i <? 20)%nat then (Z.lor (Z.land b c) (Z.land (not32 b) d), 0x5A827999)
    else if (i <? 40)%nat then (Z.lxor (Z.lxor b c) d, 0x6ED9EBA1)
    else if (i <? 60)%nat then (Z.lor (Z.land (Z.lor b c) d) (Z.land b c), 0x8F1BBCDC)
    else (Z.lxor (Z.lxor b c) d, 0xCA62C1D6) in
  let t := add32 (add32 (add32 (add32 (rotl32 5 a) f) e) wi) k in
  (t, a, rotl32 30 b, c, d).

Fixpoint rounds (i : nat) (w : list Z) (s : State) : State :=
  match w with
  | [] => s
  | wi :: w' => rounds (S i) w' (round i wi s)
  end.

Definition block (h : State) (bs : list Z) : State :=
  let '(h0, h1, h2, h3, h4) := h in
  let '(a, b, c, d, e) := rounds 0 (schedule 64 (words 16 bs)) h in
  (add32 h0 a, add32 h1 b, add32 h2 c, add32 h3 d, add32 h4 e).

Fixpoint blocks (n : nat) (h : State) (bs : list Z) : State :=
  match n with
  | O => h
  | S k => blocks k (block h (firstn 64 bs)) (skipn 64 bs)
  end.

Definition init : State := (0x67452301, 0xEFCDAB89, 0x98BADCFE, 0x10325476, 0xC3D2E1F0).

Definition byte_of_Z (z : Z) : byte :=
  match Byte.of_N (Z.to_N (z mod 256)) with
  | Some b => b
  | None => x00
  end.

(** The 20-byte digest of a message. *)
Definition digest (msg : list byte) : list byte :=
  let p := pad (byteZ <$> msg) in
  let '(h0, h1, h2, h3, h4) := blocks (length p / 64)%nat init p in
  byte_of_Z <$> (be_bytes 4 h0 ++ be_bytes 4 h1 ++ be_bytes 4 h2 ++ be_bytes 4 h3
                 ++ be_bytes 4 h4).

(** The hash object: [New()], [Write(p)] and [Sum(nil)]. Its state is the
    bytes written so far. *)
Definition New : list byte := [].
Definition Write (h p : list byte) : list byte := h ++ p.
Definition Sum (h : list byte) : list byte := digest h.

End sha1.

(** ** [encoding/base64]: [StdEncoding] *)
Module base64.
Local Open Scope Z_scope.

Definition alphabet : string :=
  "ABCDEFGHIJKLMNOPQRSTUVWXYZabcdefghijklmnopqrstuvwxyz0123456789+/".

(** The character of a 6-bit value. *)
Definition encodeChar (v : Z) : ascii :=
  match String.get (Z.to_nat v) alphabet with
  | Some c => c
  | None => "="%char
  end.

(** [StdEncoding.EncodeToString]: three bytes give four characters; one or
    two bytes left over give two or three, padded with [=]. *)
Fixpoint EncodeToString (src : list byte) : string :=
  match src with
  | [] => ""
  | [a] =>
      String (encodeChar (byteZ a / 4)) (String (encodeChar (byteZ a mod 4 * 16)) "==")
  | [a; b] =>
      String (encodeChar (byteZ a / 4))
     (String (encodeChar (byteZ a mod 4 * 16 + byteZ b / 16))
     (String (encodeChar (byteZ b mod 16 * 4)) "="))
  | a :: b :: c :: r =>
      String (encodeChar (byteZ a / 4))
     (String (encodeChar (byteZ a mod 4 * 16 + byteZ b / 16))
     (String (encodeChar (byteZ b mod 16 * 4 + byteZ c / 64))
     (String (encodeChar (byteZ c mod 64)) (EncodeToString r))))
  end.

(** The 6-bit value of a character of the alphabet. *)
Definition decodeChar (c : ascii) : option Z :=
  let n := Z.of_N (N_of_ascii c) in
  if ((65 <=? n) && (n <=? 90))%Z then Some (n - 65)
  else if ((97 <=? n) && (n <=? 122))%Z then Some (n - 71)
  else if ((48 <=? n) && (n <=? 57))%Z then Some (n + 4)
  else if (n =? 43)%Z then Some 62
  else if (n =? 47)%Z then Some 63
  else None.

Definition isPad (c : ascii) : bool := bool_decide (c = "="%char).

(** Decoding the input quantum by quantum, once the newlines are dropped:
    four characters give three bytes; the last quantum may end in one or
    two padding characters; anything else is corrupt input. *)
Fixpoint decodeQuanta (s : string) : option (list byte) :=
  match s with
  | EmptyString => Some []
  | String c0 (String c1 (String c2 (String c3 r))) =>
    match decodeChar c0, decodeChar c1 with
    | Some a, Some b =>
      match decodeChar c2, decodeChar c3 with
      | Some c, Some d =>
          match decodeQuanta r with
          | Some out =>
              Some (sha1.byte_of_Z (a * 4 + b / 16)
                    :: sha1.byte_of_Z (b mod 16 * 16 + c / 4)
                    :: sha1.byte_of_Z (c mod 4 * 64 + d) :: out)
          | None => None
          end
      | Some c, None =>
          if isPad c3 && bool_decide (r = "")
          then Some [sha1.byte_of_Z (a * 4 + b / 16); sha1.byte_of_Z (b mod 16 * 16 + c / 4)]
          else None
      | None, _ =>
          if isPad c2 && isPad c3 && bool_decide (r = "")
          then Some [sha1.byte_of_Z (a * 4 + b / 16)]
          else None
      end
    | _, _ => None
    end
  | _ => None
  end.

Fixpoint dropNewlines (s : string) : string :=
  match s with
  | EmptyString => EmptyString
  | String c r =>
    if bool_decide (c = "010"%char) || bool_decide (c = "013"%char)
    then dropNewlines r else String c (dropNewlines r)
  end.

(** [StdEncoding.DecodeString]; [None] is a [CorruptInputError]. *)
Definition DecodeString (s : string) : option (list byte) :=
  decodeQuanta (dropNewlines s).

End base64.

(** ** [time]: a UTC instant by its calendar fields, and [Format] *)
Module time.

Record Time := mkTime {
  year : Z; month : Z; day : Z; hour : Z; minute : Z; second : Z; nanosecond : Z
}.

Definition decimal (n : Z) : string := NilZero.string_of_uint (N.to_uint (Z.to_N n)).

Fixpoint zeros (n : nat) : string :=
  match n with
  | O => ""
  | S k => String "0" (zeros k)
  end.

(** [appendInt]: the decimal form of [x], zero-padded to [width]. *)
Definition appendInt (x : Z) (width : nat) : string :=
  let u := decimal (Z.abs x) in
  (if (x <? 0)%Z then "-" else "") +:+ zeros (width - String.length u) +:+ u.

(** [t.Format("2006-01-02T15:04:05")] *)
Definition Format (t : Time) : string :=
  appendInt (year t) 4 +:+ "-" +:+ appendInt (month t) 2 +:+ "-" +:+ appendInt (day t) 2
  +:+ "T" +:+ appendInt (hour t) 2 +:+ ":" +:+ appendInt (minute t) 2
  +:+ ":" +:+ appendInt (second t) 2.

End time.

(** ** Package [soap]: soap.go *)
Module soap.
Import xml.

(** SOAP Namespaces (soap.go, lines 12-19) *)
Definition NamespaceEnvelope : string := "http://www.w3.org/2003/05/soap-envelope".
Definition NamspaceWSSSecExt : string :=
  "http://docs.oasis-open.org/wss/2004/01/oasis-200401-wss-wssecurity-secext-1.0.xsd".
Definition NamespaceWSSUtility : string :=
  "http://docs.oasis-open.org/wss/2004/01/oasis-200401-wss-wssecurity-utility-1.0.xsd".
Definition NamespaceONVIFError : string := "http://www.onvif.org/ver10/error".

(** security.go, lines 12-15 *)
Definition typePassword : string :=
  "http://docs.oasis-open.org/wss/2004/01/oasis-200401-wss-username-token-profile-1.0#PasswordDigest".
Definition typeNonce : string :=
  "http://docs.oasis-open.org/wss/2004/01/oasis-200401-wss-soap-message-security-1.0#Base64Binary".

(** The structs. An [XMLName] field only names the element and is left
    out; a field [F] of struct [T] that would clash with another name is
    called [T_F]. *)
Record Password := mkPassword { Password_Type : string; Password_Password : string }.
Record Nonce := mkNonce { Nonce_EncodingType : string; Nonce_Nonce : string }.
Record UsernameToken := mkUsernameToken {
  Username : string;
  UsernameToken_Password : option Password;
  UsernameToken_Nonce : option Nonce;
  Created : string
}.
Record Security := mkSecurity { Security_UsernameToken : option UsernameToken }.
Record Header := mkHeader { Header_Security : option Security }.

Record Fault := mkFault {
  Fault_Namespaces : gmap string string;
  Code : string;
  SubCode : string;
  Reason : string;
  Node : string;
  Role : string;
  Detail : list byte
}.

Record Body := mkBody { Body_Fault : option Fault; InnerXML : list byte }.

Record Envelope := mkEnvelope {
  Namespaces : gmap string string;
  Envelope_Header : option Header;
  Envelope_Body : option Body
}.

(** Go [error] values that occur in the two packages. *)
Inductive error :=
| TokenError                               (* an error of the XML tokenizer *)
| Errorf (msg : string) (err : error)      (* fmt.Errorf(msg + ": %w", err) *)
| ErrorsNew (msg : string)                 (* errors.New(msg) *)
| InvalidSecurityType (mode : Z)           (* fmt.Errorf("invalid SecurityType: %d", mode) *)
| ExternalError                            (* an error returned by the environment *)
| UnexpectedTokenError (name : Name)
| UnexpectedTokenTypeError (t : Token)
| UnauthorizedError (err : error)
| FaultError (f : Fault).                  (* a *Fault used as an error *)

(** *** Encoding *)

Definition plain (local : string) : Name := mkName "" local.

(** An element holding a string: [<name>text</name>]. *)
Definition stringElement (name : string) (attr : list Attr) (s : string) : list Item :=
  [IStart (mkStart (plain name) attr); IText s; IEnd (plain name)].

(** [enc.Encode] of a [*UsernameToken], by the field tags of security.go,
    lines 44-64; a nil pointer writes nothing. *)
Definition encodeUsernameToken (ut : option UsernameToken) : list Item :=
  match ut with
  | None => []
  | Some t =>
    [IStart (mkStart (plain "wsse:UsernameToken") [])]
    ++ stringElement "wsse:Username" [] (Username t)
    ++ match UsernameToken_Password t with
       | Some p => stringElement "wsse:Password" [mkAttr (plain "Type") (Password_Type p)]
                                 (Password_Password p)
       | None => []
       end
    ++ match UsernameToken_Nonce t with
       | Some n => stringElement "wsse:Nonce" [mkAttr (plain "EncodingType") (Nonce_EncodingType n)]
                                 (Nonce_Nonce n)
       | None => []
       end
    ++ stringElement "wsu:Created" [] (Created t)
    ++ [IEnd (plain "wsse:UsernameToken")]
  end.

(** [func (s *Security) MarshalXML] (security.go, lines 23-41) *)
Definition Security_MarshalXML (s : Security) (start : StartElement) : list Item :=
  let attr := StartAttr start
              ++ [mkAttr (plain "xmlns:wsse") NamspaceWSSSecExt;
                  mkAttr (plain "xmlns:wsu") NamespaceWSSUtility] in
  [IStart (mkStart (plain "wsse:Security") attr)]
  ++ encodeUsernameToken (Security_UsernameToken s)
  ++ [IEnd (plain "wsse:Security")].

(** [enc.Encode(h)] for [h *header] (soap.go, lines 158-161): the element
    [env:Header], with the security block unless it is nil. *)
Definition encodeHeader (h : Header) : list Item :=
  [IStart (mkStart (plain "env:Header") [])]
  ++ match Header_Security h with
     | Some s => Security_MarshalXML s (defaultStart "Security")
     | None => []
     end
  ++ [IEnd (plain "env:Header")].

(** [enc.Encode] of a [*Fault], by the field tags of soap.go, lines
    164-173: the paths [Code>Value], [Code>Subcode>Value], [Reason>Text],
    then [Node], [Role] and the verbatim [Detail]. *)
Definition encodeFault (f : Fault) : list Item :=
  [IStart (mkStart (plain "Fault") []); IStart (mkStart (plain "Code") [])]
  ++ stringElement "Value" [] (Code f)
  ++ [IStart (mkStart (plain "Subcode") [])]
  ++ stringElement "Value" [] (SubCode f)
  ++ [IEnd (plain "Subcode"); IEnd (plain "Code"); IStart (mkStart (plain "Reason") [])]
  ++ stringElement "Text" [] (Reason f)
  ++ [IEnd (plain "Reason")]
  ++ stringElement "Node" [] (Node f)
  ++ stringElement "Role" [] (Role f)
  ++ [IRaw (Detail f); IEnd (plain "Fault")].

(** [enc.Encode(b)] for [b *body] (soap.go, lines 225-229): the element
    [env:Body] holding the fault, unless nil, and the verbatim [InnerXML]. *)
Definition encodeBody (b : Body) : list Item :=
  [IStart (mkStart (plain "env:Body") [])]
  ++ match Body_Fault b with
     | Some f => encodeFault f
     | None => []
     end
  ++ [IRaw (InnerXML b); IEnd (plain "env:Body")].

(** [func (e *Envelope) MarshalXML] (soap.go, lines 64-96). [order] is the
    visiting order of [range e.Namespaces]. The encoder writes to a buffer,
    so none of its calls fails and the method returns nil. *)
Definition MarshalXML (order : list (string * string)) (e : Envelope) (start : StartElement)
  : list Item :=
  let attr := StartAttr start
              ++ [mkAttr (plain "xmlns:env") NamespaceEnvelope]
              ++ ((fun kv => mkAttr (plain ("xmlns:" +:+ kv.1)) kv.2) <$> order) in
  [IStart (mkStart (plain "env:Envelope") attr)]
  ++ match Envelope_Header e with
     | Some h => encodeHeader h
     | None => []
     end
  ++ match Envelope_Body e with
     | Some b => encodeBody b
     | None => []
     end
  ++ [IEnd (plain "env:Envelope")].

(** [xml.NewEncoder(buf).Encode(env)] *)
Definition Encode (order : list (string * string)) (e : Envelope) : list Item :=
  MarshalXML order e (defaultStart "Envelope").

(** *** Decoding *)

(** [d.DecodeElement(h, &t)] for [h *Header]. A [Security] child allocates
    the block; its token is never filled in, because the field is matched
    against the tag [wsse:UsernameToken] while a token's local name carries
    no prefix. *)
Definition decodeHeader (inner : list Lexeme) : Header :=
  mkHeader
    (if existsb (fun c => bool_decide (Local c.1 = "Security")) (childElements inner)
     then Some (mkSecurity None) else None).

Definition setByLeaf (leaf : string) (set : string -> Fault -> Fault)
    (f : Fault) (c : Name * list Lexeme) : Fault :=
  if bool_decide (Local c.1 = leaf) then set (textOf c.2) f else f.

Definition setCode (s : string) (f : Fault) : Fault :=
  mkFault (Fault_Namespaces f) s (SubCode f) (Reason f) (Node f) (Role f) (Detail f).
Definition setSubCode (s : string) (f : Fault) : Fault :=
  mkFault (Fault_Namespaces f) (Code f) s (Reason f) (Node f) (Role f) (Detail f).
Definition setReason (s : string) (f : Fault) : Fault :=
  mkFault (Fault_Namespaces f) (Code f) (SubCode f) s (Node f) (Role f) (Detail f).
Definition setNode (s : string) (f : Fault) : Fault :=
  mkFault (Fault_Namespaces f) (Code f) (SubCode f) (Reason f) s (Role f) (Detail f).
Definition setRole (s : string) (f : Fault) : Fault :=
  mkFault (Fault_Namespaces f) (Code f) (SubCode f) (Reason f) (Node f) s (Detail f).
Definition setDetail (b : list byte) (f : Fault) : Fault :=
  mkFault (Fault_Namespaces f) (Code f) (SubCode f) (Reason f) (Node f) (Role f) b.
Definition setFaultNamespaces (ns : gmap string string) (f : Fault) : Fault :=
  mkFault ns (Code f) (SubCode f) (Reason f) (Node f) (Role f) (Detail f).

(** The children of a [Code] element: [Value] sets [Code], and inside
    [Subcode] a [Value] sets [SubCode]. *)
Definition decodeCode (f : Fault) (c : Name * list Lexeme) : Fault :=
  if bool_decide (Local c.1 = "Value") then setCode (textOf c.2) f
  else if bool_decide (Local c.1 = "Subcode") then
    foldl (setByLeaf "Value" setSubCode) f (childElements c.2)
  else f.

(** One child element of a [Fault] element. *)
Definition decodeFaultChild (f : Fault) (c : Name * list Lexeme) : Fault :=
  if bool_decide (Local c.1 = "Code") then foldl decodeCode f (childElements c.2)
  else if bool_decide (Local c.1 = "Reason") then
    foldl (setByLeaf "Text" setReason) f (childElements c.2)
  else if bool_decide (Local c.1 = "Node") then setNode (textOf c.2) f
  else if bool_decide (Local c.1 = "Role") then setRole (textOf c.2) f
  else f.

(** Unmarshalling a [Fault] element into [f]. *)
Definition decodeFault (f : Fault) (inner : list Lexeme) : Fault :=
  setDetail (rawBytes inner) (foldl decodeFaultChild f (childElements inner)).

Definition newFault : Fault := mkFault ∅ "" "" "" "" "" [].

(** [d.DecodeElement(b, &t)] for [b := new(Body)]: every [Fault] child is
    unmarshalled into the (once allocated) fault, and [InnerXML] is the
    source text of the whole content. *)
Definition decodeBody (inner : list Lexeme) : Body :=
  mkBody
    (foldl (fun (acc : option Fault) (c : Name * list Lexeme) =>
              if bool_decide (Local c.1 = "Fault")
              then Some (decodeFault (default newFault acc) c.2)
              else acc)
           None (childElements inner))
    (rawBytes inner).

(** The first loop of [UnmarshalXML] (soap.go, lines 103-107). *)
Definition collectNamespaces (ns : gmap string string) (attr : list Attr) : gmap string string :=
  foldl (fun (m : gmap string string) (a : Attr) =>
           if bool_decide (ToLower (Space (AttrName a)) = "xmlns")
           then <[Local (AttrName a) := Value a]> m else m)
        ns attr.

(** The token loop of [UnmarshalXML] (soap.go, lines 114-149). The result
    is the envelope as the method leaves it, the decoder, and the returned
    error; [None] only when [fuel] runs out. *)
Fixpoint tokenLoop (fuel : nat) (e : Envelope) (d : Decoder)
  : option (Envelope * Decoder * option error) :=
  match fuel with
  | O => None
  | S fuel' =>
    match DecoderToken d with
    | None => Some (e, d, Some (Errorf "could not decode token" TokenError))
    | Some (tk, d1) =>
      match tk with
      | TokStartElement t =>
        if bool_decide (Local (StartName t) = "Header") then
          match readElement 0 d1 with
          | None => Some (e, [], Some (Errorf "could not decode header" TokenError))
          | Some (inner, d2) =>
              tokenLoop fuel' (mkEnvelope (Namespaces e) (Some (decodeHeader inner))
                                          (Envelope_Body e)) d2
          end
        else if bool_decide (Local (StartName t) = "Body") then
          match readElement 0 d1 with
          | None => Some (e, [], Some (Errorf "could not decode body" TokenError))
          | Some (inner, d2) =>
              let b := decodeBody inner in
              let b' := mkBody (setFaultNamespaces (Namespaces e) <$> Body_Fault b)
                               (InnerXML b) in
              tokenLoop fuel' (mkEnvelope (Namespaces e) (Envelope_Header e) (Some b')) d2
          end
        else Some (e, d1, Some (UnexpectedTokenError (StartName t)))
      | TokEndElement _ => Some (e, d1, None)
      | TokCharData t =>
          if allSpace t then tokenLoop fuel' e d1
          else Some (e, d1, Some (UnexpectedTokenTypeError tk))
      | _ => Some (e, d1, Some (UnexpectedTokenTypeError tk))
      end
    end
  end.

(** [func (e *Envelope) UnmarshalXML] (soap.go, lines 99-150) *)
Definition UnmarshalXML (e : Envelope) (d : Decoder) (start : StartElement)
  : option (Envelope * Decoder * option error) :=
  let ns := collectNamespaces (Namespaces e) (StartAttr start) in
  let body := match Envelope_Body e with
              | None => Some (mkBody None [])
              | Some b => Some b
              end in
  tokenLoop (S (length d)) (mkEnvelope ns (Envelope_Header e) body) d.

Definition newEnvelope : Envelope := mkEnvelope ∅ None None.

(** [xml.NewDecoder(r).Decode(env)] for [env := new(soap.Envelope)]: the
    library skips to the first start element and hands it to
    [UnmarshalXML]. *)
Fixpoint Decode (d : Decoder) : option (Envelope * option error) :=
  match d with
  | [] => Some (newEnvelope, Some TokenError)
  | l :: d' =>
    match tok l with
    | TokStartElement start =>
        match UnmarshalXML newEnvelope d' start with
        | Some (e, _, err) => Some (e, err)
        | None => None
        end
    | _ => Decode d'
    end
  end.

(** [func (f *Fault) IsUnauthorizedError() bool] (soap.go, lines 192-203):
    one iteration of the loop on [(soapPrefix, errPrefix)] ... *)
Definition prefixStep (acc : string * string) (kv : string * string) : string * string :=
  if bool_decide (kv.2 = NamespaceEnvelope) then (kv.1 +:+ ":", acc.2)
  else if bool_decide (kv.2 = NamespaceONVIFError) then (acc.1, kv.1 +:+ ":")
  else acc.

(** ... and the method, [order] being the visiting order of
    [range f.Namespaces]. *)
Definition IsUnauthorizedError (order : list (string * string)) (f : Fault) : bool :=
  let acc := foldl prefixStep ("", "") order in
  bool_decide (Code f = acc.1 +:+ "Sender")
  && bool_decide (SubCode f = acc.2 +:+ "NotAuthorized").

(** [func NewSecurity(username, password string)], returning a [Security] or an error
    (security.go, lines 67-93). [rnd] is what [rand.Read] meets: no
    randomness (an error) or a stream of random bytes, of which it copies
    16 into [nonce]; [now] is [time.Now().UTC()]. *)
Definition NewSecurity (rnd : option (nat -> byte)) (now : time.Time)
    (username password : string) : error + Security :=
  match rnd with
  | None => inl (Errorf "could not generate nonce" ExternalError)
  | Some src =>
    let nonce := src <$> seq 0 16 in
    let created := time.Format now in
    let hash := sha1.New in
    let hash := sha1.Write hash nonce in
    let hash := sha1.Write hash (bytes_of_string created) in
    let hash := sha1.Write hash (bytes_of_string password) in
    inr (mkSecurity (Some (mkUsernameToken
           username
           (Some (mkPassword typePassword (base64.EncodeToString (sha1.Sum hash))))
           (Some (mkNonce typeNonce (base64.EncodeToString nonce)))
           created)))
  end.

(** [var ErrNoResponse] (soap.go, line 22) *)
Definition ErrNoResponse : error := ErrorsNew "server did not return a response".

(** [func (b *Body) Unmarshal(v interface{}) error] (soap.go, lines
    213-223). [decode] is what [xml.NewDecoder(...).Decode(v)] does with
    the payload for the type of [v]: the value it stores, or an error. *)
Definition Unmarshal {V : Type} (decode : list byte -> error + V) (b : Body) : error + V :=
  if bool_decide (length (InnerXML b) = 0%nat)
  then inl (Errorf "body is empty" ErrNoResponse)
  else match decode (InnerXML b) with
       | inl err => inl (Errorf "could not unmarshal" err)
       | inr v => inr v
       end.

End soap.

(** ** Package [onvif]: the client *)
Module onvif.
Import xml soap.

(** [type AuthMode int] and its constants *)
Definition AuthModeNone : Z := 0.
Definition AuthModeDigest : Z := 1.
Definition AuthModeWSSecurity : Z := 2.

(** [type Request struct]. [Body] is an arbitrary Go value of which [Do]
    only takes [xml.Marshal(r.Body)]: the field holds the outcome of that
    call, [None] when it fails. *)
Record Request := mkRequest {
  URL : string;
  Request_Namespaces : gmap string string;
  Request_Body : option (list byte)
}.

(** An [*http.Response]: status, the tokens its body yields, and whether
    the stream of the body ends in a read error instead of the end of the
    input: then reading the body to its end, as [buf2.ReadFrom] does,
    fails, while a decoder meets the error only if it asks for more than
    the tokens. *)
Record Response := mkResponse {
  StatusCode : Z;
  Status : string;
  Response_Body : Decoder;
  BodyErr : bool
}.

(** The [Transport] of the [http.Client]: nil, a [*digest.Transport] (with
    its credentials and the response whose challenge it was seeded with, if
    any), or some other round tripper. *)
Inductive RoundTripper :=
| TransportNil
| TransportDigest (username password : string) (seed : option Response)
| TransportOther.

Definition isDigestTransport (t : RoundTripper) : bool :=
  match t with
  | TransportDigest _ _ _ => true
  | _ => false
  end.

(** [type Client struct]; [HTTPClient] is [None] for a nil pointer and
    otherwise the client's [Transport]. *)
Record Client := mkClient {
  AuthMode : Z;
  Client_Username : string;
  Client_Password : string;
  HTTPClient : option RoundTripper;
  Debug : bool
}.

(** The request handed to [c.HTTPClient.Do]. *)
Record HTTPRequest := mkHTTPRequest {
  Method : string;
  HTTPRequest_URL : string;
  ContentType : string;
  Payload : list Item;
  Via : RoundTripper
}.

(** What a call of [Do] does to the outside world and to the client's
    mode, latest first. *)
Inductive Event :=
| EvSend (req : HTTPRequest)
| EvAuthMode (old new : Z).

Definition isSend (ev : Event) : bool :=
  match ev with EvSend _ => true | _ => false end.
Definition isEscalation (mode : Z) (ev : Event) : bool :=
  match ev with EvAuthMode _ new => (new =? mode)%Z | _ => false end.

Definition sentRequests (w : list Event) : list HTTPRequest :=
  omap (fun ev => match ev with EvSend r => Some r | _ => None end) w.

(** The environment of a call: what [c.HTTPClient.Do] returns (the answer
    to the latest request may depend on all requests so far and on the
    transport they went through; [None] is a transport error), the random
    source and clock met by [NewSecurity], the orders in which the two
    [range] loops visit their map, and whether [http.NewRequest] accepts a
    URL. The [nat] is the length of the trace at the time of the call. *)
Record Env := mkEnv {
  transport : list HTTPRequest -> option Response;
  randRead : nat -> option (nat -> byte);
  now : nat -> time.Time;
  marshalOrder : nat -> gmap string string -> list (string * string);
  faultOrder : nat -> gmap string string -> list (string * string);
  urlOK : string -> bool
}.

(** How a call ends: [return env, nil], [return nil, err], or a nil
    dereference. *)
Inductive Outcome :=
| Return (e : Envelope)
| Fail (err : error)
| Panic.

(** [xml.Header] *)
Definition xmlHeader : string :=
  "<?xml version=" +:+ String (ascii_of_nat 34) "1.0" +:+ String (ascii_of_nat 34) " encoding="
  +:+ String (ascii_of_nat 34) "UTF-8" +:+ String (ascii_of_nat 34) "?>" +:+ String (ascii_of_nat 10) "".

Definition credentials (c : Client) : bool :=
  negb (bool_decide (Client_Username c = "")) && negb (bool_decide (Client_Password c = "")).

Definition withTransport (c : Client) (t : RoundTripper) : Client :=
  mkClient (AuthMode c) (Client_Username c) (Client_Password c) (Some t) (Debug c).
Definition withAuthMode (c : Client) (m : Z) : Client :=
  mkClient m (Client_Username c) (Client_Password c) (HTTPClient c) (Debug c).
Definition clientTransport (c : Client) : RoundTripper := default TransportNil (HTTPClient c).

(** The first half of [Do], up to [http.NewRequest]: the default client,
    the authentication parameters for the client's mode, the request body,
    the envelope and the HTTP request. Returns the client as these steps
    leave it, with the error returned or the request to send. *)
Definition prepare (env : Env) (c : Client) (r : Request) (w : list Event)
  : Client * (error + HTTPRequest) :=
  (* set default Client *)
  let c := withTransport c (clientTransport c) in
  (* set auth params *)
  let auth : error + (Client * option Security) :=
    if credentials c then
      if (AuthMode c =? AuthModeNone)%Z then inr (c, None)
      else if (AuthMode c =? AuthModeWSSecurity)%Z then
        match NewSecurity (randRead env (length w)) (now env (length w))
                          (Client_Username c) (Client_Password c) with
        | inl err => inl (Errorf "could not create security header" err)
        | inr s => inr (c, Some s)
        end
      else if (AuthMode c =? AuthModeDigest)%Z then
        if isDigestTransport (clientTransport c) then inr (c, None)
        else inr (withTransport c (TransportDigest (Client_Username c) (Client_Password c) None),
                  None)
      else inl (InvalidSecurityType (AuthMode c))
    else inr (c, None) in
  match auth with
  | inl err => (c, inl err)
  | inr (c, s) =>
    (* marshal request *)
    match Request_Body r with
    | None => (c, inl (Errorf "could not marshal request" ExternalError))
    | Some buf =>
      let envelope := mkEnvelope (Request_Namespaces r) (Some (mkHeader s))
                                 (Some (mkBody None buf)) in
      let buf2 := IRaw (bytes_of_string xmlHeader)
                  :: Encode (marshalOrder env (length w) (Request_Namespaces r)) envelope in
      (* create http request *)
      if negb (urlOK env (URL r))
      then (c, inl (Errorf "could not create http request" ExternalError))
      else (c, inr (mkHTTPRequest "POST" (URL r) "application/soap+xml" buf2
                                  (clientTransport c)))
    end
  end.

(** The client after the escalation to digest authentication (lines
    231-238 of the client): the mode is set, and the digest transport,
    seeded with the 401 response, is installed unless one is installed
    already. The seeding replays the request on a fake transport that
    hands back the 401 response: nothing is sent. *)
Definition escalateDigest (c : Client) (soapResp : Response) : Client :=
  let c := withAuthMode c AuthModeDigest in
  if isDigestTransport (clientTransport c) then c
  else withTransport c (TransportDigest (Client_Username c) (Client_Password c) (Some soapResp)).

(** [func (c *Client) Do(r *Request)], returning an envelope or an error.
    The result is the client and the trace as the call leaves them and its
    outcome; [None] only when [fuel], which bounds the depth of the
    self-invocation, runs out. With [Debug] the call also prints the request
    and the response: it reads the response body to its end, returns an
    error if that fails (lines 219-226), and goes on with the body
    re-buffered. *)
Fixpoint Do (fuel : nat) (env : Env) (c : Client) (r : Request) (w : list Event)
  : option (Client * list Event * Outcome) :=
  match fuel with
  | O => None
  | S fuel' =>
    match prepare env c r w with
    | (c, inl err) => Some (c, w, Fail err)
    | (c, inr httpReq) =>
      (* send request *)
      let w := EvSend httpReq :: w in
      match transport env (sentRequests w) with
      | None => Some (c, w, Fail (Errorf "could not POST request" ExternalError))
      | Some soapResp =>
        if Debug c && BodyErr soapResp
        then Some (c, w, Fail (Errorf "could not read response body" ExternalError))
        else
        (* check for digest auth error *)
        if (StatusCode soapResp =? 401)%Z then
          if negb (AuthMode c =? AuthModeDigest)%Z && credentials c then
            Do fuel' env (escalateDigest c soapResp) r
               (EvAuthMode (AuthMode c) AuthModeDigest :: w)
          else Some (c, w, Fail (UnauthorizedError (ErrorsNew (Status soapResp))))
        else
          (* parse response *)
          match Decode (Response_Body soapResp) with
          | None => None
          | Some (_, Some err) => Some (c, w, Fail (Errorf "could not decode response" err))
          | Some (envelope, None) =>
            (* check for soap fault *)
            match Envelope_Body envelope with
            | None => Some (c, w, Panic)
            | Some b =>
              match Body_Fault b with
              | Some fault =>
                if IsUnauthorizedError
                     (faultOrder env (length w) (Fault_Namespaces fault)) fault
                then
                  if (AuthMode c =? AuthModeNone)%Z && credentials c then
                    Do fuel' env (withAuthMode c AuthModeWSSecurity) r
                       (EvAuthMode (AuthMode c) AuthModeWSSecurity :: w)
                  else Some (c, w, Fail (UnauthorizedError (FaultError fault)))
                else Some (c, w, Fail (FaultError fault))
              | None => Some (c, w, Return envelope)
              end
            end
          end
      end
    end
  end.

(** One pass through the body of [Do]: it ends the call, or ends in one of
    the two self-invocations. *)
Inductive Pass :=
| Done (c : Client) (w : list Event) (out : Outcome)
| Again (c : Client) (w : list Event)
| OutOfFuel.

Definition pass (env : Env) (c : Client) (r : Request) (w : list Event) : Pass :=
  match prepare env c r w with
  | (c, inl err) => Done c w (Fail err)
  | (c, inr httpReq) =>
    let w := EvSend httpReq :: w in
    match transport env (sentRequests w) with
    | None => Done c w (Fail (Errorf "could not POST request" ExternalError))
    | Some soapResp =>
      if Debug c && BodyErr soapResp
      then Done c w (Fail (Errorf "could not read response body" ExternalError))
      else
      if (StatusCode soapResp =? 401)%Z then
        if negb (AuthMode c =? AuthModeDigest)%Z && credentials c then
          Again (escalateDigest c soapResp) (EvAuthMode (AuthMode c) AuthModeDigest :: w)
        else Done c w (Fail (UnauthorizedError (ErrorsNew (Status soapResp))))
      else
        match Decode (Response_Body soapResp) with
        | None => OutOfFuel
        | Some (_, Some err) => Done c w (Fail (Errorf "could not decode response" err))
        | Some (envelope, None) =>
          match Envelope_Body envelope with
          | None => Done c w Panic
          | Some b =>
            match Body_Fault b with
            | Some fault =>
              if IsUnauthorizedError
                   (faultOrder env (length w) (Fault_Namespaces fault)) fault
              then
                if (AuthMode c =? AuthModeNone)%Z && credentials c then
                  Again (withAuthMode c AuthModeWSSecurity)
                        (EvAuthMode (AuthMode c) AuthModeWSSecurity :: w)
                else Done c w (Fail (UnauthorizedError (FaultError fault)))
              else Done c w (Fail (FaultError fault))
            | None => Done c w (Return envelope)
            end
          end
        end
    end
  end.

End onvif.


(** ** Vocabulary of the properties *)

Import xml soap.

Definition quote : string := String (ascii_of_nat 34) "".

(** Tokens as the tokenizer yields them, with their source text. *)
Definition openTag (pfx uri local : string) : Lexeme :=
  mkLexeme (TokStartElement (mkStart (mkName uri local) []))
           (bytes_of_string ("<" +:+ pfx +:+ ":" +:+ local +:+ ">")).
Definition closeTag (pfx uri local : string) : Lexeme :=
  mkLexeme (TokEndElement (mkName uri local))
           (bytes_of_string ("</" +:+ pfx +:+ ":" +:+ local +:+ ">")).
Definition textToken (s : string) : Lexeme :=
  mkLexeme (TokCharData (bytes_of_string s)) (bytes_of_string s).


(** [resolves N uri P]: [P] is a prefix the table [N] gives for [uri],
    colon included, or the empty string when [N] binds no prefix to it. *)
Definition resolves (N : gmap string string) (uri P : string) : Prop :=
  (exists p, N !! p = Some uri /\ P = p +:+ ":")
  \/ ((forall p, N !! p <> Some uri) /\ P = "").

(** At most one prefix of [N] is bound to [uri]. *)
Definition singlePrefix (N : gmap string string) (uri : string) : Prop :=
  forall p q, N !! p = Some uri -> N !! q = Some uri -> p = q.

Definition exampleFault : Fault :=
  mkFault {[ "soapenv" := NamespaceEnvelope; "ter" := NamespaceONVIFError ]}
          "soapenv:Sender" "ter:NotAuthorized" "" "" "" [].



(** The nesting depth after a run of written tokens; verbatim bytes are
    counted as closed in themselves. *)
Fixpoint itemNesting (its : list Item) (depth : nat) : option nat :=
  match its with
  | [] => Some depth
  | IStart _ :: its' => itemNesting its' (S depth)
  | IEnd _ :: its' =>
      match depth with
      | O => None
      | S k => itemNesting its' k
      end
  | _ :: its' => itemNesting its' depth
  end.

(** An element with the given name is written somewhere in [its]. *)
Definition emitsElement (name : string) (its : list Item) : Prop :=
  exists attr, IStart (mkStart (plain name) attr) ∈ its.

(** The attribute [MarshalXML] writes for one namespace binding. *)
Definition nsAttr (kv : string * string) : Attr := mkAttr (plain ("xmlns:" +:+ kv.1)) kv.2.

(** A prefix that comes back as the local part of an [xmlns:] attribute:
    not empty and without a colon. *)
Definition plainPrefix (p : string) : Prop := p <> "" /\ countColon p = 0%nat.

(** The envelope with no namespace of its own, no header and an empty
    payload, and its encoding as the tokenizer reads it. *)
Definition bareEnvelope : Envelope := mkEnvelope ∅ None (Some (mkBody None [])).

Definition bareEnvelopeTokens : Decoder :=
  [mkLexeme (TokStartElement (mkStart (mkName NamespaceEnvelope "Envelope")
               [mkAttr (mkName "xmlns" "env") NamespaceEnvelope]))
            (bytes_of_string ("<env:Envelope xmlns:env=" +:+ quote +:+ NamespaceEnvelope
                              +:+ quote +:+ ">"));
   mkLexeme (TokStartElement (mkStart (mkName NamespaceEnvelope "Body") []))
            (bytes_of_string "<env:Body>");
   mkLexeme (TokEndElement (mkName NamespaceEnvelope "Body")) (bytes_of_string "</env:Body>");
   mkLexeme (TokEndElement (mkName NamespaceEnvelope "Envelope"))
            (bytes_of_string "</env:Envelope>")].

(** A request envelope as [Do] builds one, and its encoding as read by the
    tokenizer: one namespace binding, an empty header, and the payload
    [<tds:GetServices></tds:GetServices>]. *)
Definition NamespaceDevice : string := "http://www.onvif.org/ver10/device/wsdl".

Definition servicesPayload : list Lexeme :=
  [mkLexeme (TokStartElement (mkStart (mkName NamespaceDevice "GetServices") []))
            (bytes_of_string "<tds:GetServices>");
   mkLexeme (TokEndElement (mkName NamespaceDevice "GetServices"))
            (bytes_of_string "</tds:GetServices>")].

Definition servicesBody : Body := mkBody None (rawBytes servicesPayload).

Definition servicesEnvelope : Envelope :=
  mkEnvelope {[ "tds" := NamespaceDevice ]} (Some (mkHeader None)) (Some servicesBody).

Definition servicesTokens : Decoder :=
  [mkLexeme (TokStartElement (mkStart (mkName NamespaceEnvelope "Envelope")
               [mkAttr (mkName "xmlns" "env") NamespaceEnvelope;
                mkAttr (mkName "xmlns" "tds") NamespaceDevice]))
            (bytes_of_string ("<env:Envelope xmlns:env=" +:+ quote +:+ NamespaceEnvelope
                              +:+ quote +:+ " xmlns:tds=" +:+ quote +:+ NamespaceDevice
                              +:+ quote +:+ ">"));
   mkLexeme (TokStartElement (mkStart (mkName NamespaceEnvelope "Header") []))
            (bytes_of_string "<env:Header>");
   mkLexeme (TokEndElement (mkName NamespaceEnvelope "Header"))
            (bytes_of_string "</env:Header>");
   mkLexeme (TokStartElement (mkStart (mkName NamespaceEnvelope "Body") []))
            (bytes_of_string "<env:Body>")]
  ++ servicesPayload
  ++ [mkLexeme (TokEndElement (mkName NamespaceEnvelope "Body")) (bytes_of_string "</env:Body>");
      mkLexeme (TokEndElement (mkName NamespaceEnvelope "Envelope"))
               (bytes_of_string "</env:Envelope>")].

(** A random source that yields zero bytes only, and the first instant of
    2024 (with any nanoseconds). *)
Definition zeroSource : nat -> byte := fun _ => x00.
Definition newYear2024 (ns : Z) : time.Time := time.mkTime 2024 1 1 0 0 0 ns.

Import onvif.

(** How many of the events of a trace satisfy [p]. *)
Fixpoint countEvents (p : Event -> bool) (evs : list Event) : nat :=
  match evs with
  | [] => 0
  | ev :: evs' => (if p ev then 1 else 0) + countEvents p evs'
  end.

(** The escalations a client may still go through. *)
Definition rank (c : Client) : nat :=
  if credentials c then
    if (AuthMode c =? AuthModeNone)%Z then 2
    else if (AuthMode c =? AuthModeWSSecurity)%Z then 1
    else 0
  else 0.

(** The moves of the mode that [Do] makes: from none to WS-Security or to
    digest, and from WS-Security to digest. *)
Definition forward (old new : Z) : Prop :=
  (old = AuthModeNone /\ new = AuthModeWSSecurity)
  \/ (old = AuthModeNone /\ new = AuthModeDigest)
  \/ (old = AuthModeWSSecurity /\ new = AuthModeDigest).

(** [forwardTrace m0 evs m]: in the trace [evs] (latest first) of a call
    that starts in mode [m0], every assignment of the mode is a forward
    move from the mode then current, and [m] is the mode at the end. *)
Inductive forwardTrace (m0 : Z) : list Event -> Z -> Prop :=
| forwardTrace_nil : forwardTrace m0 [] m0
| forwardTrace_send req evs m :
    forwardTrace m0 evs m -> forwardTrace m0 (EvSend req :: evs) m
| forwardTrace_mode old new evs :
    forwardTrace m0 evs old -> forward old new ->
    forwardTrace m0 (EvAuthMode old new :: evs) new.

(** A response envelope that carries a fault with the given code and
    subcode, under the prefixes [env] and [ter]. *)
Definition faultTokens (code subcode : string) : Decoder :=
  [mkLexeme (TokStartElement (mkStart (mkName NamespaceEnvelope "Envelope")
               [mkAttr (mkName "xmlns" "env") NamespaceEnvelope;
                mkAttr (mkName "xmlns" "ter") NamespaceONVIFError]))
            (bytes_of_string ("<env:Envelope xmlns:env=" +:+ quote +:+ NamespaceEnvelope
                              +:+ quote +:+ " xmlns:ter=" +:+ quote +:+ NamespaceONVIFError
                              +:+ quote +:+ ">"));
   openTag "env" NamespaceEnvelope "Body";
   openTag "env" NamespaceEnvelope "Fault";
   openTag "env" NamespaceEnvelope "Code";
   openTag "env" NamespaceEnvelope "Value"; textToken code;
   closeTag "env" NamespaceEnvelope "Value";
   openTag "env" NamespaceEnvelope "Subcode";
   openTag "env" NamespaceEnvelope "Value"; textToken subcode;
   closeTag "env" NamespaceEnvelope "Value";
   closeTag "env" NamespaceEnvelope "Subcode";
   closeTag "env" NamespaceEnvelope "Code";
   openTag "env" NamespaceEnvelope "Reason";
   openTag "env" NamespaceEnvelope "Text"; textToken "Sender not Authorized";
   closeTag "env" NamespaceEnvelope "Text";
   closeTag "env" NamespaceEnvelope "Reason";
   closeTag "env" NamespaceEnvelope "Fault";
   closeTag "env" NamespaceEnvelope "Body";
   closeTag "env" NamespaceEnvelope "Envelope"].

Definition notAuthorizedTokens : Decoder := faultTokens "env:Sender" "ter:NotAuthorized".
Definition receiverFaultTokens : Decoder := faultTokens "env:Receiver" "ter:NotAuthorized".

Definition response401 : Response := mkResponse 401 "401 Unauthorized" [] false.
Definition responseNotAuthorized : Response :=
  mkResponse 400 "400 Bad Request" notAuthorizedTokens false.
Definition responseReceiverFault : Response :=
  mkResponse 500 "500 Internal Server Error" receiverFaultTokens false.
Definition responseOK : Response := mkResponse 200 "200 OK" bareEnvelopeTokens false.

(** A server that gives the [n]-th of [answers] to the [n]-th request, and
    a transport error after the last; around it a random source of zero
    bytes, a clock stopped at the first instant of 2024, maps visited in
    the order of [map_to_list], and every URL accepted. *)
Definition serverEnv (answers : list Response) : Env :=
  mkEnv (fun reqs => answers !! (length reqs - 1)%nat)
        (fun _ => Some zeroSource)
        (fun _ => newYear2024 0)
        (fun _ m => map_to_list m)
        (fun _ m => map_to_list m)
        (fun _ => true).

(** The same server on a machine whose random source fails. *)
Definition noRandomEnv (answers : list Response) : Env :=
  mkEnv (transport (serverEnv answers))
        (fun _ => None)
        (now (serverEnv answers))
        (marshalOrder (serverEnv answers))
        (faultOrder (serverEnv answers))
        (urlOK (serverEnv answers)).

Definition adminClient (mode : Z) : Client := mkClient mode "admin" "12345" None false.
Definition anonymousClient (mode : Z) : Client := mkClient mode "" "" None false.

Definition servicesRequest : Request :=
  mkRequest "http://192.168.0.64:80/onvif/device_service" {[ "tds" := NamespaceDevice ]}
            (Some (rawBytes servicesPayload)).

(** ** More of the packages *)

(** *** What the decoder makes of the root element *)

(** The tokens of an element's content that stand between its child
    elements. *)
Fixpoint between (fuel : nat) (ls : list Lexeme) : list Token :=
  match fuel with
  | O => []
  | S fuel' =>
    match ls with
    | [] => []
    | l :: ls' =>
      match tok l with
      | TokStartElement _ =>
          match readElement 0 ls' with
          | Some (_, rest) => between fuel' rest
          | None => []
          end
      | t => t :: between fuel' ls'
      end
    end
  end.

Definition betweenChildren (ls : list Lexeme) : list Token := between (length ls) ls.

Definition isWhiteSpace (t : Token) : Prop :=
  exists data, t = TokCharData data /\ allSpace data = true.

(** The content of the last child element with the given local name. *)
Definition lastChild (name : string) (cs : list (Name * list Lexeme)) : option (list Lexeme) :=
  foldl (fun acc c => if bool_decide (Local c.1 = name) then Some c.2 else acc) None cs.

(** The body [UnmarshalXML] stores for a [Body] element with the given
    content, in an envelope with namespace table [ns]. *)
Definition storedBody (ns : gmap string string) (content : list Lexeme) : Body :=
  mkBody (setFaultNamespaces ns <$> Body_Fault (decodeBody content)) (rawBytes content).

(** The attribute declares the prefix [p]. *)
Definition declares (p : string) (a : Attr) : Prop :=
  ToLower (Space (AttrName a)) = "xmlns" /\ Local (AttrName a) = p.

(** The envelope after the children [cs] of the root element have been
    read, in order. *)
Definition readChildren (e : Envelope) (cs : list (Name * list Lexeme)) : Envelope :=
  foldl (fun e c =>
           if bool_decide (Local c.1 = "Header")
           then mkEnvelope (Namespaces e) (Some (decodeHeader c.2)) (Envelope_Body e)
           else if bool_decide (Local c.1 = "Body")
           then mkEnvelope (Namespaces e) (Envelope_Header e)
                           (Some (storedBody (Namespaces e) c.2))
           else e)
        e cs.

(** A root element with white space, a header, white space and a body, and
    one with a stray [Extra] element in it. *)
Definition tidyContent : list Lexeme :=
  [textToken " "; openTag "env" NamespaceEnvelope "Header";
   closeTag "env" NamespaceEnvelope "Header"; textToken " ";
   openTag "env" NamespaceEnvelope "Body"]
  ++ servicesPayload ++ [closeTag "env" NamespaceEnvelope "Body"].

Definition rootStart : StartElement :=
  mkStart (mkName NamespaceEnvelope "Envelope")
          [mkAttr (mkName "xmlns" "env") NamespaceEnvelope;
           mkAttr (mkName "" "lang") "en";
           mkAttr (mkName "XMLNS" "env") NamespaceDevice].

(** *** Traces of [Do] *)

Definition isModeChange (ev : Event) : bool :=
  match ev with EvAuthMode _ _ => true | _ => false end.

(** The request [Do] builds from [r]: a POST to [r.URL] of the XML header
    followed by the envelope with [r]'s namespaces, a header and [r]'s
    payload. *)
Definition requestOf (r : Request) (req : HTTPRequest) : Prop :=
  Method req = "POST" /\ HTTPRequest_URL req = URL r
  /\ ContentType req = "application/soap+xml"
  /\ exists order s buf,
       Request_Body r = Some buf
       /\ Payload req
          = IRaw (bytes_of_string xmlHeader)
            :: Encode order (mkEnvelope (Request_Namespaces r) (Some (mkHeader s))
                                        (Some (mkBody None buf))).

(** The conditions under which [Do] returns before [c.HTTPClient.Do]: the
    request body cannot be marshalled, [http.NewRequest] rejects the URL,
    or, with credentials, the mode is none of the three or the random source
    fails in WS-Security mode. *)
Definition cannotPrepare (env : Env) (c : Client) (r : Request) (w : list Event) : Prop :=
  Request_Body r = None \/ urlOK env (URL r) = false
  \/ (credentials c = true
      /\ ((AuthMode c <> AuthModeNone /\ AuthMode c <> AuthModeWSSecurity
           /\ AuthMode c <> AuthModeDigest)
          \/ (AuthMode c = AuthModeWSSecurity /\ randRead env (length w) = None))).

(** ** service.go: the service list *)
Module service.

(** ONVIF namespaces (service.go, lines 12-41), those [GetCapabilities]
    names; [NamespaceDevice] is defined above. *)
Definition NamespaceEvents := "http://www.onvif.org/ver10/events/wsdl".
Definition NamespaceAnalyticsDevice := "http://www.onvif.org/ver10/analyticsdevice/wsdl".
Definition NamespaceDeviceIO := "http://www.onvif.org/ver10/deviceIO/wsdl".
Definition NamespaceDisplay := "http://www.onvif.org/ver10/display/wsdl".
Definition NamespaceImaging := "http://www.onvif.org/ver20/imaging/wsdl".
Definition NamespaceMedia := "http://www.onvif.org/ver10/media/wsdl".
Definition NamespacePTZ := "http://www.onvif.org/ver20/ptz/wsdl".
Definition NamespaceReceiver := "http://www.onvif.org/ver10/receiver/wsdl".
Definition NamespaceRecording := "http://www.onvif.org/ver10/recording/wsdl".
Definition NamespaceReplay := "http://www.onvif.org/ver10/replay/wsdl".
Definition NamespaceSearch := "http://www.onvif.org/ver10/search/wsdl".

Record Service := mkService {
  Namespace : string;
  Service_URL : string;
  VersionMajor : Z;
  VersionMinor : Z
}.

(** [type Services []*Service]: an element may be a nil pointer. *)
Definition Services := list (option Service).

(** [func (s Services) URL(namespace string) string]; [None] is the nil
    dereference of [svc.Namespace] on a nil element. *)
Fixpoint URL (s : Services) (namespace : string) : option string :=
  match s with
  | [] => Some ""
  | None :: _ => None
  | Some svc :: s' =>
      if bool_decide (Namespace svc = namespace) then Some (Service_URL svc)
      else URL s' namespace
  end.

Record GetCapabilitiesResponse := mkGetCapabilitiesResponse {
  DeviceURL : string;
  EventsURL : string;
  ImagingURL : string;
  MediaURL : string;
  PTZURL : string;
  DeviceIOURL : string;
  DisplayURL : string;
  RecordingURL : string;
  SearchURL : string;
  ReplayURL : string;
  ReceiverURL : string;
  AnalyticsDeviceURL : string
}.

(** One of the twelve statements of lines 149-184:
    [if url := ...; url != "" { services = append(services, &Service{...}) }] *)
Definition appendService (services : Services) (namespace url : string) : Services :=
  if bool_decide (url = "") then services
  else services ++ [Some (mkService namespace url 0 0)].

(** The list [GetCapabilities] returns for a decoded response (lines
    148-186). *)
Definition capabilityServices (cap : GetCapabilitiesResponse) : Services :=
  let services := [] in
  let services := appendService services NamespaceDevice (DeviceURL cap) in
  let services := appendService services NamespaceEvents (EventsURL cap) in
  let services := appendService services NamespaceImaging (ImagingURL cap) in
  let services := appendService services NamespaceMedia (MediaURL cap) in
  let services := appendService services NamespacePTZ (PTZURL cap) in
  let services := appendService services NamespaceDeviceIO (DeviceIOURL cap) in
  let services := appendService services NamespaceDisplay (DisplayURL cap) in
  let services := appendService services NamespaceRecording (RecordingURL cap) in
  let services := appendService services NamespaceSearch (SearchURL cap) in
  let services := appendService services NamespaceReplay (ReplayURL cap) in
  let services := appendService services NamespaceReceiver (ReceiverURL cap) in
  let services := appendService services NamespaceAnalyticsDevice (AnalyticsDeviceURL cap) in
  services.

(** [strings.Contains] *)
Fixpoint Contains (s substr : string) : bool :=
  String.prefix substr s
  || match s with
     | EmptyString => false
     | String _ r => Contains r substr
     end.

(** How [GetServices] and [GetCapabilities] end: [return services, nil],
    [return nil, err], or a nil dereference. *)
Inductive Result :=
| Ok (services : Services)
| Err (err : error)
| Crash.

(** [fmt.Sprintf("http://%s/onvif/device_service", addr)] *)
Definition deviceURL (addr : string) : string := "http://" +:+ addr +:+ "/onvif/device_service".

(** What [xml.Marshal] writes for [&GetServices{IncludeCapability: false}]
    and for [&GetCapabilities{Category: "All"}], by the field tags of lines
    44-47 and 109-112. *)
Definition getServicesBody : list byte :=
  bytes_of_string
    "<tds:GetServices><tds:IncludeCapability>false</tds:IncludeCapability></tds:GetServices>".
Definition getCapabilitiesBody : list byte :=
  bytes_of_string
    "<tds:GetCapabilities><tds:Category>All</tds:Category></tds:GetCapabilities>".

Definition getServicesRequest (addr : string) : Request :=
  mkRequest (deviceURL addr) {[ "tds" := NamespaceDevice ]} (Some getServicesBody).
Definition getCapabilitiesRequest (addr : string) : Request :=
  mkRequest (deviceURL addr) {[ "tds" := NamespaceDevice ]} (Some getCapabilitiesBody).

Section Calls.

(** The library functions the two methods rely on: [strings.ToLower], and
    what [xml.NewDecoder(...).Decode] stores in a [GetServicesResponse]
    (its [Service] field) and in a [GetCapabilitiesResponse]. *)
Variable strings_ToLower : string -> string.
Variable decodeServices : list byte -> error + Services.
Variable decodeCapabilities : list byte -> error + GetCapabilitiesResponse.

(** [func (c *Client) GetCapabilities(addr string) (Services, error)]
    (lines 132-187); [fuel] is handed to [Do]. *)
Definition GetCapabilities (fuel : nat) (env : Env) (c : Client) (addr : string)
    (w : list Event) : option (Client * list Event * Result) :=
  match Do fuel env c (getCapabilitiesRequest addr) w with
  | None => None
  | Some (c, w, Fail err) => Some (c, w, Err (Errorf "could not complete operation" err))
  | Some (c, w, Panic) => Some (c, w, Crash)
  | Some (c, w, Return e) =>
      match Envelope_Body e with
      | None => Some (c, w, Crash)
      | Some b =>
          match Unmarshal decodeCapabilities b with
          | inl err => Some (c, w, Err (Errorf "could not unmarshal response" err))
          | inr cap => Some (c, w, Ok (capabilityServices cap))
          end
      end
  end.

(** The test of line 88 on the reason of a fault. *)
Definition notImplemented (f : Fault) : bool :=
  Contains (strings_ToLower (Reason f)) "unknown action"
  || Contains (strings_ToLower (Reason f)) "not implemented".

(** [func (c *Client) GetServices(addr string) (Services, error)] (lines
    78-106). The type assertion of line 87 holds for the fault [Do] returns as it
    is, not for one wrapped in another error. *)
Definition GetServices (fuel : nat) (env : Env) (c : Client) (addr : string)
    (w : list Event) : option (Client * list Event * Result) :=
  match Do fuel env c (getServicesRequest addr) w with
  | None => None
  | Some (c, w, Fail err) =>
      (* if GetServices isn't implemented, try GetCapabilities *)
      match err with
      | FaultError f =>
          if notImplemented f then
            match GetCapabilities fuel env c addr w with
            | None => None
            | Some (c, w, Err err) =>
                Some (c, w,
                      Err (Errorf "could not get services via GetServices or GetCapabilities"
                                  err))
            | Some (c, w, res) => Some (c, w, res)
            end
          else Some (c, w, Err (Errorf "could not complete operation" err))
      | _ => Some (c, w, Err (Errorf "could not complete operation" err))
      end
  | Some (c, w, Panic) => Some (c, w, Crash)
  | Some (c, w, Return e) =>
      match Envelope_Body e with
      | None => Some (c, w, Crash)
      | Some b =>
          match Unmarshal decodeServices b with
          | inl err => Some (c, w, Err (Errorf "could not unmarshal response" err))
          | inr services => Some (c, w, Ok services)
          end
      end
  end.

End Calls.

End service.

(** The namespaces and fields [GetCapabilities] pairs up, in its order. *)
Definition capabilityFields (cap : service.GetCapabilitiesResponse) : list (string * string) :=
  [(NamespaceDevice, service.DeviceURL cap);
   (service.NamespaceEvents, service.EventsURL cap);
   (service.NamespaceImaging, service.ImagingURL cap);
   (service.NamespaceMedia, service.MediaURL cap);
   (service.NamespacePTZ, service.PTZURL cap);
   (service.NamespaceDeviceIO, service.DeviceIOURL cap);
   (service.NamespaceDisplay, service.DisplayURL cap);
   (service.NamespaceRecording, service.RecordingURL cap);
   (service.NamespaceSearch, service.SearchURL cap);
   (service.NamespaceReplay, service.ReplayURL cap);
   (service.NamespaceReceiver, service.ReceiverURL cap);
   (service.NamespaceAnalyticsDevice, service.AnalyticsDeviceURL cap)].

(** The entry a field contributes to the list. *)
Definition serviceEntry (kv : string * string) : service.Services :=
  service.appendService [] kv.1 kv.2.

(** The first element of [s] for [namespace], when no element before it is
    nil. *)
Fixpoint firstService (s : service.Services) (namespace : string) : option service.Service :=
  match s with
  | Some svc :: s' =>
      if bool_decide (service.Namespace svc = namespace) then Some svc
      else firstService s' namespace
  | _ => None
  end.


(** A device without [GetServices]: it answers with a fault whose reason is
    [Action Not Implemented], and then with an envelope that has a payload.
    A decoder that reads one media service out of any payload stands for
    the XML decoder. *)
Definition notImplementedTokens : Decoder :=
  [mkLexeme (TokStartElement (mkStart (mkName NamespaceEnvelope "Envelope")
               [mkAttr (mkName "xmlns" "env") NamespaceEnvelope]))
            (bytes_of_string ("<env:Envelope xmlns:env=" +:+ quote +:+ NamespaceEnvelope
                              +:+ quote +:+ ">"));
   openTag "env" NamespaceEnvelope "Body";
   openTag "env" NamespaceEnvelope "Fault";
   openTag "env" NamespaceEnvelope "Code";
   openTag "env" NamespaceEnvelope "Value"; textToken "env:Receiver";
   closeTag "env" NamespaceEnvelope "Value";
   closeTag "env" NamespaceEnvelope "Code";
   openTag "env" NamespaceEnvelope "Reason";
   openTag "env" NamespaceEnvelope "Text"; textToken "Action Not Implemented";
   closeTag "env" NamespaceEnvelope "Text";
   closeTag "env" NamespaceEnvelope "Reason";
   closeTag "env" NamespaceEnvelope "Fault";
   closeTag "env" NamespaceEnvelope "Body";
   closeTag "env" NamespaceEnvelope "Envelope"].

Definition responseNotImplemented : Response :=
  mkResponse 500 "500 Internal Server Error" notImplementedTokens false.
Definition responsePayload : Response := mkResponse 200 "200 OK" servicesTokens false.

Definition mediaOnly : service.GetCapabilitiesResponse :=
  service.mkGetCapabilitiesResponse "" "" "" "http://192.168.0.64/onvif/media" "" "" "" "" ""
                                    "" "" "".

(** ** client.go: the client without authentication modes *)
Module client.

Record Client := mkClient {
  Client_Username : string;
  Client_Password : string;
  HTTPClient : option RoundTripper;
  Debug : bool
}.

(** [c.Username != "" && c.Password != ""] *)
Definition credentials (c : Client) : bool :=
  negb (bool_decide (Client_Username c = "")) && negb (bool_decide (Client_Password c = "")).

(** The first half of [Do] (client.go, lines 40-79): the security header,
    the request body, the envelope, and the request [client.Post] builds,
    which fails on a URL that [http.NewRequest] rejects; a nil
    [HTTPClient] stands for [http.DefaultClient]. *)
Definition prepare (env : Env) (c : Client) (r : Request) (w : list Event)
  : error + HTTPRequest :=
  let auth : error + option Security :=
    if credentials c then
      match NewSecurity (randRead env (length w)) (now env (length w))
                        (Client_Username c) (Client_Password c) with
      | inl err => inl (Errorf "could not create security header" err)
      | inr s => inr (Some s)
      end
    else inr None in
  match auth with
  | inl err => inl err
  | inr s =>
    match Request_Body r with
    | None => inl (Errorf "could not marshal request" ExternalError)
    | Some buf =>
      let envelope := mkEnvelope (Request_Namespaces r) (Some (mkHeader s))
                                 (Some (mkBody None buf)) in
      let buf2 := IRaw (bytes_of_string xmlHeader)
                  :: Encode (marshalOrder env (length w) (Request_Namespaces r)) envelope in
      let client := default TransportNil (HTTPClient c) in
      if negb (urlOK env (onvif.URL r))
      then inl (Errorf "could not POST request" ExternalError)
      else inr (mkHTTPRequest "POST" (onvif.URL r) "application/soap+xml" buf2 client)
    end
  end.

Section Do.

(** [strings.ToLower] *)
Variable strings_ToLower : string -> string.

(** The method [Do] of [Client] (client.go, lines 39-111), on the trace
    [w]: the trace as the call leaves it and the outcome. With [Debug] the
    response body is read to its end first, and an error of that read is
    returned (lines 85-92). The result is [None] only if [Decode] gives
    none. *)
Definition Do (env : Env) (c : Client) (r : Request) (w : list Event)
  : option (list Event * Outcome) :=
  match prepare env c r w with
  | inl err => Some (w, Fail err)
  | inr httpReq =>
    let w := EvSend httpReq :: w in
    match transport env (sentRequests w) with
    | None => Some (w, Fail (Errorf "could not POST request" ExternalError))
    | Some soapResp =>
      if Debug c && BodyErr soapResp
      then Some (w, Fail (Errorf "could not read response body" ExternalError))
      else
      match Decode (Response_Body soapResp) with
      | None => None
      | Some (_, Some err) =>
          (* if body can't be parsed, make sure device didn't send HTTP 401 *)
          if (StatusCode soapResp =? 401)%Z
          then Some (w, Fail (UnauthorizedError (ErrorsNew (Status soapResp))))
          else Some (w, Fail (Errorf "could not decode response" err))
      | Some (envelope, None) =>
        match Envelope_Body envelope with
        | None => Some (w, Panic)
        | Some b =>
          match Body_Fault b with
          | Some fault =>
              if bool_decide (strings_ToLower (Reason fault) = "sender not authorized")
              then Some (w, Fail (UnauthorizedError (FaultError fault)))
              else Some (w, Fail (FaultError fault))
          | None => Some (w, Return envelope)
          end
        end
      end
    end
  end.

End Do.

End client.

(** The environment whose answers carry another status: [g] gives the
    status code and line of each answer; the bodies are the same. *)
Definition withStatus (g : Response -> Z * string) (env : Env) : Env :=
  mkEnv (fun reqs =>
           (fun resp => mkResponse (g resp).1 (g resp).2 (Response_Body resp) (BodyErr resp))
             <$> transport env reqs)
        (randRead env) (now env) (marshalOrder env) (faultOrder env) (urlOK env).
(** * Properties *)

(** ** Map iteration *)

Lemma RangeOrder_elem m order p u :
  RangeOrder m order -> ((p, u) ∈ order <-> m !! p = Some u).
Proof.
  unfold RangeOrder. intros H. rewrite H. apply elem_of_map_to_list.
Qed.

Lemma RangeOrder_canonical m : RangeOrder m (map_to_list m).
Proof. unfold RangeOrder. reflexivity. Qed.

(** ** The fault classifier *)
Section Classifier.

Lemma NamespaceEnvelope_ne_ONVIFError : NamespaceEnvelope <> NamespaceONVIFError.
Proof. discriminate. Qed.

(** The envelope prefix after the loop: that of some visited entry bound
    to the envelope namespace, or the initial one when there is none. *)
Lemma prefixStep_soap acc k v :
  (prefixStep acc (k, v)).1 = if bool_decide (v = NamespaceEnvelope) then k +:+ ":" else acc.1.
Proof. unfold prefixStep; simpl. by repeat case_bool_decide. Qed.

Lemma prefixStep_err acc k v :
  (prefixStep acc (k, v)).2
  = if bool_decide (v = NamespaceONVIFError) then k +:+ ":" else acc.2.
Proof.
  unfold prefixStep; simpl. repeat case_bool_decide; try reflexivity.
  subst. by destruct NamespaceEnvelope_ne_ONVIFError.
Qed.

Lemma prefix_loop_soap order acc :
  (exists p, (p, NamespaceEnvelope) ∈ order /\ (foldl prefixStep acc order).1 = p +:+ ":")
  \/ ((forall p, (p, NamespaceEnvelope) ∉ order) /\ (foldl prefixStep acc order).1 = acc.1).
Proof.
  revert acc. induction order as [|[k v] order IH]; intros acc; simpl.
  - right. split; [intros p Hp; inversion Hp | reflexivity].
  - destruct (IH (prefixStep acc (k, v))) as [(p & Hp & Heq) | [Hnone Heq]].
    + left. exists p. split; [by apply list_elem_of_further | exact Heq].
    + rewrite prefixStep_soap in Heq. case_bool_decide as Hv.
      * subst v. left. exists k. split; [apply list_elem_of_here | exact Heq].
      * right. split; [|exact Heq].
        intros p Hp. apply elem_of_cons in Hp as [Hp | Hp]; [congruence | by apply (Hnone p)].
Qed.

Lemma prefix_loop_err order acc :
  (exists p, (p, NamespaceONVIFError) ∈ order /\ (foldl prefixStep acc order).2 = p +:+ ":")
  \/ ((forall p, (p, NamespaceONVIFError) ∉ order) /\ (foldl prefixStep acc order).2 = acc.2).
Proof.
  revert acc. induction order as [|[k v] order IH]; intros acc; simpl.
  - right. split; [intros p Hp; inversion Hp | reflexivity].
  - destruct (IH (prefixStep acc (k, v))) as [(p & Hp & Heq) | [Hnone Heq]].
    + left. exists p. split; [by apply list_elem_of_further | exact Heq].
    + rewrite prefixStep_err in Heq. case_bool_decide as Hv.
      * subst v. left. exists k. split; [apply list_elem_of_here | exact Heq].
      * right. split; [|exact Heq].
        intros p Hp. apply elem_of_cons in Hp as [Hp | Hp]; [congruence | by apply (Hnone p)].
Qed.

(** The prefixes the loop ends with are resolved from the table. *)
Lemma prefix_loop_resolves N order :
  RangeOrder N order ->
  resolves N NamespaceEnvelope (foldl prefixStep ("", "") order).1
  /\ resolves N NamespaceONVIFError (foldl prefixStep ("", "") order).2.
Proof.
  intros HN. split.
  - destruct (prefix_loop_soap order ("", "")) as [(p & Hp & Heq) | [Hnone Heq]].
    + left. exists p. split; [by apply (RangeOrder_elem _ _ _ _ HN) | exact Heq].
    + right. split; [|exact Heq]. intros p Hp. apply (Hnone p).
      by apply (RangeOrder_elem _ _ _ _ HN).
  - destruct (prefix_loop_err order ("", "")) as [(p & Hp & Heq) | [Hnone Heq]].
    + left. exists p. split; [by apply (RangeOrder_elem _ _ _ _ HN) | exact Heq].
    + right. split; [|exact Heq]. intros p Hp. apply (Hnone p).
      by apply (RangeOrder_elem _ _ _ _ HN).
Qed.

Lemma resolves_unique N uri P P' :
  singlePrefix N uri -> resolves N uri P -> resolves N uri P' -> P = P'.
Proof.
  intros Hs [(p & Hp & ->) | [Hn ->]] [(q & Hq & ->) | [Hn' ->]]; try reflexivity.
  - by rewrite (Hs p q Hp Hq).
  - by destruct (Hn' p).
  - by destruct (Hn q).
Qed.

End Classifier.

(** C1, as the spec states it, fails: with an empty namespace table the
    classifier compares with the unprefixed names, so the fault with code
    [Sender] and subcode [NotAuthorized] is classified unauthorized although
    neither namespace is bound. *)
Lemma IsUnauthorizedError_unbound_true :
  let f := mkFault ∅ "Sender" "NotAuthorized" "" "" "" [] in
  RangeOrder (Fault_Namespaces f) []
  /\ IsUnauthorizedError [] f = true
  /\ ~ (exists p, Fault_Namespaces f !! p = Some NamespaceEnvelope).
Proof.
  simpl. split; [|split].
  - unfold RangeOrder. by rewrite map_to_list_empty.
  - reflexivity.
  - intros [p Hp]. by rewrite lookup_empty in Hp.
Qed.

(** C1 (amended): for every fault with namespace table [N] and every order
    in which the table is visited, a [true] result means that [Code] is
    [P ++ "Sender"] and [SubCode] is [Q ++ "NotAuthorized"] for prefixes [P]
    and [Q] resolved from [N] for the envelope and the ONVIF error namespace
    (a bound prefix followed by a colon, or the empty string when the
    namespace is not bound); and when [N] binds at most one prefix to each
    of the two namespaces the converse holds as well. *)
Theorem IsUnauthorizedError_resolved (f : Fault) (order : list (string * string)) :
  RangeOrder (Fault_Namespaces f) order ->
  (IsUnauthorizedError order f = true ->
   exists P Q,
     resolves (Fault_Namespaces f) NamespaceEnvelope P
     /\ resolves (Fault_Namespaces f) NamespaceONVIFError Q
     /\ Code f = P +:+ "Sender" /\ SubCode f = Q +:+ "NotAuthorized")
  /\ (singlePrefix (Fault_Namespaces f) NamespaceEnvelope ->
      singlePrefix (Fault_Namespaces f) NamespaceONVIFError ->
      forall P Q,
        resolves (Fault_Namespaces f) NamespaceEnvelope P ->
        resolves (Fault_Namespaces f) NamespaceONVIFError Q ->
        Code f = P +:+ "Sender" -> SubCode f = Q +:+ "NotAuthorized" ->
        IsUnauthorizedError order f = true).
Proof.
  intros HN. destruct (prefix_loop_resolves _ _ HN) as [Hs He].
  unfold IsUnauthorizedError. split.
  - intros H. apply andb_true_iff in H as [H1 H2].
    apply bool_decide_eq_true in H1, H2. eauto 10.
  - intros Us Ue P Q HP HQ HC HS.
    rewrite (resolves_unique _ _ _ _ Us Hs HP), (resolves_unique _ _ _ _ Ue He HQ).
    apply andb_true_iff. split; by apply bool_decide_eq_true.
Qed.

Lemma IsUnauthorizedError_resolved_witness :
  RangeOrder (Fault_Namespaces exampleFault) (map_to_list (Fault_Namespaces exampleFault))
  /\ (IsUnauthorizedError (map_to_list (Fault_Namespaces exampleFault)) exampleFault = true ->
      exists P Q,
        resolves (Fault_Namespaces exampleFault) NamespaceEnvelope P
        /\ resolves (Fault_Namespaces exampleFault) NamespaceONVIFError Q
        /\ Code exampleFault = P +:+ "Sender" /\ SubCode exampleFault = Q +:+ "NotAuthorized").
Proof.
  split.
  - apply RangeOrder_canonical.
  - apply (IsUnauthorizedError_resolved exampleFault
             (map_to_list (Fault_Namespaces exampleFault))).
    apply RangeOrder_canonical.
Defined.

(** ** Reading elements off the token stream *)
Section Elements.

Lemma readElement_length depth d inner rest :
  readElement depth d = Some (inner, rest) -> (length rest < length d)%nat.
Proof.
  revert depth inner rest. induction d as [|l d IH]; intros depth inner rest; simpl.
  - discriminate.
  - destruct (tok l); try destruct depth as [|k];
      try (intros [= <- <-]; simpl; lia);
      match goal with
      | |- context [readElement ?k d] =>
          destruct (readElement k d) as [[i r]|] eqn:E; [|discriminate];
          intros [= <- <-]; apply IH in E; simpl; lia
      end.
Qed.

(** A run of tokens that closes nothing of what is open before it is read
    as part of the current element. *)
Lemma readElement_app ls : forall depth m more,
  nesting ls depth = Some m ->
  readElement depth (ls ++ more)
  = match readElement m more with
    | Some (inner, rest) => Some (ls ++ inner, rest)
    | None => None
    end.
Proof.
  induction ls as [|l ls IH]; intros depth m more; simpl.
  - intros [= ->]. by destruct (readElement m more) as [[i r]|].
  - destruct (tok l); try destruct depth as [|k]; try discriminate; intros H;
      rewrite (IH _ _ more H); by destruct (readElement m more) as [[i r]|].
Qed.

(** The content of an element is what stands before its end element. *)
Lemma readElement_wellNested ls l rest :
  nesting ls 0 = Some 0%nat -> (exists n, tok l = TokEndElement n) ->
  readElement 0 (ls ++ l :: rest) = Some (ls, rest).
Proof.
  intros H [n Hn]. rewrite (readElement_app _ _ _ _ H). simpl. rewrite Hn.
  by rewrite app_nil_r.
Qed.

(** In a run that closes [S (j + k)] open elements, the element open at
    relative depth [j] ends, and what follows closes the other [k]. *)
Lemma readElement_close ls : forall j k,
  nesting ls (S (j + k)) = Some 0%nat ->
  exists content tail,
    (forall more, readElement j (ls ++ more) = Some (content, tail ++ more))
    /\ nesting tail k = Some 0%nat.
Proof.
  induction ls as [|l ls IH]; intros j k; simpl.
  - discriminate.
  - destruct (tok l) eqn:Htok.
    + intros H. destruct (IH (S j) k H) as (content & tail & Hr & Ht).
      exists (l :: content), tail. split; [|exact Ht].
      intros more. by rewrite Hr.
    + intros H. destruct j as [|j].
      * exists [], ls. split; [reflexivity | exact H].
      * destruct (IH j k H) as (content & tail & Hr & Ht).
        exists (l :: content), tail. split; [|exact Ht].
        intros more. by rewrite Hr.
    + intros H. destruct (IH j k H) as (content & tail & Hr & Ht).
      exists (l :: content), tail. split; [|exact Ht]. intros more. by rewrite Hr.
    + intros H. destruct (IH j k H) as (content & tail & Hr & Ht).
      exists (l :: content), tail. split; [|exact Ht]. intros more. by rewrite Hr.
    + intros H. destruct (IH j k H) as (content & tail & Hr & Ht).
      exists (l :: content), tail. split; [|exact Ht]. intros more. by rewrite Hr.
    + intros H. destruct (IH j k H) as (content & tail & Hr & Ht).
      exists (l :: content), tail. split; [|exact Ht]. intros more. by rewrite Hr.
Qed.

(** [children] does not depend on its fuel once there is enough of it. *)
Lemma children_fuel fuel : forall ls,
  (length ls <= fuel)%nat -> children fuel ls = children (length ls) ls.
Proof.
  induction fuel as [fuel IH] using lt_wf_ind. intros ls Hlen.
  destruct ls as [|l ls]; [by destruct fuel|].
  destruct fuel as [|fuel]; [simpl in Hlen; lia|]. simpl in *.
  destruct (tok l); try (rewrite (IH fuel); [reflexivity | lia | lia]).
  destruct (readElement 0 ls) as [[inner rest]|] eqn:E; [|reflexivity].
  apply readElement_length in E. f_equal.
  rewrite (IH fuel), (IH (length ls)); try reflexivity; lia.
Qed.

Lemma childElements_start l t ls content tail :
  tok l = TokStartElement t ->
  readElement 0 ls = Some (content, tail) ->
  childElements (l :: ls) = (StartName t, content) :: childElements tail.
Proof.
  intros Hl Hr. unfold childElements. simpl. rewrite Hl, Hr. f_equal.
  apply children_fuel. apply readElement_length in Hr. lia.
Qed.

Lemma childElements_skip l ls :
  (forall t, tok l <> TokStartElement t) ->
  childElements (l :: ls) = childElements ls.
Proof.
  intros Hl. unfold childElements. simpl. destruct (tok l); try reflexivity.
  by destruct (Hl t).
Qed.

End Elements.

(** ** Decoding an envelope *)
Section Decoding.

(** The token loop ends, and leaves a body in the envelope if there was
    one. *)
Lemma tokenLoop_returns fuel : forall e d,
  (length d < fuel)%nat ->
  exists e' d' err,
    tokenLoop fuel e d = Some (e', d', err)
    /\ (Envelope_Body e <> None -> Envelope_Body e' <> None).
Proof.
  induction fuel as [|fuel IH]; intros e d Hlen; [lia|].
  simpl. destruct d as [|l d]; simpl; [by eauto 10|].
  simpl in Hlen. destruct (tok l) eqn:Htok; try (by eauto 10).
  - case_bool_decide.
    { destruct (readElement 0 d) as [[inner d2]|] eqn:E; [|by eauto 10].
      apply readElement_length in E.
      destruct (IH (mkEnvelope (Namespaces e) (Some (decodeHeader inner)) (Envelope_Body e)) d2)
        as (e' & d' & err & -> & Hb); [lia|]. eauto 10. }
    case_bool_decide; [|by eauto 10].
    destruct (readElement 0 d) as [[inner d2]|] eqn:E; [|by eauto 10].
    apply readElement_length in E.
    match goal with
    | |- context [tokenLoop fuel ?e1 d2] =>
        destruct (IH e1 d2) as (e' & d' & err & -> & Hb); [lia|]
    end.
    exists e', d', err. split; [reflexivity|]. intros _. by apply Hb.
  - destruct (allSpace data); [|by eauto 10].
    destruct (IH e d) as (e' & d' & err & -> & Hb); [lia|]. eauto 10.
Qed.

Lemma UnmarshalXML_returns e d start :
  exists e' d' err,
    UnmarshalXML e d start = Some (e', d', err) /\ Envelope_Body e' <> None.
Proof.
  unfold UnmarshalXML.
  match goal with
  | |- context [tokenLoop ?f ?e1 d] =>
      destruct (tokenLoop_returns f e1 d) as (e' & d' & err & -> & Hb); [lia|]
  end.
  exists e', d', err. split; [reflexivity|]. apply Hb. simpl.
  by destruct (Envelope_Body e).
Qed.

Lemma Decode_returns d :
  exists e err, Decode d = Some (e, err) /\ (err = None -> Envelope_Body e <> None).
Proof.
  induction d as [|l d IH]; simpl.
  - eexists _, _. split; [reflexivity | discriminate].
  - destruct (tok l); try exact IH.
    destruct (UnmarshalXML_returns newEnvelope d t) as (e' & d' & err & -> & Hb).
    eauto.
Qed.


End Decoding.




(** ** Encoding an envelope *)
Section Encoding.







End Encoding.



(** ** Decoding what was encoded *)
Section RoundTrip.

Lemma nsname_xmlns p : plainPrefix p -> nsname ("xmlns:" +:+ p) = mkName "xmlns" p.
Proof.
  intros [Hne Hc]. unfold nsname. simpl. change ("" +:+ p) with p. rewrite Hc. simpl.
  by rewrite bool_decide_eq_false_2.
Qed.

Lemma collectNamespaces_nsAttr order : forall m,
  Forall (fun kv => plainPrefix kv.1) order ->
  collectNamespaces m (readAttr <$> (nsAttr <$> order))
  = foldl (fun (m : gmap string string) kv => <[kv.1 := kv.2]> m) m order.
Proof.
  unfold collectNamespaces.
  induction order as [|kv order IH]; intros m Hall; [reflexivity|].
  inversion Hall as [|? ? Hkv Hrest]; subst. simpl.
  rewrite (nsname_xmlns _ Hkv). simpl. by apply IH.
Qed.

Lemma foldl_insert_union (order : list (string * string)) : forall m : gmap string string,
  NoDup order.*1 ->
  foldl (fun (m : gmap string string) kv => <[kv.1 := kv.2]> m) m order
  = list_to_map order ∪ m.
Proof.
  induction order as [|[k v] order IH]; intros m Hnd; simpl.
  - by rewrite (left_id_L ∅ (∪)).
  - inversion Hnd as [|? ? Hk Hnd']; subst. rewrite (IH _ Hnd').
    rewrite <- insert_union_l. symmetry. apply insert_union_r.
    by apply not_elem_of_list_to_map_1.
Qed.

Lemma RangeOrder_list_to_map (N : gmap string string) order :
  RangeOrder N order -> NoDup order.*1 /\ list_to_map order = N.
Proof.
  unfold RangeOrder. intros H. split.
  - rewrite H. apply NoDup_fst_map_to_list.
  - rewrite <- (list_to_map_to_list N). apply list_to_map_proper; [|exact H].
    rewrite H. apply NoDup_fst_map_to_list.
Qed.

(** The namespace table collected from the attributes [MarshalXML] wrote. *)
Lemma collectNamespaces_Encode (N : gmap string string) order :
  RangeOrder N order ->
  (forall p u, N !! p = Some u -> plainPrefix p) ->
  collectNamespaces ∅ (readAttr <$> ([mkAttr (plain "xmlns:env") NamespaceEnvelope]
                                      ++ (nsAttr <$> order)))
  = N ∪ {[ "env" := NamespaceEnvelope ]}.
Proof.
  intros HN Hp. destruct (RangeOrder_list_to_map _ _ HN) as [Hnd Heq].
  change (collectNamespaces (<["env" := NamespaceEnvelope]> ∅) (readAttr <$> (nsAttr <$> order))
          = N ∪ {[ "env" := NamespaceEnvelope ]}).
  rewrite collectNamespaces_nsAttr.
  - rewrite (foldl_insert_union _ _ Hnd), Heq. by rewrite insert_empty.
  - apply Forall_forall. intros [p u] Hin. apply (Hp p u).
    by apply (RangeOrder_elem _ _ _ _ HN).
Qed.

Lemma nesting_shift ls : forall j m k,
  nesting ls j = Some m -> nesting ls (j + k) = Some (m + k)%nat.
Proof.
  induction ls as [|l ls IH]; intros j m k; simpl.
  - by intros [= ->].
  - destruct (tok l); try destruct j as [|j]; try discriminate; intros H;
      exact (IH _ _ k H).
Qed.

Lemma nesting_app ls ls' : forall j m,
  nesting ls j = Some m -> nesting (ls ++ ls') j = nesting ls' m.
Proof.
  induction ls as [|l ls IH]; intros j m; simpl.
  - by intros [= ->].
  - destruct (tok l); try destruct j as [|j]; try discriminate; apply IH.
Qed.

(** A run of written tokens that is closed in itself is read as a run of
    tokens that is. *)
Lemma reads_nesting its ts :
  reads its ts -> forall j m, itemNesting its j = Some m -> nesting ts j = Some m.
Proof.
  induction 1 as [|t sp src its ts _ _ _ _ IH|n sp src its ts _ _ _ IH|its ts _ IH
                  |s src its ts _ _ _ IH|b ls its ts _ Hn _ IH];
    intros j m; simpl.
  - done.
  - apply IH.
  - destruct j; [discriminate | apply IH].
  - apply IH.
  - apply IH.
  - intros H. rewrite (nesting_app ls ts j j); [by apply IH|].
    apply (nesting_shift ls 0 0 j Hn).
Qed.

Lemma reads_app_inv its1 : forall its2 ts,
  reads (its1 ++ its2) ts ->
  exists ts1 ts2, ts = ts1 ++ ts2 /\ reads its1 ts1 /\ reads its2 ts2.
Proof.
  induction its1 as [|it its1 IH]; intros its2 ts H; simpl in H.
  - exists [], ts. split; [reflexivity | split; [constructor | exact H]].
  - inversion H; subst;
      match goal with
      | Hr : reads (its1 ++ its2) _ |- _ =>
          destruct (IH _ _ Hr) as (ts1 & ts2 & -> & Ha & Hb)
      end.
    + eexists (_ :: ts1), ts2. split; [reflexivity | split; [by constructor | exact Hb]].
    + eexists (_ :: ts1), ts2. split; [reflexivity | split; [by constructor | exact Hb]].
    + exists ts1, ts2. split; [reflexivity | split; [by constructor | exact Hb]].
    + eexists (_ :: ts1), ts2. split; [reflexivity | split; [by constructor | exact Hb]].
    + eexists (_ ++ ts1), ts2. split; [by rewrite app_assoc | split; [by constructor | exact Hb]].
Qed.

Lemma itemNesting_Security s start : itemNesting (Security_MarshalXML s start) 0 = Some 0%nat.
Proof.
  unfold Security_MarshalXML, encodeUsernameToken.
  destruct (Security_UsernameToken s) as [t|]; [|reflexivity].
  by destruct (UsernameToken_Password t), (UsernameToken_Nonce t).
Qed.

(** More fuel does not change what the token loop returns. *)
Lemma tokenLoop_fuel_mono fuel : forall fuel' e d r,
  (fuel <= fuel')%nat -> tokenLoop fuel e d = Some r -> tokenLoop fuel' e d = Some r.
Proof.
  induction fuel as [|fuel IH]; intros fuel' e d r Hle; [discriminate|].
  destruct fuel' as [|fuel']; [lia|]. simpl.
  destruct (DecoderToken d) as [[tk d1]|]; [|done].
  destruct tk; try done.
  - repeat case_bool_decide; try done;
      (destruct (readElement 0 d1) as [[inner d2]|]; [|done]); apply IH; lia.
  - destruct (allSpace data); [|done]. apply IH; lia.
Qed.

Lemma tokenLoop_Header fuel e l t d inner d2 :
  tok l = TokStartElement t -> Local (StartName t) = "Header" ->
  readElement 0 d = Some (inner, d2) ->
  tokenLoop (S fuel) e (l :: d)
  = tokenLoop fuel (mkEnvelope (Namespaces e) (Some (decodeHeader inner)) (Envelope_Body e)) d2.
Proof. intros Ht Hl Hr. simpl. rewrite Ht, Hl, Hr. reflexivity. Qed.

Lemma tokenLoop_Body fuel e l t d inner d2 :
  tok l = TokStartElement t -> Local (StartName t) = "Body" ->
  readElement 0 d = Some (inner, d2) ->
  tokenLoop (S fuel) e (l :: d)
  = tokenLoop fuel
      (mkEnvelope (Namespaces e) (Envelope_Header e)
         (Some (mkBody (setFaultNamespaces (Namespaces e) <$> Body_Fault (decodeBody inner))
                       (InnerXML (decodeBody inner))))) d2.
Proof. intros Ht Hl Hr. simpl. rewrite Ht, Hl, Hr. reflexivity. Qed.

End RoundTrip.

Section RoundTripMain.

(** Reading the [Body] element and the end of the root. *)
Lemma tokenLoop_payload fuel e bl t ls l1 l2 n1 n2 :
  tok bl = TokStartElement t -> Local (StartName t) = "Body" ->
  nesting ls 0 = Some 0%nat ->
  tok l1 = TokEndElement n1 -> tok l2 = TokEndElement n2 ->
  exists fault,
    tokenLoop (S (S fuel)) e (bl :: ls ++ [l1; l2])
    = Some (mkEnvelope (Namespaces e) (Envelope_Header e) (Some (mkBody fault (rawBytes ls))),
            [], None).
Proof.
  intros Ht Hl Hn H1 H2.
  rewrite (tokenLoop_Body _ _ _ _ _ ls [l2] Ht Hl).
  - eexists. simpl. rewrite H2. reflexivity.
  - apply readElement_wellNested; eauto.
Qed.

Lemma reads_end_inv n ts :
  reads [IEnd n] ts -> exists l m, ts = [l] /\ tok l = TokEndElement m.
Proof.
  intros H. inversion H as [| |? ? ? ? ? ? ? Hr| | |]; subst.
  inversion Hr; subst. eauto.
Qed.

(** The tokens of an encoded header are read as one [Header] element. *)
Lemma reads_encodeHeader h th :
  reads (encodeHeader h) th ->
  exists hl t inner l n,
    th = hl :: inner ++ [l] /\ tok hl = TokStartElement t
    /\ Local (StartName t) = "Header"
    /\ nesting inner 0 = Some 0%nat /\ tok l = TokEndElement n.
Proof.
  unfold encodeHeader. simpl. intros H.
  inversion H as [|? ? ? ? ? ? ? ? Hr| | | |]; subst.
  apply reads_app_inv in Hr as (tsec & tend & -> & Hsec & Hend).
  apply reads_end_inv in Hend as (l & n & -> & Hl).
  eexists _, _, tsec, l, n. split; [reflexivity|]. split; [reflexivity|].
  split; [reflexivity|]. split; [|exact Hl].
  apply (reads_nesting _ _ Hsec).
  destruct (Header_Security h) as [s|]; [apply itemNesting_Security | reflexivity].
Qed.

End RoundTripMain.

(** C5, as the spec states it, fails: the envelope without any namespace
    binding of its own is encoded with the [xmlns:env] attribute of the
    root element, and decoding collects that binding: the table that comes
    back has one entry, the one that went in has none. *)
Lemma Decode_Encode_adds_env :
  reads (Encode [] bareEnvelope) bareEnvelopeTokens
  /\ RangeOrder (Namespaces bareEnvelope) []
  /\ exists e',
       Decode bareEnvelopeTokens = Some (e', None)
       /\ Namespaces e' = {[ "env" := NamespaceEnvelope ]}
       /\ Namespaces e' <> Namespaces bareEnvelope.
Proof.
  split; [|split].
  - unfold Encode, MarshalXML, bareEnvelope, bareEnvelopeTokens. simpl.
    refine (reads_start (mkStart (plain "env:Envelope")
                                 [mkAttr (plain "xmlns:env") NamespaceEnvelope])
                        NamespaceEnvelope _ _ _ eq_refl eq_refl eq_refl _).
    refine (reads_start (mkStart (plain "env:Body") []) NamespaceEnvelope _ _ _
                        eq_refl eq_refl eq_refl _).
    refine (reads_raw [] [] _ _ eq_refl eq_refl _).
    refine (reads_end (plain "env:Body") NamespaceEnvelope _ _ _ eq_refl eq_refl _).
    refine (reads_end (plain "env:Envelope") NamespaceEnvelope _ _ _ eq_refl eq_refl _).
    constructor.
  - unfold RangeOrder. simpl. by rewrite map_to_list_empty.
  - eexists. split; [reflexivity|]. split; [reflexivity|].
    simpl. intros H. apply (f_equal (fun m : gmap string string => m !! "env")) in H.
    by rewrite lookup_insert_eq, lookup_empty in H.
Qed.

(** C5 (amended): let [e] be an envelope with a [Body] that carries no
    fault, whose namespace prefixes are not empty and hold no colon.
    Whenever the tokenizer reads the encoding of [e] (so the payload is
    well-formed XML content: it spells well-nested tokens), decoding
    succeeds; the namespace table that comes back is that of [e] with the
    binding of [env] to the envelope namespace added (a binding of [env] in
    [e] itself is kept), and the payload bytes of the [Body] are those of
    [e], exactly. *)
Theorem Decode_Encode_roundtrip (order : list (string * string)) (e : Envelope) (b : Body)
    (ts : list Lexeme) :
  RangeOrder (Namespaces e) order ->
  (forall p u, Namespaces e !! p = Some u -> plainPrefix p) ->
  Envelope_Body e = Some b ->
  Body_Fault b = None ->
  reads (Encode order e) ts ->
  exists e' b',
    Decode ts = Some (e', None)
    /\ Namespaces e' = Namespaces e ∪ {[ "env" := NamespaceEnvelope ]}
    /\ Envelope_Body e' = Some b'
    /\ InnerXML b' = InnerXML b.
Proof.
  intros HN Hp Hb Hf H. unfold Encode, MarshalXML in H. rewrite Hb in H.
  unfold encodeBody in H. rewrite Hf in H. simpl in H.
  inversion H as [|? ? ? ? ts1 _ _ _ Hr| | | |]; subst. clear H.
  apply reads_app_inv in Hr as (th & tb & -> & Hh & Hr).
  inversion Hr as [|? ? ? ? tb1 _ _ _ Hr1| | | |]; subst. clear Hr.
  inversion Hr1 as [| | | | |? ls ? tb2 Hraw Hn Hr2]; subst. clear Hr1.
  inversion Hr2 as [| |? ? ? ? tb3 _ _ Hr3| | |]; subst. clear Hr2.
  apply reads_end_inv in Hr3 as (l2 & n2 & -> & Hl2).
  cbn [Decode tok]. unfold UnmarshalXML, newEnvelope.
  cbn [Envelope_Body Envelope_Header Namespaces StartAttr defaultStart app].
  pose proof (collectNamespaces_Encode _ _ HN Hp) as Hns.
  match goal with
  | |- context [collectNamespaces ∅ ?a] =>
      change (collectNamespaces ∅ a)
        with (collectNamespaces ∅
                (readAttr <$> [mkAttr (plain "xmlns:env") NamespaceEnvelope]
                              ++ (nsAttr <$> order)))
  end.
  rewrite Hns. clear Hns.
  match goal with
  | |- context [tokenLoop ?f ?e1 ?d] =>
      assert (3 <= f)%nat as Hfuel
        by (rewrite length_app; simpl; rewrite length_app; simpl; lia);
      cut (exists fault hdr,
              tokenLoop 3 e1 d
              = Some (mkEnvelope (Namespaces e1) hdr (Some (mkBody fault (rawBytes ls))), [], None));
      [ intros (fault & hdr & Hloop);
        rewrite (tokenLoop_fuel_mono 3 f e1 d _ Hfuel Hloop) | clear Hfuel ]
  end.
  - eexists _, _. split; [reflexivity|]. split; [reflexivity|]. split; [reflexivity|].
    exact Hraw.
  - destruct (Envelope_Header e) as [h|].
    + apply reads_encodeHeader in Hh as (hl & t & inner & l & n & -> & Ht & Hl & Hin & Hend).
      simpl app. rewrite <- app_assoc. simpl app.
      rewrite (tokenLoop_Header _ _ _ _ _ inner _ Ht Hl
                 (readElement_wellNested _ _ _ Hin (ex_intro _ n Hend))).
      match goal with
      | |- context [tokenLoop 2 ?e1 (?bl :: ls ++ [?l1; l2])] =>
          destruct (tokenLoop_payload 0 e1 bl _ ls l1 l2 _ n2 eq_refl eq_refl Hn eq_refl Hl2)
            as [fault Hloop]
      end.
      rewrite Hloop. by eexists _, _.
    + inversion Hh; subst. simpl app.
      match goal with
      | |- context [tokenLoop 3 ?e1 (?bl :: ls ++ [?l1; l2])] =>
          destruct (tokenLoop_payload 1 e1 bl _ ls l1 l2 _ n2 eq_refl eq_refl Hn eq_refl Hl2)
            as [fault Hloop]
      end.
      rewrite Hloop. by eexists _, _.
Qed.

Lemma Decode_Encode_roundtrip_witness :
  exists e' b',
    Decode servicesTokens = Some (e', None)
    /\ Namespaces e' = Namespaces servicesEnvelope ∪ {[ "env" := NamespaceEnvelope ]}
    /\ Envelope_Body e' = Some b'
    /\ InnerXML b' = InnerXML servicesBody.
Proof.
  apply (Decode_Encode_roundtrip (map_to_list (Namespaces servicesEnvelope))
           servicesEnvelope servicesBody servicesTokens).
  - apply RangeOrder_canonical.
  - intros p u H. simpl in H. apply lookup_singleton_Some in H as [<- _].
    split; [discriminate | reflexivity].
  - reflexivity.
  - reflexivity.
  - unfold servicesEnvelope. simpl Namespaces. rewrite map_to_list_singleton.
    refine (reads_start (mkStart (plain "env:Envelope")
                                 [mkAttr (plain "xmlns:env") NamespaceEnvelope;
                                  mkAttr (plain "xmlns:tds") NamespaceDevice])
                        NamespaceEnvelope _ _ _ eq_refl eq_refl eq_refl _).
    refine (reads_start (mkStart (plain "env:Header") []) NamespaceEnvelope _ _ _
                        eq_refl eq_refl eq_refl _).
    refine (reads_end (plain "env:Header") NamespaceEnvelope _ _ _ eq_refl eq_refl _).
    refine (reads_start (mkStart (plain "env:Body") []) NamespaceEnvelope _ _ _
                        eq_refl eq_refl eq_refl _).
    refine (reads_raw _ servicesPayload _ _ eq_refl eq_refl _).
    refine (reads_end (plain "env:Body") NamespaceEnvelope _ _ _ eq_refl eq_refl _).
    refine (reads_end (plain "env:Envelope") NamespaceEnvelope _ _ _ eq_refl eq_refl _).
    constructor.
Defined.

(** ** The security token *)
Section SecurityToken.

(** C6: [NewSecurity] fails only when the random source does; otherwise the
    token's password is the base64 form of one SHA-1 digest, taken over the
    nonce, then the timestamp, then the password; the nonce is 16 bytes of
    the random source; the timestamp is the formatted UTC time, in which
    the nanoseconds play no part. For the nonce of 16 zero bytes, the
    timestamp [2024-01-01T00:00:00] and the password [12345] the digest is
    [NLLLgGQjnx/uchsQ67SpbP2lBhs=]. *)
Theorem NewSecurity_digest :
  (forall now username password,
      NewSecurity None now username password
      = inl (Errorf "could not generate nonce" ExternalError))
  /\ (forall src now username password,
         let nonce := src <$> seq 0 16 in
         let created := time.Format now in
         length nonce = 16%nat
         /\ NewSecurity (Some src) now username password
            = inr (mkSecurity (Some (mkUsernameToken
                     username
                     (Some (mkPassword typePassword
                              (base64.EncodeToString
                                 (sha1.digest (nonce ++ bytes_of_string created
                                                     ++ bytes_of_string password)))))
                     (Some (mkNonce typeNonce (base64.EncodeToString nonce)))
                     created))))
  /\ (forall y mo d h mi s ns ns',
         time.Format (time.mkTime y mo d h mi s ns) = time.Format (time.mkTime y mo d h mi s ns'))
  /\ (forall ns username,
         time.Format (newYear2024 ns) = "2024-01-01T00:00:00"
         /\ zeroSource <$> seq 0 16 = repeat x00 16
         /\ exists t,
              NewSecurity (Some zeroSource) (newYear2024 ns) username "12345"
              = inr (mkSecurity (Some t))
              /\ UsernameToken_Password t
                 = Some (mkPassword typePassword "NLLLgGQjnx/uchsQ67SpbP2lBhs=")).
Proof.
  split; [reflexivity|]. split; [|split].
  - intros src now username password. split; reflexivity.
  - reflexivity.
  - intros ns username. split; [reflexivity|]. split; [reflexivity|].
    eexists. split; [reflexivity|]. vm_compute. reflexivity.
Qed.

End SecurityToken.

(** ** Base64: decoding what was encoded *)
Section Base64.
Local Open Scope Z_scope.

Lemma byteZ_range b : 0 <= byteZ b < 256.
Proof.
  unfold byteZ. pose proof (Byte.to_N_bounded b) as H.
  split; [apply N2Z.is_nonneg | lia].
Qed.

Lemma byte_of_byteZ b : sha1.byte_of_Z (byteZ b) = b.
Proof.
  unfold sha1.byte_of_Z. pose proof (byteZ_range b) as H.
  rewrite Z.mod_small by exact H. unfold byteZ. rewrite N2Z.id.
  by rewrite Byte.of_to_N.
Qed.

Lemma byte_of_Z_eq z b : z = byteZ b -> sha1.byte_of_Z z = b.
Proof. intros ->. apply byte_of_byteZ. Qed.

(** Every 6-bit value is decoded from its character, which is neither a
    newline nor the padding character. *)
Lemma encodeChar_nat (n : nat) :
  (n < 64)%nat ->
  base64.decodeChar (base64.encodeChar (Z.of_nat n)) = Some (Z.of_nat n)
  /\ base64.encodeChar (Z.of_nat n) <> "010"%char
  /\ base64.encodeChar (Z.of_nat n) <> "013"%char.
Proof.
  intros H.
  do 64 (destruct n as [|n]; [vm_compute; repeat split; congruence|]). lia.
Qed.

Lemma encodeChar_spec v :
  0 <= v < 64 ->
  base64.decodeChar (base64.encodeChar v) = Some v
  /\ base64.encodeChar v <> "010"%char
  /\ base64.encodeChar v <> "013"%char.
Proof.
  intros H. rewrite <- (Z2Nat.id v) by lia. apply encodeChar_nat. lia.
Qed.

Lemma encodeChar_not_LF v : 0 <= v < 64 -> base64.encodeChar v <> "010"%char.
Proof. intros H. by destruct (encodeChar_spec v H) as (_ & ? & _). Qed.

Lemma encodeChar_not_CR v : 0 <= v < 64 -> base64.encodeChar v <> "013"%char.
Proof. intros H. by destruct (encodeChar_spec v H) as (_ & _ & ?). Qed.

Lemma decodeChar_pad : base64.decodeChar "="%char = None.
Proof. reflexivity. Qed.

Ltac byte_ranges :=
  repeat match goal with
         | b : byte |- _ =>
             lazymatch goal with
             | H : 0 <= byteZ b < 256 |- _ => fail
             | _ => pose proof (byteZ_range b)
             end
         end.

Ltac sextet := byte_ranges; Z.div_mod_to_equations; lia.

Lemma dropNewlines_cons c s :
  c <> "010"%char -> c <> "013"%char ->
  base64.dropNewlines (String c s) = String c (base64.dropNewlines s).
Proof.
  intros H1 H2. simpl. by rewrite !bool_decide_eq_false_2.
Qed.

Lemma dropNewlines_EncodeToString n : forall src,
  (length src < n)%nat ->
  base64.dropNewlines (base64.EncodeToString src) = base64.EncodeToString src.
Proof.
  induction n as [|n IH]; intros src Hlen; [lia|].
  destruct src as [|a [|b [|c r]]]; [reflexivity| | |].
  - cbn [base64.EncodeToString].
    rewrite !dropNewlines_cons; try reflexivity; try discriminate;
      try (apply encodeChar_not_LF; sextet); apply encodeChar_not_CR; sextet.
  - cbn [base64.EncodeToString].
    rewrite !dropNewlines_cons; try reflexivity; try discriminate;
      try (apply encodeChar_not_LF; sextet); apply encodeChar_not_CR; sextet.
  - cbn [base64.EncodeToString].
    rewrite !dropNewlines_cons;
      try (apply encodeChar_not_LF; sextet); try (apply encodeChar_not_CR; sextet).
    rewrite IH; [reflexivity | simpl in Hlen; lia].
Qed.

Lemma decodeQuanta_EncodeToString n : forall src,
  (length src < n)%nat ->
  base64.decodeQuanta (base64.EncodeToString src) = Some src.
Proof.
  induction n as [|n IH]; intros src Hlen; [lia|].
  destruct src as [|a [|b [|c r]]]; [reflexivity| | |].
  - cbn [base64.EncodeToString base64.decodeQuanta].
    destruct (encodeChar_spec (byteZ a / 4)) as [-> _]; [sextet|].
    destruct (encodeChar_spec (byteZ a mod 4 * 16)) as [-> _]; [sextet|].
    rewrite decodeChar_pad. simpl. do 2 f_equal. apply byte_of_Z_eq. sextet.
  - cbn [base64.EncodeToString base64.decodeQuanta].
    destruct (encodeChar_spec (byteZ a / 4)) as [-> _]; [sextet|].
    destruct (encodeChar_spec (byteZ a mod 4 * 16 + byteZ b / 16)) as [-> _]; [sextet|].
    destruct (encodeChar_spec (byteZ b mod 16 * 4)) as [-> _]; [sextet|].
    rewrite decodeChar_pad. simpl. f_equal.
    f_equal; [|f_equal]; apply byte_of_Z_eq; sextet.
  - cbn [base64.EncodeToString base64.decodeQuanta].
    destruct (encodeChar_spec (byteZ a / 4)) as [-> _]; [sextet|].
    destruct (encodeChar_spec (byteZ a mod 4 * 16 + byteZ b / 16)) as [-> _]; [sextet|].
    destruct (encodeChar_spec (byteZ b mod 16 * 4 + byteZ c / 64)) as [-> _]; [sextet|].
    destruct (encodeChar_spec (byteZ c mod 64)) as [-> _]; [sextet|].
    rewrite IH by (simpl in Hlen; lia). f_equal.
    f_equal; [|f_equal; [|f_equal]]; apply byte_of_Z_eq; sextet.
Qed.

(** [DecodeString] undoes [EncodeToString]. *)
Lemma DecodeString_EncodeToString src :
  base64.DecodeString (base64.EncodeToString src) = Some src.
Proof.
  unfold base64.DecodeString.
  rewrite (dropNewlines_EncodeToString (S (length src))) by lia.
  apply (decodeQuanta_EncodeToString (S (length src))). lia.
Qed.

End Base64.

(** C10: a token that [NewSecurity] returns verifies against the password
    it was built from: its nonce field decodes, from base64, to 16 bytes
    [n], and its password field is the base64 form of the SHA-1 digest of
    [n], the bytes of its [Created] field and the bytes of the password. *)
Theorem NewSecurity_self_consistent rnd now username password s :
  NewSecurity rnd now username password = inr s ->
  exists t pw nc n,
    Security_UsernameToken s = Some t
    /\ UsernameToken_Password t = Some pw
    /\ UsernameToken_Nonce t = Some nc
    /\ base64.DecodeString (Nonce_Nonce nc) = Some n
    /\ length n = 16%nat
    /\ Password_Password pw
       = base64.EncodeToString
           (sha1.digest (n ++ bytes_of_string (Created t) ++ bytes_of_string password)).
Proof.
  unfold NewSecurity. destruct rnd as [src|]; [|discriminate].
  intros H. injection H as Hs. subst s. eexists _, _, _, (src <$> seq 0 16).
  split; [reflexivity|]. split; [reflexivity|]. split; [reflexivity|].
  split; [exact (DecodeString_EncodeToString (src <$> seq 0 16))|]. split; reflexivity.
Qed.

Lemma NewSecurity_self_consistent_witness :
  exists t pw nc n,
    Security_UsernameToken
      (mkSecurity (Some (mkUsernameToken "admin"
         (Some (mkPassword typePassword "NLLLgGQjnx/uchsQ67SpbP2lBhs="))
         (Some (mkNonce typeNonce "AAAAAAAAAAAAAAAAAAAAAA=="))
         "2024-01-01T00:00:00"))) = Some t
    /\ UsernameToken_Password t = Some pw
    /\ UsernameToken_Nonce t = Some nc
    /\ base64.DecodeString (Nonce_Nonce nc) = Some n
    /\ length n = 16%nat
    /\ Password_Password pw
       = base64.EncodeToString
           (sha1.digest (n ++ bytes_of_string (Created t) ++ bytes_of_string "12345")).
Proof.
  apply (NewSecurity_self_consistent (Some zeroSource) (newYear2024 0) "admin" "12345").
  vm_compute. reflexivity.
Defined.

(** ** The client: one pass of [Do] *)
Section Pass.

Variable env : Env.
Variable r : Request.

(** [Do] is a pass, followed by [Do] again when the pass ends in a
    self-invocation. *)
Lemma Do_pass fuel c w :
  Do (S fuel) env c r w
  = match pass env c r w with
    | Done c' w' out => Some (c', w', out)
    | Again c' w' => Do fuel env c' r w'
    | OutOfFuel => None
    end.
Proof.
  unfold pass. cbn [Do]. destruct (prepare env c r w) as [c1 [err|req]]; [reflexivity|].
  repeat case_match; reflexivity.
Qed.

(** What the first half of [Do] does to the client and asks of the
    request. *)
Lemma prepare_client c w c1 x :
  prepare env c r w = (c1, x) ->
  AuthMode c1 = AuthMode c /\ Client_Username c1 = Client_Username c
  /\ Client_Password c1 = Client_Password c /\ credentials c1 = credentials c
  /\ HTTPClient c1 = Some (clientTransport c1).
Proof.
  unfold prepare. intros H.
  repeat case_match; simplify_eq; repeat split; reflexivity.
Qed.

Lemma prepare_request c w c1 req :
  prepare env c r w = (c1, inr req) ->
  exists buf s,
    Request_Body r = Some buf /\ urlOK env (URL r) = true
    /\ req = mkHTTPRequest "POST" (URL r) "application/soap+xml"
               (IRaw (bytes_of_string xmlHeader)
                :: Encode (marshalOrder env (length w) (Request_Namespaces r))
                          (mkEnvelope (Request_Namespaces r) (Some (mkHeader s))
                                      (Some (mkBody None buf))))
               (clientTransport c1)
    /\ (s <> None <-> credentials c = true /\ AuthMode c = AuthModeWSSecurity)
    /\ (credentials c = true ->
        (AuthMode c = AuthModeNone \/ AuthMode c = AuthModeWSSecurity
         \/ AuthMode c = AuthModeDigest)
        /\ (AuthMode c = AuthModeDigest -> isDigestTransport (clientTransport c1) = true)).
Proof.
  unfold prepare. intros H.
  change (credentials (withTransport c (clientTransport c))) with (credentials c) in H.
  change (AuthMode (withTransport c (clientTransport c))) with (AuthMode c) in H.
  repeat case_match; simplify_eq; eexists _, _;
    (split; [reflexivity|]); (split; [by apply negb_false_iff|]); (split; [reflexivity|]).
  all: repeat match goal with
           | H : (_ =? _)%Z = true |- _ => apply Z.eqb_eq in H
           | H : (_ =? _)%Z = false |- _ => apply Z.eqb_neq in H
           end.
  all: unfold AuthModeWSSecurity, AuthModeDigest, AuthModeNone in *.
  all: (split; [split; [intros Hs | intros [Hc Hm]] | intros Hc; split; [|intros Hm]]).
  all: try done; try lia.
  all: try (split; [assumption | lia]).
Qed.

Lemma escalateDigest_client c resp :
  AuthMode (escalateDigest c resp) = AuthModeDigest
  /\ Client_Username (escalateDigest c resp) = Client_Username c
  /\ Client_Password (escalateDigest c resp) = Client_Password c
  /\ credentials (escalateDigest c resp) = credentials c
  /\ isDigestTransport (clientTransport (escalateDigest c resp)) = true
  /\ HTTPClient (escalateDigest c resp) = Some (clientTransport (escalateDigest c resp)).
Proof.
  unfold escalateDigest.
  change (clientTransport (withAuthMode c AuthModeDigest)) with (clientTransport c).
  destruct (isDigestTransport (clientTransport c)) eqn:Ht; repeat split; try reflexivity.
  - exact Ht.
  - unfold clientTransport in *. simpl. by destruct (HTTPClient c).
Qed.

(** How a pass ends: it leaves the mode alone, sends at most one
    request and dereferences no nil body, or it sends one request and escalates, to WS-Security from no
    authentication, or to digest from no authentication or WS-Security,
    which takes credentials; and it never runs out of fuel. *)
Lemma pass_spec c w :
  match pass env c r w with
  | Done c' w' out =>
      AuthMode c' = AuthMode c /\ credentials c' = credentials c
      /\ (w' = w \/ exists req, w' = EvSend req :: w)
      /\ out <> Panic
  | Again c' w' =>
      credentials c = true /\ credentials c' = true
      /\ exists req,
          (AuthMode c = AuthModeNone /\ AuthMode c' = AuthModeWSSecurity
           /\ w' = EvAuthMode (AuthMode c) AuthModeWSSecurity :: EvSend req :: w)
          \/ ((AuthMode c = AuthModeNone \/ AuthMode c = AuthModeWSSecurity)
              /\ AuthMode c' = AuthModeDigest
              /\ w' = EvAuthMode (AuthMode c) AuthModeDigest :: EvSend req :: w)
  | OutOfFuel => False
  end.
Proof.
  unfold pass. destruct (prepare env c r w) as [c1 [err|req]] eqn:Hp.
  { apply prepare_client in Hp as (Hm & _ & _ & Hc & _). by eauto. }
  pose proof (prepare_client _ _ _ _ Hp) as (Hm & _ & _ & Hc & _).
  apply prepare_request in Hp as (buf & s & _ & _ & _ & _ & Hmode).
  destruct (transport env (sentRequests (EvSend req :: w))) as [resp|]; [|by eauto 10].
  destruct (Debug c1 && BodyErr resp); [by eauto 10|].
  destruct (StatusCode resp =? 401)%Z.
  - destruct (negb (AuthMode c1 =? AuthModeDigest)%Z && credentials c1) eqn:Hesc;
      [|by eauto 10].
    apply andb_true_iff in Hesc as [Hnd Hcred]. rewrite Hc in Hcred.
    destruct (escalateDigest_client c1 resp) as (Hm' & _ & _ & Hc' & _).
    split; [exact Hcred|]. split; [by rewrite Hc', Hc|].
    exists req. right. rewrite Hm. split; [|by split].
    apply negb_true_iff, Z.eqb_neq in Hnd. rewrite Hm in Hnd.
    destruct (Hmode Hcred) as [[?|[?|?]] _]; auto; done.
  - destruct (Decode_returns (Response_Body resp)) as (e & err & -> & Hbody).
    destruct err as [err|]; [by eauto 10|].
    destruct (Envelope_Body e) as [b|]; [|by destruct Hbody].
    destruct (Body_Fault b) as [fault|]; [|by eauto 10].
    destruct (IsUnauthorizedError _ fault); [|by eauto 10].
    destruct ((AuthMode c1 =? AuthModeNone)%Z && credentials c1) eqn:Hesc; [|by eauto 10].
    apply andb_true_iff in Hesc as [Hnone Hcred]. rewrite Hc in Hcred.
    apply Z.eqb_eq in Hnone. rewrite Hm in Hnone.
    split; [exact Hcred|]. split; [exact (eq_trans Hc Hcred)|].
    exists req. left. by rewrite Hm.
Qed.

Lemma countEvents_app p evs1 evs2 :
  countEvents p (evs1 ++ evs2) = (countEvents p evs1 + countEvents p evs2)%nat.
Proof. induction evs1 as [|ev evs1 IH]; simpl; [reflexivity | rewrite IH; lia]. Qed.

Lemma forwardTrace_app m0 m1 m2 evs1 evs2 :
  forwardTrace m0 evs1 m1 -> forwardTrace m1 evs2 m2 -> forwardTrace m0 (evs2 ++ evs1) m2.
Proof.
  intros H1 H2. induction H2; simpl; [exact H1 | by constructor | by econstructor].
Qed.

(** [Do] returns once its fuel exceeds the escalations the client may still
    go through; the bounds on what the call did follow the client's mode. *)
Lemma Do_bounded k : forall c w,
  (rank c <= k)%nat ->
  exists c' evs out,
    (forall fuel, (k < fuel)%nat -> Do fuel env c r w = Some (c', evs ++ w, out))
    /\ (countEvents isSend evs <= S (rank c))%nat
    /\ (countEvents (isEscalation AuthModeDigest) evs
        <= if (AuthMode c =? AuthModeDigest)%Z then 0 else 1)%nat
    /\ (countEvents (isEscalation AuthModeWSSecurity) evs
        <= if (AuthMode c =? AuthModeNone)%Z then 1 else 0)%nat
    /\ forwardTrace (AuthMode c) evs (AuthMode c')
    /\ out <> Panic.
Proof.
  induction k as [|k IH]; intros c w Hrank;
    pose proof (pass_spec c w) as Hp;
    destruct (pass env c r w) as [c' w' out|c' w'|] eqn:Hpass; try done.
  1,3: destruct Hp as (Hm & _ & [->|[req ->]] & Hout);
    [ exists c', [], out | exists c', [EvSend req], out ];
    (split; [intros [|fuel] Hf; [lia|]; by rewrite Do_pass, Hpass|]);
    rewrite Hm; simpl; repeat split; try lia; try (by repeat case_match; lia);
    try exact Hout; repeat constructor.
  - destruct Hp as (Hc & Hc' & req & [(Hm & Hm' & ->)|([Hm|Hm] & Hm' & ->)]);
      unfold rank in Hrank; rewrite Hc, Hm in Hrank; simpl in Hrank; lia.
  - destruct Hp as (Hc & Hc' & req & [(Hm & Hm' & ->)|(Hm & Hm' & ->)]).
    + destruct (IH c' (EvAuthMode (AuthMode c) AuthModeWSSecurity :: EvSend req :: w))
        as (c'' & evs & out & HDo & Hs & Hd & Hw & Ht & Hout).
      { unfold rank in *. rewrite Hc'. rewrite Hc, Hm in Hrank. rewrite Hm'. simpl in *. lia. }
      exists c'', (evs ++ [EvAuthMode (AuthMode c) AuthModeWSSecurity; EvSend req]), out.
      split.
      { intros [|fuel] Hf; [lia|]. rewrite Do_pass, Hpass, <- app_assoc. apply HDo. lia. }
      assert (forwardTrace (AuthMode c)
                (evs ++ [EvAuthMode (AuthMode c) AuthModeWSSecurity; EvSend req])
                (AuthMode c'')) as Htr.
      { eapply forwardTrace_app; [|exact Ht]. rewrite Hm'.
        apply forwardTrace_mode; [apply forwardTrace_send, forwardTrace_nil|].
        left. by split. }
      refine (conj _ (conj _ (conj _ (conj Htr Hout))));
        rewrite !countEvents_app; unfold rank in *; rewrite Hc' in Hs;
        rewrite Hm' in Hs, Hd, Hw; rewrite ?Hc, Hm; simpl in *; lia.
    + destruct (IH c' (EvAuthMode (AuthMode c) AuthModeDigest :: EvSend req :: w))
        as (c'' & evs & out & HDo & Hs & Hd & Hw & Ht & Hout).
      { unfold rank in *. rewrite Hc', Hm'. simpl. lia. }
      exists c'', (evs ++ [EvAuthMode (AuthMode c) AuthModeDigest; EvSend req]), out.
      split.
      { intros [|fuel] Hf; [lia|]. rewrite Do_pass, Hpass, <- app_assoc. apply HDo. lia. }
      assert (forwardTrace (AuthMode c)
                (evs ++ [EvAuthMode (AuthMode c) AuthModeDigest; EvSend req])
                (AuthMode c'')) as Htr.
      { eapply forwardTrace_app; [|exact Ht]. rewrite Hm'.
        apply forwardTrace_mode; [apply forwardTrace_send, forwardTrace_nil|].
        destruct Hm as [Hm|Hm]; rewrite Hm; [right; left | right; right]; done. }
      refine (conj _ (conj _ (conj _ (conj Htr Hout))));
        rewrite !countEvents_app; unfold rank in *; rewrite Hc' in Hs;
        rewrite Hm' in Hs, Hd, Hw; rewrite ?Hc;
        destruct Hm as [Hm|Hm]; rewrite Hm; simpl in *; lia.
Qed.

Lemma Do_fuel_mono fuel : forall fuel' c w res,
  (fuel <= fuel')%nat -> Do fuel env c r w = Some res -> Do fuel' env c r w = Some res.
Proof.
  induction fuel as [|fuel IH]; intros fuel' c w res Hle; [discriminate|].
  destruct fuel' as [|fuel']; [lia|]. rewrite !Do_pass.
  destruct (pass env c r w); try done. apply IH. lia.
Qed.

(** A pass that sends a request and ends the call leaves the client as the
    first half of [Do] left it, and the request at the head of the trace. *)
Lemma pass_Done_sent c w c1 req c' w' out :
  prepare env c r w = (c1, inr req) ->
  pass env c r w = Done c' w' out ->
  c' = c1 /\ w' = EvSend req :: w.
Proof.
  unfold pass. intros ->. repeat case_match; intros [= <- <- <-]; done.
Qed.

(** In digest mode, with the digest transport installed, the first half of
    [Do] changes nothing of the client and attaches no security header. *)
Lemma prepare_Digest c w buf :
  credentials c = true -> AuthMode c = AuthModeDigest ->
  isDigestTransport (clientTransport c) = true ->
  HTTPClient c = Some (clientTransport c) ->
  Request_Body r = Some buf -> urlOK env (URL r) = true ->
  prepare env c r w
  = (c, inr (mkHTTPRequest "POST" (URL r) "application/soap+xml"
               (IRaw (bytes_of_string xmlHeader)
                :: Encode (marshalOrder env (length w) (Request_Namespaces r))
                          (mkEnvelope (Request_Namespaces r) (Some (mkHeader None))
                                      (Some (mkBody None buf))))
               (clientTransport c))).
Proof.
  intros Hc Hm Ht Hh Hb Hu. unfold prepare.
  assert (withTransport c (clientTransport c) = c) as ->.
  { destruct c; simpl in *. by rewrite Hh. }
  rewrite Hc, Hm, Ht, Hb, Hu. reflexivity.
Qed.

(** A pass in digest mode ends the call. *)
Lemma pass_Digest c w c1 req :
  AuthMode c = AuthModeDigest ->
  prepare env c r w = (c1, inr req) ->
  exists out, pass env c r w = Done c1 (EvSend req :: w) out /\ out <> Panic.
Proof.
  intros Hm Hp. pose proof (pass_spec c w) as Hs.
  destruct (pass env c r w) as [c' w' out|c' w'|] eqn:Hpass; [| |done].
  - destruct (pass_Done_sent _ _ _ _ _ _ _ Hp Hpass) as [-> ->].
    exists out. split; [reflexivity|]. apply Hs.
  - destruct Hs as (_ & _ & _ & [(Hm' & _)|([Hm'|Hm'] & _)]); rewrite Hm in Hm'; discriminate.
Qed.

Lemma prepare_Debug c w c1 x : prepare env c r w = (c1, x) -> Debug c1 = Debug c.
Proof.
  unfold prepare. intros H. repeat case_match; simplify_eq; reflexivity.
Qed.

(** A pass that ends in a self-invocation has sent the request prepared:
    the answer was an unauthorized fault met in mode none, or an HTTP 401. *)
Lemma pass_Again_sent c w c1 req c' w' :
  prepare env c r w = (c1, inr req) ->
  pass env c r w = Again c' w' ->
  (AuthMode c1 = AuthModeNone /\ c' = withAuthMode c1 AuthModeWSSecurity
   /\ w' = EvAuthMode (AuthMode c1) AuthModeWSSecurity :: EvSend req :: w)
  \/ (exists resp,
         transport env (sentRequests (EvSend req :: w)) = Some resp
         /\ StatusCode resp = 401%Z
         /\ c' = escalateDigest c1 resp
         /\ w' = EvAuthMode (AuthMode c1) AuthModeDigest :: EvSend req :: w).
Proof.
  unfold pass. intros ->.
  destruct (transport env (sentRequests (EvSend req :: w))) as [resp|]; [|discriminate].
  destruct (Debug c1 && BodyErr resp); [discriminate|].
  destruct (StatusCode resp =? 401)%Z eqn:H401.
  - apply Z.eqb_eq in H401. case_match; [|discriminate].
    intros [= <- <-]. right. by exists resp.
  - repeat case_match; try discriminate. intros [= <- <-]. left.
    match goal with
    | H : _ && _ = true |- _ => apply andb_true_iff in H as [H _]; apply Z.eqb_eq in H
    end.
    by repeat split.
Qed.

End Pass.

(** ** The client: escalation *)

(** C3: whatever the environment answers, a call of [Do] returns, for every
    fuel from 3 on and with the same result; over the whole call each of the
    two escalations (to digest after an HTTP 401, to WS-Security after an
    unauthorized fault) happens at most once, and at most three requests
    are sent; and the call dereferences no nil body. *)
Theorem Do_terminates (env : Env) (c : Client) (r : Request) (w : list Event) :
  exists c' evs out,
    (forall fuel, (3 <= fuel)%nat -> Do fuel env c r w = Some (c', evs ++ w, out))
    /\ (countEvents (isEscalation AuthModeDigest) evs <= 1)%nat
    /\ (countEvents (isEscalation AuthModeWSSecurity) evs <= 1)%nat
    /\ (countEvents isSend evs <= 3)%nat
    /\ out <> Panic.
Proof.
  destruct (Do_bounded env r 2 c w) as (c' & evs & out & HDo & Hs & Hd & Hw & _ & Hout).
  { unfold rank. repeat case_match; lia. }
  exists c', evs, out. split; [intros fuel Hf; apply HDo; lia|].
  assert (rank c <= 2)%nat by (unfold rank; repeat case_match; lia).
  repeat split; try exact Hout; try lia; repeat case_match; lia.
Qed.

(** C4, as the spec states it, fails: a client in mode WS-Security (2)
    that meets an HTTP 401 is set to mode digest (1), a lower mode in the
    order none, digest, WS-Security. *)
Lemma Do_WSSecurity_to_Digest :
  exists c' w' out,
    Do 3 (serverEnv [response401; response401]) (adminClient AuthModeWSSecurity)
       servicesRequest [] = Some (c', w', out)
    /\ AuthMode c' = AuthModeDigest
    /\ (AuthMode c' < AuthMode (adminClient AuthModeWSSecurity))%Z.
Proof.
  eexists _, _, _. split; [vm_compute; reflexivity|]. split; [reflexivity | reflexivity].
Qed.

(** C4 (amended): during any call to [Do] the mode only moves forward along
    none, WS-Security, digest: every assignment the call makes to
    [AuthMode] goes from no authentication to WS-Security or to digest, or
    from WS-Security to digest, starting from the mode then current; the
    mode the call leaves is the one last assigned, or the initial one. *)
Theorem Do_AuthMode_forward (env : Env) (c : Client) (r : Request) (w : list Event)
    (fuel : nat) (c' : Client) (w' : list Event) (out : Outcome) :
  Do fuel env c r w = Some (c', w', out) ->
  exists evs, w' = evs ++ w /\ forwardTrace (AuthMode c) evs (AuthMode c').
Proof.
  intros H.
  destruct (Do_bounded env r 2 c w) as (c2 & evs & out2 & HDo & _ & _ & _ & Ht & _).
  { unfold rank. repeat case_match; lia. }
  apply (Do_fuel_mono env r fuel (fuel + 3)) in H; [|lia].
  rewrite HDo in H by lia. injection H as <- <- <-. by exists evs.
Qed.

Lemma Do_AuthMode_forward_witness :
  exists evs,
    [EvSend (mkHTTPRequest "POST" (URL servicesRequest) "application/soap+xml"
               (IRaw (bytes_of_string xmlHeader)
                :: Encode (map_to_list (Request_Namespaces servicesRequest))
                     (mkEnvelope (Request_Namespaces servicesRequest) (Some (mkHeader None))
                                 (Some (mkBody None (rawBytes servicesPayload)))))
               (TransportDigest "admin" "12345" (Some response401)));
     EvAuthMode AuthModeNone AuthModeDigest;
     EvSend (mkHTTPRequest "POST" (URL servicesRequest) "application/soap+xml"
               (IRaw (bytes_of_string xmlHeader)
                :: Encode (map_to_list (Request_Namespaces servicesRequest))
                     (mkEnvelope (Request_Namespaces servicesRequest) (Some (mkHeader None))
                                 (Some (mkBody None (rawBytes servicesPayload)))))
               TransportNil)]
    = evs ++ []
    /\ forwardTrace (AuthMode (adminClient AuthModeNone)) evs
         (AuthMode (mkClient AuthModeDigest "admin" "12345"
                      (Some (TransportDigest "admin" "12345" (Some response401))) false)).
Proof.
  eapply (Do_AuthMode_forward (serverEnv [response401; responseOK]) (adminClient AuthModeNone)
            servicesRequest [] 2).
  vm_compute. reflexivity.
Defined.

(** A request carries a security header exactly when the envelope's header
    holds a security block. *)
Lemma Encode_Security order ns s buf :
  emitsElement "wsse:Security"
    (IRaw (bytes_of_string xmlHeader)
     :: Encode order (mkEnvelope ns (Some (mkHeader s)) (Some (mkBody None buf))))
  <-> s <> None.
Proof.
  unfold emitsElement, Encode, MarshalXML, encodeHeader, encodeBody. simpl.
  destruct s as [s|]; split; try done.
  - intros _. eexists. unfold Security_MarshalXML. simpl.
    repeat first [apply list_elem_of_here | apply list_elem_of_further].
  - intros [attr Hin]. simpl in Hin.
    repeat (apply elem_of_cons in Hin as [Hin|Hin]; [discriminate|]).
    inversion Hin.
Qed.


(** In WS-Security mode, with randomness at hand, the first half of [Do]
    builds a security header and attaches it to the envelope. *)
Lemma prepare_WSSecurity env r c w buf src :
  credentials c = true -> AuthMode c = AuthModeWSSecurity ->
  HTTPClient c = Some (clientTransport c) ->
  Request_Body r = Some buf -> urlOK env (URL r) = true ->
  randRead env (length w) = Some src ->
  exists s,
    NewSecurity (Some src) (now env (length w)) (Client_Username c) (Client_Password c) = inr s
    /\ prepare env c r w
       = (c, inr (mkHTTPRequest "POST" (URL r) "application/soap+xml"
                    (IRaw (bytes_of_string xmlHeader)
                     :: Encode (marshalOrder env (length w) (Request_Namespaces r))
                               (mkEnvelope (Request_Namespaces r) (Some (mkHeader (Some s)))
                                           (Some (mkBody None buf))))
                    (clientTransport c))).
Proof.
  intros Hc Hm Hh Hb Hu Hr. unfold prepare.
  assert (withTransport c (clientTransport c) = c) as ->.
  { destruct c; simpl in *. by rewrite Hh. }
  rewrite Hc, Hm, Hr, Hb, Hu. eexists. split; reflexivity.
Qed.

(** C7, as the spec states it, fails: a client in WS-Security mode that
    meets an HTTP 401 does not retransmit the identical request. The first
    request carries a security header, the one sent after the move to
    digest carries none. *)
Lemma Do_401_not_identical :
  exists c' req1 req2 out,
    Do 3 (serverEnv [response401; responseOK]) (adminClient AuthModeWSSecurity)
       servicesRequest []
    = Some (c', [EvSend req2; EvAuthMode AuthModeWSSecurity AuthModeDigest; EvSend req1], out)
    /\ emitsElement "wsse:Security" (Payload req1)
    /\ ~ emitsElement "wsse:Security" (Payload req2)
    /\ Payload req2 <> Payload req1.
Proof.
  eexists _, _, _, _. split; [vm_compute; reflexivity|].
  cbn [Payload].
  match goal with
  | |- emitsElement _ ?p1 /\ ~ emitsElement _ ?p2 /\ _ =>
      assert (emitsElement "wsse:Security" p1) as H1;
        [|assert (~ emitsElement "wsse:Security" p2) as H2]
  end.
  - eexists. repeat first [apply list_elem_of_here | apply list_elem_of_further].
  - intros [attr Hin].
    repeat (apply elem_of_cons in Hin as [Hin|Hin]; [discriminate|]).
    inversion Hin.
  - split; [exact H1|]. split; [exact H2|]. intros Heq. apply H2. rewrite Heq. exact H1.
Qed.

(** C7 (amended): when the request is sent and the answer is an HTTP 401:
    - under [Debug], if the body of the answer cannot be read to its end,
      [Do] returns the error of that read: nothing more is sent and the
      mode is left alone;
    - otherwise, if the mode is not digest and both credentials are set,
      [Do] sets the mode to digest, installs the digest transport seeded
      with the 401 response unless one is installed already, and invokes
      itself on the same [Request]; that invocation sends exactly one
      request and ends the call whatever the answer. The request sent is a
      POST to the same URL, of the same content type, with the same
      namespaces and payload and without security header: it is the first
      request byte for byte when the mode was none and the namespaces are
      visited in the same order, and it differs from the first, which
      carried a security header, when the mode was WS-Security;
    - otherwise, if the mode is digest or a credential is empty, [Do]
      returns an [UnauthorizedError] holding the status at once: nothing
      more is sent and the mode is left alone. *)
Theorem Do_401 (env : Env) (c : Client) (r : Request) (w : list Event) (c1 : Client)
    (req : HTTPRequest) (resp : Response) :
  prepare env c r w = (c1, inr req) ->
  transport env (sentRequests (EvSend req :: w)) = Some resp ->
  StatusCode resp = 401%Z ->
  (Debug c = true -> BodyErr resp = true ->
   forall fuel,
     Do (S fuel) env c r w
     = Some (c1, EvSend req :: w, Fail (Errorf "could not read response body" ExternalError))
     /\ AuthMode c1 = AuthMode c)
  /\ (Debug c && BodyErr resp = false ->
      (AuthMode c <> AuthModeDigest -> credentials c = true ->
       let c2 := escalateDigest c1 resp in
       let w2 := EvAuthMode (AuthMode c) AuthModeDigest :: EvSend req :: w in
       AuthMode c2 = AuthModeDigest
       /\ clientTransport c2
          = (if isDigestTransport (clientTransport c1) then clientTransport c1
             else TransportDigest (Client_Username c) (Client_Password c) (Some resp))
       /\ (forall fuel, Do (S fuel) env c r w = Do fuel env c2 r w2)
       /\ exists buf req' out,
            Request_Body r = Some buf
            /\ req' = mkHTTPRequest "POST" (URL r) "application/soap+xml"
                        (IRaw (bytes_of_string xmlHeader)
                         :: Encode (marshalOrder env (length w2) (Request_Namespaces r))
                              (mkEnvelope (Request_Namespaces r) (Some (mkHeader None))
                                          (Some (mkBody None buf))))
                        (clientTransport c2)
            /\ prepare env c2 r w2 = (c2, inr req')
            /\ Method req' = Method req
            /\ HTTPRequest_URL req' = HTTPRequest_URL req
            /\ ContentType req' = ContentType req
            /\ ~ emitsElement "wsse:Security" (Payload req')
            /\ (AuthMode c = AuthModeNone ->
                marshalOrder env (length w2) (Request_Namespaces r)
                = marshalOrder env (length w) (Request_Namespaces r) ->
                Payload req' = Payload req)
            /\ (AuthMode c = AuthModeWSSecurity ->
                emitsElement "wsse:Security" (Payload req) /\ Payload req' <> Payload req)
            /\ out <> Panic
            /\ forall fuel, Do (S (S fuel)) env c r w = Some (c2, EvSend req' :: w2, out))
      /\ (AuthMode c = AuthModeDigest \/ credentials c = false ->
          forall fuel,
            Do (S fuel) env c r w
            = Some (c1, EvSend req :: w, Fail (UnauthorizedError (ErrorsNew (Status resp))))
            /\ AuthMode c1 = AuthMode c)).
Proof.
  intros Hp Ht H401.
  pose proof (prepare_client _ _ _ _ _ _ Hp) as (Hm & Hu & Hpw & Hc & Hh).
  pose proof (prepare_Debug _ _ _ _ _ _ Hp) as Hdbg.
  assert (forall fuel,
             Do (S fuel) env c r w
             = if Debug c && BodyErr resp
               then Some (c1, EvSend req :: w,
                          Fail (Errorf "could not read response body" ExternalError))
               else if negb (AuthMode c1 =? AuthModeDigest)%Z && credentials c1
                    then Do fuel env (escalateDigest c1 resp) r
                            (EvAuthMode (AuthMode c1) AuthModeDigest :: EvSend req :: w)
                    else Some (c1, EvSend req :: w,
                               Fail (UnauthorizedError (ErrorsNew (Status resp))))) as HDo.
  { intros fuel. cbn [Do]. rewrite Hp, Ht, H401, Hdbg. reflexivity. }
  split.
  { intros Hd Hb fuel. split; [|exact Hm]. by rewrite HDo, Hd, Hb. }
  intros Hread. rewrite Hread in HDo. split.
  - intros Hnd Hcred. cbn zeta.
    destruct (escalateDigest_client c1 resp) as (Hm2 & Hu2 & Hp2 & Hc2 & Ht2 & Hh2).
    assert (forall fuel,
               Do (S fuel) env c r w
               = Do fuel env (escalateDigest c1 resp) r
                    (EvAuthMode (AuthMode c) AuthModeDigest :: EvSend req :: w)) as Hre.
    { intros fuel. rewrite HDo, Hc, Hcred, Hm.
      apply Z.eqb_neq in Hnd. by rewrite Hnd. }
    split; [exact Hm2|]. split.
    { unfold escalateDigest.
      change (clientTransport (withAuthMode c1 AuthModeDigest)) with (clientTransport c1).
      destruct (isDigestTransport (clientTransport c1)); [reflexivity|].
      simpl. by rewrite Hu, Hpw. }
    split; [exact Hre|].
    destruct (prepare_request _ _ _ _ _ _ Hp) as (buf & s & Hbuf & Hurl & Hreq & Hs & _).
    pose proof (prepare_Digest env r (escalateDigest c1 resp)
                  (EvAuthMode (AuthMode c) AuthModeDigest :: EvSend req :: w) buf
                  (eq_trans Hc2 (eq_trans Hc Hcred)) Hm2 Ht2 Hh2 Hbuf Hurl) as Hp'.
    destruct (pass_Digest env r _ _ _ _ Hm2 Hp') as (out & Hpass & Hout).
    assert (Method req = "POST" /\ HTTPRequest_URL req = URL r
            /\ ContentType req = "application/soap+xml"
            /\ Payload req
               = IRaw (bytes_of_string xmlHeader)
                 :: Encode (marshalOrder env (length w) (Request_Namespaces r))
                      (mkEnvelope (Request_Namespaces r) (Some (mkHeader s))
                                  (Some (mkBody None buf))))
      as (HM & HU & HC & HP) by (rewrite Hreq; repeat split).
    eexists buf, _, out. split; [exact Hbuf|]. split; [reflexivity|].
    split; [exact Hp'|]. rewrite HM, HU, HC, HP.
    cbn [Method HTTPRequest_URL ContentType Payload].
    split; [reflexivity|]. split; [reflexivity|]. split; [reflexivity|].
    split; [rewrite Encode_Security; by intros []|].
    split; [|split; [|split]].
    + intros Hnone Horder. rewrite Horder.
      destruct s as [s|]; [|reflexivity].
      destruct (proj1 Hs) as [_ Hws]; [done|]. rewrite Hnone in Hws. discriminate.
    + intros Hws.
      assert (s <> None) as Hsome by (apply Hs; by split).
      assert (emitsElement "wsse:Security"
                (IRaw (bytes_of_string xmlHeader)
                 :: Encode (marshalOrder env (length w) (Request_Namespaces r))
                      (mkEnvelope (Request_Namespaces r) (Some (mkHeader s))
                                  (Some (mkBody None buf))))) as Hin
        by (by apply Encode_Security).
      split; [exact Hin|]. intros Heq. rewrite <- Heq in Hin.
      apply Encode_Security in Hin. by apply Hin.
    + exact Hout.
    + intros fuel. by rewrite Hre, Do_pass, Hpass.
  - intros Hor fuel. split; [|exact Hm]. rewrite HDo, Hm, Hc.
    destruct Hor as [-> | ->]; [reflexivity|]. by rewrite andb_false_r.
Qed.

Lemma Do_401_witness :
  exists c1 req,
    prepare (serverEnv [response401; responseOK]) (adminClient AuthModeNone) servicesRequest []
    = (c1, inr req)
    /\ let c2 := escalateDigest c1 response401 in
       let w2 := [EvAuthMode AuthModeNone AuthModeDigest; EvSend req] in
       clientTransport c2 = TransportDigest "admin" "12345" (Some response401)
       /\ exists req' out,
            Payload req' = Payload req
            /\ ~ emitsElement "wsse:Security" (Payload req')
            /\ Do 2 (serverEnv [response401; responseOK]) (adminClient AuthModeNone)
                  servicesRequest [] = Some (c2, EvSend req' :: w2, out).
Proof.
  eexists _, _. split; [vm_compute; reflexivity|]. cbn zeta.
  edestruct (Do_401 (serverEnv [response401; responseOK]) (adminClient AuthModeNone)
               servicesRequest []) as [_ Hread];
    [vm_compute; reflexivity | vm_compute; reflexivity | reflexivity |].
  destruct (Hread eq_refl) as [Hesc _].
  destruct Hesc as (_ & Htr & _ & buf & req' & out & _ & _ & _ & _ & _ & _ & Hno & Hpay & _
                    & _ & HDo);
    [discriminate | reflexivity |].
  split; [exact Htr|]. exists req', out.
  split; [by apply Hpay|]. split; [exact Hno | exact (HDo 0%nat)].
Defined.

(** C8, as the spec states it, fails: after an unauthorized fault met in
    mode none with credentials, the request sent next is not the identical
    one, for it carries a security header that the first did not; when the
    random source fails nothing is retransmitted at all; and when the
    device answers the second request with an HTTP 401 a third request
    follows. *)
Lemma Do_fault_not_identical :
  (exists c' req1 req2 out,
      Do 3 (serverEnv [responseNotAuthorized; responseOK]) (adminClient AuthModeNone)
         servicesRequest []
      = Some (c', [EvSend req2; EvAuthMode AuthModeNone AuthModeWSSecurity; EvSend req1], out)
      /\ ~ emitsElement "wsse:Security" (Payload req1)
      /\ emitsElement "wsse:Security" (Payload req2)
      /\ Payload req2 <> Payload req1)
  /\ (exists c' req1 err,
         Do 3 (noRandomEnv [responseNotAuthorized; responseOK]) (adminClient AuthModeNone)
            servicesRequest []
         = Some (c', [EvAuthMode AuthModeNone AuthModeWSSecurity; EvSend req1], Fail err))
  /\ (exists c' w' out,
         Do 3 (serverEnv [responseNotAuthorized; response401; responseOK])
            (adminClient AuthModeNone) servicesRequest [] = Some (c', w', out)
         /\ countEvents isSend w' = 3%nat).
Proof.
  split; [|split].
  - eexists _, _, _, _. split; [vm_compute; reflexivity|].
    cbn [Payload].
    match goal with
    | |- ~ emitsElement _ ?p1 /\ emitsElement _ ?p2 /\ _ =>
        assert (~ emitsElement "wsse:Security" p1) as H1;
          [|assert (emitsElement "wsse:Security" p2) as H2]
    end.
    + intros [attr Hin].
      repeat (apply elem_of_cons in Hin as [Hin|Hin]; [discriminate|]).
      inversion Hin.
    + eexists. repeat first [apply list_elem_of_here | apply list_elem_of_further].
    + split; [exact H1|]. split; [exact H2|]. intros Heq. apply H1. rewrite <- Heq. exact H2.
  - eexists _, _, _. vm_compute. reflexivity.
  - eexists _, _, _. split; vm_compute; reflexivity.
Qed.

(** C8 (amended): when the request is sent and answered:
    - under [Debug], if the body of the answer cannot be read to its end,
      [Do] returns the error of that read, whatever the body holds;
    - otherwise, when the answer is not an HTTP 401 and decodes to an
      envelope whose body carries a fault:
      - if the classifier reports it unauthorized, the mode is none and
        both credentials are set, [Do] sets the mode to WS-Security and
        invokes itself once on the same [Request]. If the random source
        fails, that invocation returns the error and nothing is
        retransmitted. Otherwise it sends one request: a POST to the same
        URL, of the same content type, with the same namespaces and
        payload, now under a security header, so not the identical
        request; at most one more request follows, without security
        header, and only when the answer to that one is an HTTP 401; the
        mode is never set to WS-Security again;
      - if the classifier reports it unauthorized and the mode is not none
        or a credential is empty, [Do] returns an [UnauthorizedError]
        holding the fault;
      - otherwise [Do] returns the fault itself as the error;
      and in the last two cases nothing more is sent. *)
Theorem Do_fault (env : Env) (c : Client) (r : Request) (w : list Event) (c1 : Client)
    (req : HTTPRequest) (resp : Response) :
  prepare env c r w = (c1, inr req) ->
  transport env (sentRequests (EvSend req :: w)) = Some resp ->
  (Debug c = true -> BodyErr resp = true ->
   forall fuel,
     Do (S fuel) env c r w
     = Some (c1, EvSend req :: w, Fail (Errorf "could not read response body" ExternalError)))
  /\ (forall e b f,
      Debug c && BodyErr resp = false ->
      StatusCode resp <> 401%Z ->
      Decode (Response_Body resp) = Some (e, None) ->
      Envelope_Body e = Some b ->
      Body_Fault b = Some f ->
      let unauthorized :=
        IsUnauthorizedError (faultOrder env (length (EvSend req :: w)) (Fault_Namespaces f)) f in
      (unauthorized = true -> AuthMode c = AuthModeNone -> credentials c = true ->
       let c2 := withAuthMode c1 AuthModeWSSecurity in
       let w2 := EvAuthMode (AuthMode c) AuthModeWSSecurity :: EvSend req :: w in
       (forall fuel, Do (S fuel) env c r w = Do fuel env c2 r w2)
       /\ ~ emitsElement "wsse:Security" (Payload req)
       /\ (randRead env (length w2) = None ->
           forall fuel,
             Do (S (S fuel)) env c r w
             = Some (c2, w2,
                     Fail (Errorf "could not create security header"
                                  (Errorf "could not generate nonce" ExternalError))))
       /\ (forall src, randRead env (length w2) = Some src ->
            exists buf s req',
              Request_Body r = Some buf
              /\ NewSecurity (Some src) (now env (length w2)) (Client_Username c)
                             (Client_Password c) = inr s
              /\ req' = mkHTTPRequest (Method req) (HTTPRequest_URL req) (ContentType req)
                          (IRaw (bytes_of_string xmlHeader)
                           :: Encode (marshalOrder env (length w2) (Request_Namespaces r))
                                (mkEnvelope (Request_Namespaces r) (Some (mkHeader (Some s)))
                                            (Some (mkBody None buf))))
                          (Via req)
              /\ prepare env c2 r w2 = (c2, inr req')
              /\ emitsElement "wsse:Security" (Payload req')
              /\ Payload req' <> Payload req
              /\ exists c' evs out,
                   (forall fuel,
                       Do (S (S (S fuel))) env c r w = Some (c', evs ++ EvSend req' :: w2, out))
                   /\ countEvents (isEscalation AuthModeWSSecurity) evs = 0%nat
                   /\ (countEvents isSend evs <= 1)%nat
                   /\ (countEvents isSend evs = 1%nat ->
                       exists resp',
                         transport env (sentRequests (EvSend req' :: w2)) = Some resp'
                         /\ StatusCode resp' = 401%Z)
                   /\ (forall req'', EvSend req'' ∈ evs ->
                                     ~ emitsElement "wsse:Security" (Payload req''))
                   /\ out <> Panic))
      /\ (unauthorized = true -> AuthMode c <> AuthModeNone \/ credentials c = false ->
          forall fuel,
            Do (S fuel) env c r w
            = Some (c1, EvSend req :: w, Fail (UnauthorizedError (FaultError f))))
      /\ (unauthorized = false ->
          forall fuel,
            Do (S fuel) env c r w = Some (c1, EvSend req :: w, Fail (FaultError f)))).
Proof.
  intros Hp Ht.
  pose proof (prepare_client _ _ _ _ _ _ Hp) as (Hm & Hu & Hpw & Hc & Hh).
  pose proof (prepare_Debug _ _ _ _ _ _ Hp) as Hdbg.
  split.
  { intros Hd Hb fuel. cbn [Do]. by rewrite Hp, Ht, Hdbg, Hd, Hb. }
  intros e b f Hread H401 Hd Hb Hf unauthorized.
  apply Z.eqb_neq in H401.
  assert (forall fuel,
             Do (S fuel) env c r w
             = if unauthorized
               then if (AuthMode c1 =? AuthModeNone)%Z && credentials c1
                    then Do fuel env (withAuthMode c1 AuthModeWSSecurity) r
                            (EvAuthMode (AuthMode c1) AuthModeWSSecurity :: EvSend req :: w)
                    else Some (c1, EvSend req :: w, Fail (UnauthorizedError (FaultError f)))
               else Some (c1, EvSend req :: w, Fail (FaultError f))) as HDo.
  { intros fuel. cbn [Do]. rewrite Hp, Ht, Hdbg, Hread, H401, Hd, Hb, Hf. reflexivity. }
  split; [|split].
  - intros Hun Hnone Hcred. cbn zeta.
    set (c2 := withAuthMode c1 AuthModeWSSecurity).
    set (w2 := EvAuthMode (AuthMode c) AuthModeWSSecurity :: EvSend req :: w).
    assert (forall fuel, Do (S fuel) env c r w = Do fuel env c2 r w2) as Hre.
    { intros fuel. rewrite HDo, Hun, Hc, Hcred, Hm. unfold w2, c2. by rewrite Hnone. }
    assert (credentials c2 = true) as Hc2 by (by rewrite <- Hcred, <- Hc).
    assert (AuthMode c2 = AuthModeWSSecurity) as Hm2 by reflexivity.
    assert (HTTPClient c2 = Some (clientTransport c2)) as Hh2 by exact Hh.
    destruct (prepare_request _ _ _ _ _ _ Hp) as (buf & s0 & Hbuf & Hurl & Hreq & Hs0 & _).
    assert (s0 = None) as ->.
    { destruct s0 as [s0|]; [|reflexivity].
      destruct (proj1 Hs0) as [_ Hws]; [done|]. rewrite Hnone in Hws. discriminate. }
    assert (~ emitsElement "wsse:Security" (Payload req)) as Hplain.
    { rewrite Hreq. cbn [Payload]. rewrite Encode_Security. by intros []. }
    split; [exact Hre|]. split; [exact Hplain|]. split.
    + intros Hrand fuel. rewrite Hre. cbn [Do]. unfold prepare.
      change (credentials (withTransport c2 (clientTransport c2))) with (credentials c2).
      change (AuthMode (withTransport c2 (clientTransport c2))) with AuthModeWSSecurity.
      rewrite Hc2, Hrand. cbn. do 3 f_equal.
      unfold c2. destruct c1; simpl in *. by rewrite Hh.
    + intros src Hsrc.
      destruct (prepare_WSSecurity env r c2 w2 buf src) as (s & Hs & Hp2); try assumption.
      assert (Method req = "POST" /\ HTTPRequest_URL req = URL r
              /\ ContentType req = "application/soap+xml" /\ Via req = clientTransport c1)
        as (HM & HU & HC & HV) by (rewrite Hreq; repeat split).
      match type of Hp2 with
      | _ = (_, inr ?q) => set (req' := q) in *
      end.
      exists buf, s, req'. split; [exact Hbuf|]. split.
      { cbn [c2 withAuthMode Client_Username Client_Password] in Hs. by rewrite Hu, Hpw in Hs. }
      rewrite HM, HU, HC, HV. split; [reflexivity|]. split; [exact Hp2|].
      assert (emitsElement "wsse:Security"
                (IRaw (bytes_of_string xmlHeader)
                 :: Encode (marshalOrder env (length w2) (Request_Namespaces r))
                      (mkEnvelope (Request_Namespaces r) (Some (mkHeader (Some s)))
                                  (Some (mkBody None buf))))) as Hin
        by (by apply Encode_Security).
      split; [exact Hin|]. split.
      { cbn [Payload]. intros Heq. apply Hplain. rewrite <- Heq. exact Hin. }
      pose proof (pass_spec env r c2 w2) as Hspec.
      destruct (pass env c2 r w2) as [c' w' out|c3 w3|] eqn:Hpass; [| |done].
      * destruct (pass_Done_sent _ _ _ _ _ _ _ _ _ Hp2 Hpass) as [-> ->].
        exists c2, [], out. split.
        { intros fuel. by rewrite Hre, Do_pass, Hpass. }
        split; [reflexivity|]. split; [simpl; lia|]. split; [discriminate|].
        split; [intros ? Hx; inversion Hx | apply Hspec].
      * destruct (pass_Again_sent _ _ _ _ _ _ _ _ Hp2 Hpass)
          as [(Hx & _)|(resp' & Ht' & H401' & -> & ->)]; [discriminate Hx|].
        destruct (escalateDigest_client c2 resp') as (Hm3 & Hu3 & Hp3 & Hc3 & Ht3 & Hh3).
        pose proof (prepare_Digest env r (escalateDigest c2 resp')
                      (EvAuthMode (AuthMode c2) AuthModeDigest :: EvSend req' :: w2) buf
                      (eq_trans Hc3 Hc2) Hm3 Ht3 Hh3 Hbuf Hurl) as Hp3'.
        destruct (pass_Digest env r _ _ _ _ Hm3 Hp3') as (out & Hpass3 & Hout).
        eexists (escalateDigest c2 resp'),
          [EvSend _; EvAuthMode (AuthMode c2) AuthModeDigest], out.
        split.
        { intros fuel. rewrite Hre, Do_pass, Hpass, Do_pass, Hpass3. reflexivity. }
        split; [reflexivity|]. split; [simpl; lia|]. split; [intros _; by exists resp'|].
        split; [|exact Hout].
        intros req'' Hin'. apply elem_of_cons in Hin' as [[= ->]|Hin'].
        { cbn [Payload]. rewrite Encode_Security. by intros []. }
        apply list_elem_of_singleton in Hin'. discriminate Hin'.
  - intros Hun Hor fuel. rewrite HDo, Hun, Hm, Hc.
    destruct Hor as [Hne | ->]; [|by rewrite andb_false_r].
    apply Z.eqb_neq in Hne. by rewrite Hne.
  - intros Hun fuel. by rewrite HDo, Hun.
Qed.

Lemma Do_fault_witness :
  exists c1 req,
    prepare (serverEnv [responseNotAuthorized; responseOK]) (adminClient AuthModeNone)
            servicesRequest [] = (c1, inr req)
    /\ (forall fuel,
          Do (S fuel) (serverEnv [responseNotAuthorized; responseOK]) (adminClient AuthModeNone)
             servicesRequest []
          = Do fuel (serverEnv [responseNotAuthorized; responseOK])
               (withAuthMode c1 AuthModeWSSecurity) servicesRequest
               [EvAuthMode AuthModeNone AuthModeWSSecurity; EvSend req])
    /\ exists req' c' evs out,
         emitsElement "wsse:Security" (Payload req')
         /\ Do 3 (serverEnv [responseNotAuthorized; responseOK]) (adminClient AuthModeNone)
               servicesRequest []
            = Some (c', evs ++ [EvSend req'; EvAuthMode AuthModeNone AuthModeWSSecurity;
                                EvSend req], out)
         /\ countEvents (isEscalation AuthModeWSSecurity) evs = 0%nat
         /\ (countEvents isSend evs <= 1)%nat.
Proof.
  edestruct (Do_fault (serverEnv [responseNotAuthorized; responseOK])
               (adminClient AuthModeNone) servicesRequest []) as [_ Hread];
    [vm_compute; reflexivity | vm_compute; reflexivity |].
  edestruct Hread as [Hesc _];
    [reflexivity | discriminate | vm_compute; reflexivity | reflexivity | reflexivity |].
  destruct Hesc as (Hre & _ & _ & Hsrc);
    [vm_compute; reflexivity | reflexivity | reflexivity |].
  destruct (Hsrc zeroSource eq_refl)
    as (buf & s & req' & _ & _ & _ & _ & Hin & _ & c' & evs & out & HDo & Hw & Hs & _).
  eexists _, _. split; [vm_compute; reflexivity|]. split; [exact Hre|].
  exists req', c', evs, out. split; [exact Hin|]. split; [exact (HDo 0%nat)|].
  split; [exact Hw | exact Hs].
Defined.

(** ** The scenarios of the specification, evaluated *)
Section Scenarios.

Example classify_Sender :
  IsUnauthorizedError (map_to_list (Fault_Namespaces exampleFault)) exampleFault = true.
Proof. vm_compute. reflexivity. Qed.

Example classify_Receiver :
  IsUnauthorizedError (map_to_list (Fault_Namespaces exampleFault))
                      (setCode "soapenv:Receiver" exampleFault) = false.
Proof. vm_compute. reflexivity. Qed.

(** A: no authentication needed: one request, the envelope returned. *)
Example scenario_A :
  exists c' req e,
    Do 3 (serverEnv [responseOK]) (adminClient AuthModeNone) servicesRequest []
    = Some (c', [EvSend req], Return e)
    /\ AuthMode c' = AuthModeNone.
Proof. eexists _, _, _. split; [vm_compute; reflexivity | reflexivity]. Qed.

(** B: an HTTP 401, then success: the mode becomes digest, two requests. *)
Example scenario_B :
  exists c' req1 req2 e,
    Do 3 (serverEnv [response401; responseOK]) (adminClient AuthModeNone) servicesRequest []
    = Some (c', [EvSend req2; EvAuthMode AuthModeNone AuthModeDigest; EvSend req1], Return e)
    /\ AuthMode c' = AuthModeDigest.
Proof. eexists _, _, _, _. split; [vm_compute; reflexivity | reflexivity]. Qed.

(** C: an unauthorized fault, then success: the mode becomes WS-Security,
    two requests, the second with a security header. *)
Example scenario_C :
  exists c' req1 req2 e,
    Do 3 (serverEnv [responseNotAuthorized; responseOK]) (adminClient AuthModeNone)
       servicesRequest []
    = Some (c', [EvSend req2; EvAuthMode AuthModeNone AuthModeWSSecurity; EvSend req1],
            Return e)
    /\ AuthMode c' = AuthModeWSSecurity
    /\ ~ emitsElement "wsse:Security" (Payload req1)
    /\ emitsElement "wsse:Security" (Payload req2).
Proof.
  eexists _, _, _, _. split; [vm_compute; reflexivity|].
  split; [reflexivity|]. split.
  - intros [attr Hin]. cbn [Payload] in Hin. rewrite !elem_of_cons in Hin.
    repeat (destruct Hin as [Hin|Hin]; [discriminate|]). by inversion Hin.
  - eexists. cbn [Payload].
    repeat first [apply list_elem_of_here | apply list_elem_of_further].
Qed.

(** D: in digest mode an HTTP 401 is final: one request, an
    [UnauthorizedError]. *)
Example scenario_D :
  exists c' req,
    Do 3 (serverEnv [response401; responseOK]) (adminClient AuthModeDigest) servicesRequest []
    = Some (c', [EvSend req], Fail (UnauthorizedError (ErrorsNew "401 Unauthorized")))
    /\ AuthMode c' = AuthModeDigest.
Proof. eexists _, _. split; [vm_compute; reflexivity | reflexivity]. Qed.

(** A fault that is not an authorization fault is returned as it is. *)
Example scenario_other_fault :
  exists c' req f,
    Do 3 (serverEnv [responseReceiverFault; responseOK]) (adminClient AuthModeNone)
       servicesRequest []
    = Some (c', [EvSend req], Fail (FaultError f))
    /\ Code f = "env:Receiver" /\ SubCode f = "ter:NotAuthorized".
Proof. eexists _, _, _. split; [vm_compute; reflexivity | split; reflexivity]. Qed.

(** Without credentials an unauthorized fault is not retried. *)
Example scenario_anonymous :
  exists c' req f,
    Do 3 (serverEnv [responseNotAuthorized; responseOK]) (anonymousClient AuthModeNone)
       servicesRequest []
    = Some (c', [EvSend req], Fail (UnauthorizedError (FaultError f))).
Proof. eexists _, _, _. vm_compute. reflexivity. Qed.

(** An empty payload is reported, whatever the target type. *)
Example Unmarshal_empty (V : Type) (decode : list byte -> error + V) :
  Unmarshal decode (mkBody None []) = inl (Errorf "body is empty" ErrNoResponse).
Proof. reflexivity. Qed.

End Scenarios.

(** * More properties of the packages *)

(** ** What a successful decode has read *)
Section Grammar.

Lemma between_fuel fuel : forall ls,
  (length ls <= fuel)%nat -> between fuel ls = between (length ls) ls.
Proof.
  induction fuel as [fuel IH] using lt_wf_ind. intros ls Hlen.
  destruct ls as [|l ls]; [by destruct fuel|].
  destruct fuel as [|fuel]; [simpl in Hlen; lia|]. simpl in *.
  destruct (tok l); try (rewrite (IH fuel); [reflexivity | lia | lia]).
  destruct (readElement 0 ls) as [[inner rest]|] eqn:E; [|reflexivity].
  apply readElement_length in E.
  rewrite (IH fuel), (IH (length ls)); try reflexivity; lia.
Qed.

Lemma betweenChildren_start l t ls content tail :
  tok l = TokStartElement t ->
  readElement 0 ls = Some (content, tail) ->
  betweenChildren (l :: ls) = betweenChildren tail.
Proof.
  intros Hl Hr. unfold betweenChildren. simpl. rewrite Hl, Hr.
  apply between_fuel. apply readElement_length in Hr. lia.
Qed.

Lemma betweenChildren_skip l ls :
  (forall t, tok l <> TokStartElement t) ->
  betweenChildren (l :: ls) = tok l :: betweenChildren ls.
Proof.
  intros Hl. unfold betweenChildren. simpl. destruct (tok l); try reflexivity.
  by destruct (Hl t).
Qed.

(** The loop returns without error exactly when the root element holds
    nothing but [Header] and [Body] elements and white space. *)
Lemma tokenLoop_succeeds fuel : forall e inner l rest,
  (exists n, tok l = TokEndElement n) ->
  nesting inner 0 = Some 0%nat ->
  (length inner < fuel)%nat ->
  (exists e' d', tokenLoop fuel e (inner ++ l :: rest) = Some (e', d', None))
  <-> (forall c, c ∈ childElements inner -> Local c.1 = "Header" \/ Local c.1 = "Body")
      /\ (forall t, t ∈ betweenChildren inner -> isWhiteSpace t).
Proof.
  induction fuel as [|fuel IH]; intros e inner l rest Hl Hn Hlen; [lia|].
  destruct inner as [|x inner].
  - simpl. destruct Hl as [n ->]. split; [|by eauto].
    intros _. split; intros ? Hin; inversion Hin.
  - simpl in Hn, Hlen. cbn [app tokenLoop DecoderToken]. destruct (tok x) eqn:Htok.
    + destruct (readElement_close inner 0 0 Hn) as (content & tail & Hr & Ht).
      pose proof (Hr []) as Hr0. rewrite !app_nil_r in Hr0.
      pose proof (readElement_length _ _ _ _ Hr0) as Hshort.
      rewrite (childElements_start x t inner content tail Htok Hr0).
      rewrite (betweenChildren_start x t inner content tail Htok Hr0).
      rewrite (Hr (l :: rest)).
      assert (forall P : Prop,
                 ((forall c, c ∈ childElements tail ->
                             Local c.1 = "Header" \/ Local c.1 = "Body") /\ P)
                 -> Local (StartName t) = "Header" \/ Local (StartName t) = "Body"
                 -> (forall c, c ∈ (StartName t, content) :: childElements tail ->
                               Local c.1 = "Header" \/ Local c.1 = "Body") /\ P) as Hcons.
      { intros P [Hc HP] Ht'. split; [|exact HP].
        intros c Hin. apply elem_of_cons in Hin as [-> | Hin]; [exact Ht' | by apply Hc]. }
      case_bool_decide as HH.
      { rewrite (IH _ tail l rest Hl Ht) by lia. split.
        - intros Hc. apply Hcons; [exact Hc | by left].
        - intros [Hc Hb]. split; [|exact Hb].
          intros c Hin. apply Hc. by apply list_elem_of_further. }
      case_bool_decide as HB.
      { rewrite (IH _ tail l rest Hl Ht) by lia. split.
        - intros Hc. apply Hcons; [exact Hc | by right].
        - intros [Hc Hb]. split; [|exact Hb].
          intros c Hin. apply Hc. by apply list_elem_of_further. }
      split; [by intros (? & ? & [=])|].
      intros [Hc _]. destruct (Hc (StartName t, content)); [apply list_elem_of_here | done | done].
    + discriminate.
    + rewrite childElements_skip, betweenChildren_skip
        by (intros t; rewrite Htok; discriminate).
      rewrite Htok. destruct (allSpace data) eqn:Hsp.
      * rewrite (IH e inner l rest Hl Hn) by lia. split.
        -- intros [Hc Hb]. split; [exact Hc|].
           intros t Hin. apply elem_of_cons in Hin as [-> | Hin]; [by exists data | by apply Hb].
        -- intros [Hc Hb]. split; [exact Hc|].
           intros t Hin. apply Hb. by apply list_elem_of_further.
      * split; [by intros (? & ? & [=])|].
        intros [_ Hb]. destruct (Hb (TokCharData data)) as (data' & [= <-] & Hsp');
          [apply list_elem_of_here | congruence].
    + rewrite betweenChildren_skip by (intros t; rewrite Htok; discriminate).
      rewrite Htok. split; [by intros (? & ? & [=])|].
      intros [_ Hb]. destruct (Hb (TokComment data)) as (? & [=] & _). apply list_elem_of_here.
    + rewrite betweenChildren_skip by (intros t; rewrite Htok; discriminate).
      rewrite Htok. split; [by intros (? & ? & [=])|].
      intros [_ Hb]. destruct (Hb (TokProcInst target inst)) as (? & [=] & _).
      apply list_elem_of_here.
    + rewrite betweenChildren_skip by (intros t; rewrite Htok; discriminate).
      rewrite Htok. split; [by intros (? & ? & [=])|].
      intros [_ Hb]. destruct (Hb (TokDirective data)) as (? & [=] & _). apply list_elem_of_here.
Qed.

(** When the loop returns without error it has read the children of the
    root in order, and leaves the decoder right after the root's end. *)
Lemma tokenLoop_reads fuel : forall e inner l rest e' d',
  (exists n, tok l = TokEndElement n) ->
  nesting inner 0 = Some 0%nat ->
  tokenLoop fuel e (inner ++ l :: rest) = Some (e', d', None) ->
  e' = readChildren e (childElements inner) /\ d' = rest.
Proof.
  induction fuel as [|fuel IH]; intros e inner l rest e' d' Hl Hn; [discriminate|].
  destruct inner as [|x inner].
  - simpl. destruct Hl as [n ->]. by intros [= <- <-].
  - simpl in Hn. cbn [app tokenLoop DecoderToken]. destruct (tok x) eqn:Htok.
    + destruct (readElement_close inner 0 0 Hn) as (content & tail & Hr & Ht).
      pose proof (Hr []) as Hr0. rewrite !app_nil_r in Hr0.
      rewrite (childElements_start x t inner content tail Htok Hr0).
      rewrite (Hr (l :: rest)). unfold readChildren. cbn [foldl fst snd].
      case_bool_decide as HH; [by apply IH|].
      case_bool_decide as HB; [by apply IH | discriminate].
    + discriminate.
    + rewrite childElements_skip by (intros t; rewrite Htok; discriminate).
      destruct (allSpace data); [by apply IH | discriminate].
    + discriminate.
    + discriminate.
    + discriminate.
Qed.

Lemma readChildren_Namespaces cs : forall e, Namespaces (readChildren e cs) = Namespaces e.
Proof.
  unfold readChildren. induction cs as [|c cs IH]; intros e; [reflexivity|].
  simpl. rewrite IH. by repeat case_bool_decide.
Qed.

Lemma readChildren_snoc e cs c :
  readChildren e (cs ++ [c])
  = let e1 := readChildren e cs in
    if bool_decide (Local c.1 = "Header")
    then mkEnvelope (Namespaces e1) (Some (decodeHeader c.2)) (Envelope_Body e1)
    else if bool_decide (Local c.1 = "Body")
    then mkEnvelope (Namespaces e1) (Envelope_Header e1)
                    (Some (storedBody (Namespaces e1) c.2))
    else e1.
Proof. unfold readChildren. by rewrite foldl_app. Qed.

Lemma lastChild_snoc name cs c :
  lastChild name (cs ++ [c])
  = if bool_decide (Local c.1 = name) then Some c.2 else lastChild name cs.
Proof. unfold lastChild. by rewrite foldl_app. Qed.

(** Of several [Header] or [Body] children the last one is kept. *)
Lemma readChildren_last cs : forall e,
  Envelope_Header (readChildren e cs)
  = match lastChild "Header" cs with
    | Some content => Some (decodeHeader content)
    | None => Envelope_Header e
    end
  /\ Envelope_Body (readChildren e cs)
     = match lastChild "Body" cs with
       | Some content => Some (storedBody (Namespaces e) content)
       | None => Envelope_Body e
       end.
Proof.
  induction cs as [|c cs IH] using rev_ind; intros e; [by split|].
  rewrite readChildren_snoc, !lastChild_snoc. cbn zeta.
  destruct (IH e) as [IHh IHb]. rewrite readChildren_Namespaces.
  case_bool_decide as HH.
  - rewrite bool_decide_eq_false_2 by (rewrite HH; discriminate). by split.
  - case_bool_decide as HB; by split.
Qed.

End Grammar.

(** X1: for a root element whose content is [inner], [UnmarshalXML]
    returns without error if and only if every child element of the root
    is named [Header] or [Body] and every token between the children is
    white-space character data. *)
Theorem UnmarshalXML_succeeds_iff (e : Envelope) (start : StartElement)
    (inner : list Lexeme) (l : Lexeme) (rest : Decoder) :
  (exists n, tok l = TokEndElement n) ->
  nesting inner 0 = Some 0%nat ->
  (exists e' d', UnmarshalXML e (inner ++ l :: rest) start = Some (e', d', None))
  <-> (forall c, c ∈ childElements inner -> Local c.1 = "Header" \/ Local c.1 = "Body")
      /\ (forall t, t ∈ betweenChildren inner -> isWhiteSpace t).
Proof.
  intros Hl Hn. unfold UnmarshalXML. apply tokenLoop_succeeds; try assumption.
  rewrite length_app. simpl. lia.
Qed.

Lemma UnmarshalXML_succeeds_iff_witness :
  (exists e' d',
      UnmarshalXML newEnvelope (tidyContent ++ [closeTag "env" NamespaceEnvelope "Envelope"])
                   rootStart = Some (e', d', None))
  <-> (forall c, c ∈ childElements tidyContent -> Local c.1 = "Header" \/ Local c.1 = "Body")
      /\ (forall t, t ∈ betweenChildren tidyContent -> isWhiteSpace t).
Proof.
  apply (UnmarshalXML_succeeds_iff newEnvelope rootStart tidyContent
           (closeTag "env" NamespaceEnvelope "Envelope") []).
  - eexists. reflexivity.
  - reflexivity.
Defined.

(** X2: when [UnmarshalXML] on a fresh envelope returns without error, the
    envelope holds the namespaces declared on the root, the header decoded
    from the last [Header] child (none without one), and the body of the
    last [Body] child, whose payload is the source text of that child's
    content (the empty body without one); the decoder is left right after
    the root's end element. *)
Theorem UnmarshalXML_reads (start : StartElement) (inner : list Lexeme) (l : Lexeme)
    (rest : Decoder) (e' : Envelope) (d' : Decoder) :
  (exists n, tok l = TokEndElement n) ->
  nesting inner 0 = Some 0%nat ->
  UnmarshalXML newEnvelope (inner ++ l :: rest) start = Some (e', d', None) ->
  Namespaces e' = collectNamespaces ∅ (StartAttr start)
  /\ Envelope_Header e' = decodeHeader <$> lastChild "Header" (childElements inner)
  /\ Envelope_Body e'
     = Some (match lastChild "Body" (childElements inner) with
             | Some content => storedBody (Namespaces e') content
             | None => mkBody None []
             end)
  /\ (forall content, lastChild "Body" (childElements inner) = Some content ->
      exists b, Envelope_Body e' = Some b /\ InnerXML b = rawBytes content)
  /\ d' = rest.
Proof.
  intros Hl Hn H. unfold UnmarshalXML in H.
  apply tokenLoop_reads in H as [-> ->]; try assumption.
  rewrite readChildren_Namespaces.
  match goal with
  | |- context [readChildren ?e0 ?cs] => destruct (readChildren_last cs e0) as [Hh Hb]
  end.
  rewrite Hh, Hb. cbn [Namespaces Envelope_Header Envelope_Body newEnvelope].
  split; [reflexivity|]. split; [by destruct (lastChild "Header" _)|].
  split; [by destruct (lastChild "Body" _)|]. split; [|reflexivity].
  intros content ->. eexists. split; reflexivity.
Qed.

Lemma UnmarshalXML_reads_witness :
  exists e',
    Namespaces e' = collectNamespaces ∅ (StartAttr rootStart)
    /\ Envelope_Header e' = decodeHeader <$> lastChild "Header" (childElements tidyContent)
    /\ Envelope_Body e'
       = Some (match lastChild "Body" (childElements tidyContent) with
               | Some content => storedBody (Namespaces e') content
               | None => mkBody None []
               end)
    /\ (forall content, lastChild "Body" (childElements tidyContent) = Some content ->
        exists b, Envelope_Body e' = Some b /\ InnerXML b = rawBytes content)
    /\ @nil Lexeme = [].
Proof.
  eexists.
  eapply (UnmarshalXML_reads rootStart tidyContent
            (closeTag "env" NamespaceEnvelope "Envelope") []).
  - eexists. reflexivity.
  - reflexivity.
  - vm_compute. reflexivity.
Defined.

(** ** The namespace table *)
Section NamespaceTable.

Lemma collectNamespaces_app m attr1 attr2 :
  collectNamespaces m (attr1 ++ attr2) = collectNamespaces (collectNamespaces m attr1) attr2.
Proof. unfold collectNamespaces. apply foldl_app. Qed.

Lemma collectNamespaces_undeclared p attr : forall m,
  (forall a, a ∈ attr -> ~ declares p a) ->
  collectNamespaces m attr !! p = m !! p.
Proof.
  induction attr as [|a attr IH]; intros m Hno; [reflexivity|].
  change (collectNamespaces m (a :: attr))
    with (collectNamespaces
            (if bool_decide (ToLower (Space (AttrName a)) = "xmlns")
             then <[Local (AttrName a) := Value a]> m else m) attr).
  rewrite IH by (intros a' Hin; apply Hno; by apply list_elem_of_further).
  case_bool_decide as Hx; [|reflexivity].
  apply lookup_insert_ne. intros Heq. apply (Hno a); [apply list_elem_of_here | by split].
Qed.

End NamespaceTable.

(** X3: the namespace table [UnmarshalXML] collects maps a prefix to the
    value of the last attribute of the start element that declares it (an
    attribute whose name space is [xmlns] in any letter case and whose
    local name is the prefix), and leaves a prefix that no attribute
    declares as the receiver had it; other attributes are ignored. *)
Theorem collectNamespaces_lookup (m : gmap string string) (p : string) :
  (forall before a after,
      declares p a -> (forall a', a' ∈ after -> ~ declares p a') ->
      collectNamespaces m (before ++ a :: after) !! p = Some (Value a))
  /\ (forall attr,
         (forall a, a ∈ attr -> ~ declares p a) ->
         collectNamespaces m attr !! p = m !! p).
Proof.
  split; [|intros attr; apply collectNamespaces_undeclared].
  intros before a after [Hx Hl] Hno.
  rewrite collectNamespaces_app.
  change (collectNamespaces (collectNamespaces m before) (a :: after))
    with (collectNamespaces
            (if bool_decide (ToLower (Space (AttrName a)) = "xmlns")
             then <[Local (AttrName a) := Value a]> (collectNamespaces m before)
             else collectNamespaces m before) after).
  rewrite (collectNamespaces_undeclared _ _ _ Hno).
  rewrite bool_decide_eq_true_2 by exact Hx. rewrite Hl. apply lookup_insert_eq.
Qed.

Lemma collectNamespaces_lookup_witness :
  collectNamespaces ∅ (StartAttr rootStart) !! "env" = Some NamespaceDevice.
Proof.
  apply (proj1 (collectNamespaces_lookup ∅ "env")
           [mkAttr (mkName "xmlns" "env") NamespaceEnvelope; mkAttr (mkName "" "lang") "en"]
           (mkAttr (mkName "XMLNS" "env") NamespaceDevice) []).
  - split; reflexivity.
  - intros a' Hin. inversion Hin.
Defined.

(** ** Faults and their namespace table *)
Section FaultNamespaces.

Lemma tokenLoop_fault_namespaces fuel : forall e d e' d' err,
  (forall b f, Envelope_Body e = Some b -> Body_Fault b = Some f ->
               Fault_Namespaces f = Namespaces e) ->
  tokenLoop fuel e d = Some (e', d', err) ->
  Namespaces e' = Namespaces e
  /\ forall b f, Envelope_Body e' = Some b -> Body_Fault b = Some f ->
                 Fault_Namespaces f = Namespaces e'.
Proof.
  induction fuel as [|fuel IH]; intros e d e' d' err Hinv; [discriminate|].
  simpl. destruct d as [|l d]; simpl; [by intros [= <- _ _]|].
  destruct (tok l); try (by intros [= <- _ _]).
  - case_bool_decide.
    { destruct (readElement 0 d) as [[inner d2]|]; [|by intros [= <- _ _]].
      intros Hres. apply IH in Hres; [exact Hres | exact Hinv]. }
    case_bool_decide; [|by intros [= <- _ _]].
    destruct (readElement 0 d) as [[inner d2]|]; [|by intros [= <- _ _]].
    intros Hres. apply IH in Hres; [exact Hres|].
    simpl. intros b f [= <-]. simpl.
    match goal with |- context [_ <$> ?x] => destruct x end; simpl; [|discriminate].
    by intros [= <-].
  - destruct (allSpace data); [|by intros [= <- _ _]].
    intros Hres. by apply IH in Hres.
Qed.

End FaultNamespaces.

(** X4: whatever [Decode] returns, with or without an error, a fault in
    the envelope's body carries the envelope's own namespace table: the one
    the classifier resolves prefixes in. *)
Theorem Decode_fault_namespaces (d : Decoder) (e : Envelope) (err : option error)
    (b : Body) (f : Fault) :
  Decode d = Some (e, err) ->
  Envelope_Body e = Some b ->
  Body_Fault b = Some f ->
  Fault_Namespaces f = Namespaces e.
Proof.
  revert e err b f. induction d as [|l d IH]; intros e err b f; simpl.
  - intros [= <- _]. discriminate.
  - destruct (tok l); try apply IH.
    unfold UnmarshalXML.
    match goal with
    | |- context [tokenLoop ?fu ?e0 d] =>
        destruct (tokenLoop fu e0 d) as [[[e1 d1] err1]|] eqn:Hloop; [|discriminate];
        apply tokenLoop_fault_namespaces in Hloop as [_ Hinv]
    end.
    + intros [= <- _]. apply Hinv.
    + simpl. intros b0 f0 [= <-]. discriminate.
Qed.

Lemma Decode_fault_namespaces_witness :
  exists e b f,
    Decode notAuthorizedTokens = Some (e, None)
    /\ Envelope_Body e = Some b /\ Body_Fault b = Some f
    /\ Fault_Namespaces f = Namespaces e.
Proof.
  eexists _, _, _. split; [vm_compute; reflexivity|].
  split; [reflexivity|]. split; [reflexivity|].
  eapply (Decode_fault_namespaces notAuthorizedTokens _ None);
    [vm_compute; reflexivity | reflexivity | reflexivity].
Defined.

(** The body [UnmarshalXML] leaves in a fresh envelope. *)
Lemma UnmarshalXML_body (start : StartElement) (inner : list Lexeme) (l : Lexeme)
    (rest : Decoder) (e' : Envelope) (d' : Decoder) :
  (exists n, tok l = TokEndElement n) ->
  nesting inner 0 = Some 0%nat ->
  UnmarshalXML newEnvelope (inner ++ l :: rest) start = Some (e', d', None) ->
  Envelope_Body e'
  = Some (match lastChild "Body" (childElements inner) with
          | Some content => storedBody (Namespaces e') content
          | None => mkBody None []
          end).
Proof.
  intros Hl Hn H. unfold UnmarshalXML in H.
  apply tokenLoop_reads in H as [-> ->]; try assumption.
  rewrite readChildren_Namespaces.
  match goal with
  | |- context [readChildren ?e0 ?cs] => destruct (readChildren_last cs e0) as [Hh Hb]
  end.
  rewrite Hb. cbn [Namespaces Envelope_Header Envelope_Body newEnvelope].
  by destruct (lastChild "Body" _).
Qed.

(** X5: extracting the payload of a decoded envelope. When [UnmarshalXML]
    on a fresh envelope returns without error, [Unmarshal] on its body
    fails with [ErrNoResponse], without calling the decoder, if the root
    has no [Body] child or the last one has no content; otherwise it hands
    the decoder exactly the source text of that content. *)
Theorem Unmarshal_decoded (V : Type) (decode : list byte -> error + V)
    (start : StartElement) (inner : list Lexeme) (l : Lexeme) (rest : Decoder)
    (e' : Envelope) (d' : Decoder) :
  (exists n, tok l = TokEndElement n) ->
  nesting inner 0 = Some 0%nat ->
  UnmarshalXML newEnvelope (inner ++ l :: rest) start = Some (e', d', None) ->
  let payload := match lastChild "Body" (childElements inner) with
                 | Some content => rawBytes content
                 | None => []
                 end in
  exists b,
    Envelope_Body e' = Some b
    /\ (payload = [] -> Unmarshal decode b = inl (Errorf "body is empty" ErrNoResponse))
    /\ (payload <> [] ->
        Unmarshal decode b
        = match decode payload with
          | inl err => inl (Errorf "could not unmarshal" err)
          | inr v => inr v
          end).
Proof.
  intros Hl Hn H payload.
  pose proof (UnmarshalXML_body _ _ _ _ _ _ Hl Hn H) as Hb.
  eexists. split; [exact Hb|]. unfold Unmarshal, payload.
  destruct (lastChild "Body" (childElements inner)) as [content|];
    cbn [InnerXML storedBody]; split; intros Hp; try done.
  - by rewrite Hp.
  - rewrite bool_decide_eq_false_2; [reflexivity|]. by destruct (rawBytes content).
Qed.

Lemma Unmarshal_decoded_witness :
  exists b,
    Some (mkBody None []) = Some b
    /\ (@nil byte = [] ->
        Unmarshal (fun _ => inr tt) b = inl (Errorf "body is empty" ErrNoResponse))
    /\ (@nil byte <> [] ->
        Unmarshal (fun _ => inr tt) b
        = match (inr tt : error + unit) with
          | inl err => inl (Errorf "could not unmarshal" err)
          | inr v => inr v
          end).
Proof.
  apply (Unmarshal_decoded unit (fun _ => inr tt) rootStart [textToken " "]
           (closeTag "env" NamespaceEnvelope "Envelope") []
           (mkEnvelope (collectNamespaces ∅ (StartAttr rootStart)) None (Some (mkBody None [])))
           []).
  - eexists. reflexivity.
  - reflexivity.
  - vm_compute. reflexivity.
Defined.

(** ** What the encoder writes *)
Section Written.





End Written.


(** ** More on [Do] *)
Section MoreDo.

Variable env : Env.
Variable r : Request.

Lemma prepare_fields c w c1 x :
  prepare env c r w = (c1, x) ->
  Debug c1 = Debug c
  /\ (credentials c = true -> AuthMode c = AuthModeDigest ->
      isDigestTransport (clientTransport c1) = true).
Proof.
  unfold prepare. intros H.
  change (credentials (withTransport c (clientTransport c))) with (credentials c) in H.
  change (AuthMode (withTransport c (clientTransport c))) with (AuthMode c) in H.
  repeat case_match; simplify_eq; (split; [reflexivity|]); intros Hc Hm; try done;
    rewrite Hm in *; done.
Qed.

(** What a pass keeps of the client, and what it adds to the trace. *)
Lemma pass_keeps c w :
  match pass env c r w with
  | Done c' w' out =>
      Client_Username c' = Client_Username c /\ Client_Password c' = Client_Password c
      /\ Debug c' = Debug c /\ HTTPClient c' <> None
      /\ (credentials c' = true -> AuthMode c' = AuthModeDigest ->
          isDigestTransport (clientTransport c') = true)
      /\ (w' = w /\ (exists err, out = Fail err)
          \/ exists req, w' = EvSend req :: w /\ requestOf r req)
      /\ (forall e, out = Return e ->
          exists b, Envelope_Body e = Some b /\ Body_Fault b = None)
  | Again c' w' =>
      Client_Username c' = Client_Username c /\ Client_Password c' = Client_Password c
      /\ Debug c' = Debug c /\ HTTPClient c' <> None
      /\ exists req m, w' = EvAuthMode (AuthMode c) m :: EvSend req :: w /\ requestOf r req
  | OutOfFuel => True
  end.
Proof.
  unfold pass. destruct (prepare env c r w) as [c1 [err|req]] eqn:Hp;
    pose proof (prepare_client _ _ _ _ _ _ Hp) as (Hm & Hu & Hpw & Hc & Hh);
    pose proof (prepare_fields _ _ _ _ Hp) as (Hd & Hdig).
  { repeat split; try assumption; try (by rewrite Hh); try discriminate.
    - intros Hc' Hm'. apply Hdig; congruence.
    - left. eauto. }
  assert (requestOf r req) as Hreq.
  { apply prepare_request in Hp as (buf & s & Hbuf & _ & -> & _).
    repeat split. eauto. }
  assert (forall out,
             (forall e, out = Return e ->
                        exists b, Envelope_Body e = Some b /\ Body_Fault b = None) ->
             Client_Username c1 = Client_Username c /\ Client_Password c1 = Client_Password c
             /\ Debug c1 = Debug c /\ HTTPClient c1 <> None
             /\ (credentials c1 = true -> AuthMode c1 = AuthModeDigest ->
                 isDigestTransport (clientTransport c1) = true)
             /\ (EvSend req :: w = w /\ (exists err, out = Fail err)
                 \/ exists req0, EvSend req :: w = EvSend req0 :: w /\ requestOf r req0)
             /\ (forall e, out = Return e ->
                 exists b, Envelope_Body e = Some b /\ Body_Fault b = None)) as HDone.
  { intros out Hout. repeat split; try assumption; try (by rewrite Hh).
    - intros Hc' Hm'. apply Hdig; congruence.
    - right. eauto. }
  destruct (transport env (sentRequests (EvSend req :: w))) as [resp|];
    [|by apply HDone].
  destruct (Debug c1 && BodyErr resp); [by apply HDone|].
  destruct (StatusCode resp =? 401)%Z.
  - destruct (negb (AuthMode c1 =? AuthModeDigest)%Z && credentials c1);
      [|by apply HDone].
    destruct (escalateDigest_client c1 resp) as (_ & Hu2 & Hp2 & _ & _ & Hh2).
    rewrite Hu2, Hp2, Hh2, Hm. repeat split; try assumption; try done.
    + rewrite <- Hd. unfold escalateDigest. by destruct (isDigestTransport _).
    + do 2 eexists. split; [reflexivity|exact Hreq].
  - destruct (Decode (Response_Body resp)) as [[e [err|]]|]; [by apply HDone| |done].
    destruct (Envelope_Body e) as [b|] eqn:Hb; [|by apply HDone].
    destruct (Body_Fault b) as [fault|] eqn:Hf.
    + destruct (IsUnauthorizedError _ fault); [|by apply HDone].
      destruct ((AuthMode c1 =? AuthModeNone)%Z && credentials c1); [|by apply HDone].
      rewrite Hm. repeat split; simpl; try assumption; try (by rewrite Hh).
      do 2 eexists. split; [reflexivity|exact Hreq].
    + apply HDone. intros e0 [= <-]. eauto.
Qed.

(** What a call keeps of the client and adds to the trace. *)
Lemma Do_keeps fuel : forall c w c' w' out,
  Do fuel env c r w = Some (c', w', out) ->
  Client_Username c' = Client_Username c /\ Client_Password c' = Client_Password c
  /\ Debug c' = Debug c /\ HTTPClient c' <> None
  /\ (credentials c' = true -> AuthMode c' = AuthModeDigest ->
      isDigestTransport (clientTransport c') = true)
  /\ (exists evs,
         w' = evs ++ w
         /\ (forall req, EvSend req ∈ evs -> requestOf r req)
         /\ (countEvents isModeChange evs <= countEvents isSend evs
             <= S (countEvents isModeChange evs))%nat
         /\ (countEvents isSend evs = countEvents isModeChange evs ->
             exists err, out = Fail err))
  /\ (forall e, out = Return e -> exists b, Envelope_Body e = Some b /\ Body_Fault b = None).
Proof.
  induction fuel as [|fuel IH]; intros c w c' w' out; [discriminate|].
  rewrite Do_pass. pose proof (pass_keeps c w) as Hp.
  destruct (pass env c r w) as [c1 w1 out1|c1 w1|]; [| |discriminate].
  - intros [= <- <- <-].
    destruct Hp as (Hu & Hpw & Hd & Hh & Hdig & Hw & Hout).
    repeat split; try assumption.
    destruct Hw as [[-> Herr]|(req & -> & Hreq)].
    + exists []. split; [reflexivity|]. split; [|simpl; split; [lia|by intros _]].
      intros req Hin. inversion Hin.
    + exists [EvSend req]. split; [reflexivity|].
      split; [|simpl; split; [lia|discriminate]].
      intros req0 Hin. apply list_elem_of_singleton in Hin. by injection Hin as ->.
  - intros H. apply IH in H as (Hu & Hpw & Hd & Hh & Hdig & (evs & -> & Hreqs & Hcnt & Heq) & Hout).
    destruct Hp as (Hu1 & Hpw1 & Hd1 & _ & req & m & -> & Hreq).
    repeat split; try congruence; try assumption.
    exists (evs ++ [EvAuthMode (AuthMode c) m; EvSend req]).
    rewrite !countEvents_app. simpl.
    split; [by rewrite <- app_assoc|]. split; [|split; [lia|]].
    + intros req0 Hin. apply elem_of_app in Hin as [Hin|Hin]; [by apply Hreqs|].
      apply elem_of_cons in Hin as [Hin|Hin]; [discriminate|].
      apply list_elem_of_singleton in Hin. by injection Hin as ->.
    + intros Hc. apply Heq. lia.
Qed.

End MoreDo.

Section Sent.

Variable env : Env.
Variable r : Request.

Lemma prepare_fails_iff c w :
  (exists err, (prepare env c r w).2 = inl err) <-> cannotPrepare env c r w.
Proof.
  unfold prepare, cannotPrepare.
  change (credentials (withTransport c (clientTransport c))) with (credentials c).
  change (AuthMode (withTransport c (clientTransport c))) with (AuthMode c).
  unfold NewSecurity.
  destruct (Request_Body r) as [buf|] eqn:Hb; destruct (urlOK env (URL r)) eqn:Hu;
    destruct (credentials c) eqn:Hc;
    destruct (Z.eqb_spec (AuthMode c) AuthModeNone) as [H0|H0];
    destruct (Z.eqb_spec (AuthMode c) AuthModeWSSecurity) as [H2|H2];
    destruct (Z.eqb_spec (AuthMode c) AuthModeDigest) as [H1|H1];
    destruct (randRead env (length w)) as [src|] eqn:Hr;
    try (exfalso; unfold AuthModeNone, AuthModeWSSecurity, AuthModeDigest in *; lia);
    try match goal with |- context [isDigestTransport ?t] => destruct (isDigestTransport t) end;
    cbn [snd negb];
    (split;
     [ intros [err H]; try discriminate H;
       first [ left; reflexivity
             | right; left; reflexivity
             | right; right; split; [reflexivity|]; left; by repeat split
             | right; right; split; [reflexivity|]; right; by split ]
     | intros Hcond;
       first [ eexists; reflexivity
             | exfalso;
               destruct Hcond as [Hx|[Hx|[Hx [(Hx0 & Hx2 & Hx1)|(Hx2 & Hxr)]]]];
               congruence ] ]).
Qed.

Lemma pass_Return c w c' w' e :
  pass env c r w = Done c' w' (Return e) ->
  exists resp,
    transport env (sentRequests w') = Some resp /\ StatusCode resp <> 401%Z
    /\ Decode (Response_Body resp) = Some (e, None).
Proof.
  unfold pass. destruct (prepare env c r w) as [c1 [err|req]]; [discriminate|].
  destruct (transport env (sentRequests (EvSend req :: w))) as [resp|] eqn:Ht; [|discriminate].
  destruct (Debug c1 && BodyErr resp); [discriminate|].
  destruct (StatusCode resp =? 401)%Z eqn:H401; [by case_match|].
  apply Z.eqb_neq in H401.
  destruct (Decode (Response_Body resp)) as [[e' [err|]]|] eqn:Hd; try discriminate.
  repeat case_match; try discriminate. intros [= <- <- <-]. eauto.
Qed.

Lemma Do_Return fuel : forall c w c' w' e,
  Do fuel env c r w = Some (c', w', Return e) ->
  exists resp,
    transport env (sentRequests w') = Some resp /\ StatusCode resp <> 401%Z
    /\ Decode (Response_Body resp) = Some (e, None).
Proof.
  induction fuel as [|fuel IH]; intros c w c' w' e; [discriminate|].
  rewrite Do_pass. destruct (pass env c r w) as [c1 w1 out1|c1 w1|] eqn:Hp; [| |discriminate].
  - intros [= <- <- ->]. by eapply pass_Return.
  - apply IH.
Qed.

Lemma Do_grows fuel : forall c w c' w' out,
  Do fuel env c r w = Some (c', w', out) -> (length w <= length w')%nat.
Proof.
  induction fuel as [|fuel IH]; intros c w c' w' out; [discriminate|].
  rewrite Do_pass. pose proof (pass_spec env r c w) as Hs.
  destruct (pass env c r w) as [c1 w1 out1|c1 w1|]; [| |discriminate].
  - intros [= <- <- <-]. destruct Hs as (_ & _ & [->|[req ->]] & _); simpl; lia.
  - intros H. apply IH in H.
    destruct Hs as (_ & _ & req & [(_ & _ & ->)|(_ & _ & ->)]); simpl in H; lia.
Qed.

Lemma Do_nothing_sent fuel c w c' w' out :
  Do fuel env c r w = Some (c', w', out) ->
  w' = w <-> cannotPrepare env c r w.
Proof.
  destruct fuel as [|fuel]; [discriminate|].
  rewrite Do_pass, <- prepare_fails_iff.
  pose proof (pass_spec env r c w) as Hs.
  destruct (pass env c r w) as [c2 w2 out2|c2 w2|] eqn:Hpass; [| |discriminate].
  - intros [= <- <- <-].
    destruct (prepare env c r w) as [c1 [err|req]] eqn:Hp.
    + unfold pass in Hpass. rewrite Hp in Hpass. injection Hpass as _ <- _.
      split; eauto.
    + destruct (pass_Done_sent _ _ _ _ _ _ _ _ _ Hp Hpass) as [_ ->]. simpl.
      split; [|intros [? [=]]].
      intros Hw. apply (f_equal length) in Hw. simpl in Hw. lia.
  - intros H. apply Do_grows in H.
    assert (length w < length w')%nat as Hlen.
    { destruct Hs as (_ & _ & req' & [(_ & _ & ->)|(_ & _ & ->)]); simpl in H; lia. }
    split; [intros ->; lia|].
    unfold pass in Hpass. destruct (prepare env c r w) as [c1 [err|req]]; [discriminate|].
    intros [? [=]].
Qed.

End Sent.

Lemma prepare_Security_iff_aux (env : Env) (c : Client) (r : Request) (w : list Event)
    (c1 : Client) (req : HTTPRequest) :
  prepare env c r w = (c1, inr req) ->
  emitsElement "wsse:Security" (Payload req)
  <-> credentials c = true /\ AuthMode c = AuthModeWSSecurity.
Proof.
  intros Hp. apply prepare_request in Hp as (buf & s & _ & _ & -> & Hs & _).
  cbn [Payload]. by rewrite Encode_Security.
Qed.

(** X7: the request [Do] builds carries a [wsse:Security] element exactly
    when both credentials are set and the mode is WS-Security: in the other
    modes, and without credentials, no password digest is written. *)
Theorem prepare_Security_iff (env : Env) (c : Client) (r : Request) (w : list Event)
    (c1 : Client) (req : HTTPRequest) :
  prepare env c r w = (c1, inr req) ->
  emitsElement "wsse:Security" (Payload req)
  <-> credentials c = true /\ AuthMode c = AuthModeWSSecurity.
Proof.
  apply prepare_Security_iff_aux.
Qed.

Lemma prepare_Security_iff_witness :
  exists c1 req,
    prepare (serverEnv []) (adminClient AuthModeWSSecurity) servicesRequest [] = (c1, inr req)
    /\ (emitsElement "wsse:Security" (Payload req)
        <-> credentials (adminClient AuthModeWSSecurity) = true
            /\ AuthMode (adminClient AuthModeWSSecurity) = AuthModeWSSecurity).
Proof.
  eexists _, _. split; [vm_compute; reflexivity|].
  eapply (prepare_Security_iff (serverEnv []) (adminClient AuthModeWSSecurity)
           servicesRequest []).
  vm_compute. reflexivity.
Defined.

(** X8: whatever happens during a call, [Do] leaves the client's user name,
    password and debug flag as they were and its HTTP client set; and a
    client it leaves in digest mode with credentials has the digest
    transport installed. *)
Theorem Do_client_kept (env : Env) (c : Client) (r : Request) (w : list Event)
    (fuel : nat) (c' : Client) (w' : list Event) (out : Outcome) :
  Do fuel env c r w = Some (c', w', out) ->
  Client_Username c' = Client_Username c /\ Client_Password c' = Client_Password c
  /\ Debug c' = Debug c /\ HTTPClient c' <> None
  /\ (credentials c' = true -> AuthMode c' = AuthModeDigest ->
      isDigestTransport (clientTransport c') = true).
Proof.
  intros H. apply Do_keeps in H as (Hu & Hp & Hd & Hh & Hdig & _). by repeat split.
Qed.

Lemma Do_client_kept_witness :
  exists c' w' out,
    Do 3 (serverEnv [responseNotAuthorized; response401; responseOK])
       (adminClient AuthModeNone) servicesRequest [] = Some (c', w', out)
    /\ Client_Username c' = "admin" /\ Client_Password c' = "12345"
    /\ Debug c' = false /\ HTTPClient c' <> None
    /\ (credentials c' = true -> AuthMode c' = AuthModeDigest ->
        isDigestTransport (clientTransport c') = true).
Proof.
  eexists _, _, _. split; [vm_compute; reflexivity|].
  eapply (Do_client_kept (serverEnv [responseNotAuthorized; response401; responseOK])
           (adminClient AuthModeNone) servicesRequest [] 3).
  vm_compute. reflexivity.
Defined.

(** X9: every request a call of [Do] sends is a POST to the URL of [r],
    of content type application/soap+xml, whose body is the XML header
    followed by the envelope with [r]'s namespaces, a header and [r]'s
    payload. Each change of the mode follows a request, so the requests
    outnumber the changes by at most one, and a call whose requests are all
    followed by a change ends in an error. *)
Theorem Do_requests (env : Env) (c : Client) (r : Request) (w : list Event)
    (fuel : nat) (c' : Client) (w' : list Event) (out : Outcome) :
  Do fuel env c r w = Some (c', w', out) ->
  exists evs,
    w' = evs ++ w
    /\ (forall req, EvSend req ∈ evs -> requestOf r req)
    /\ (countEvents isModeChange evs <= countEvents isSend evs
        <= S (countEvents isModeChange evs))%nat
    /\ (countEvents isSend evs = countEvents isModeChange evs -> exists err, out = Fail err).
Proof.
  intros H. by apply Do_keeps in H as (_ & _ & _ & _ & _ & Hevs & _).
Qed.

Lemma Do_requests_witness :
  exists c' w' out evs,
    Do 3 (serverEnv [responseNotAuthorized; response401; responseOK])
       (adminClient AuthModeNone) servicesRequest [] = Some (c', w', out)
    /\ w' = evs ++ []
    /\ (forall req, EvSend req ∈ evs -> requestOf servicesRequest req)
    /\ (countEvents isModeChange evs <= countEvents isSend evs
        <= S (countEvents isModeChange evs))%nat
    /\ (countEvents isSend evs = countEvents isModeChange evs -> exists err, out = Fail err).
Proof.
  destruct (Do_requests (serverEnv [responseNotAuthorized; response401; responseOK])
              (adminClient AuthModeNone) servicesRequest [] 3 _ _ _ eq_refl)
    as (evs & H).
  eexists _, _, _, evs. split; [reflexivity | exact H].
Defined.

(** X10: the envelope [Do] returns is what the answer to the last request
    sent decodes to; that answer is no HTTP 401, and the envelope has a body
    that carries no fault. *)
Theorem Do_Return_decoded (env : Env) (c : Client) (r : Request) (w : list Event)
    (fuel : nat) (c' : Client) (w' : list Event) (e : Envelope) :
  Do fuel env c r w = Some (c', w', Return e) ->
  (exists resp,
      transport env (sentRequests w') = Some resp /\ StatusCode resp <> 401%Z
      /\ Decode (Response_Body resp) = Some (e, None))
  /\ exists b, Envelope_Body e = Some b /\ Body_Fault b = None.
Proof.
  intros H. split; [by eapply Do_Return|].
  apply Do_keeps in H as (_ & _ & _ & _ & _ & _ & Hout). by apply Hout.
Qed.

Lemma Do_Return_decoded_witness :
  exists c' w' e,
    Do 3 (serverEnv [response401; responseOK]) (adminClient AuthModeNone)
       servicesRequest [] = Some (c', w', Return e)
    /\ (exists resp,
           transport (serverEnv [response401; responseOK]) (sentRequests w') = Some resp
           /\ StatusCode resp <> 401%Z
           /\ Decode (Response_Body resp) = Some (e, None))
    /\ exists b, Envelope_Body e = Some b /\ Body_Fault b = None.
Proof.
  eexists _, _, _. split; [vm_compute; reflexivity|].
  eapply (Do_Return_decoded (serverEnv [response401; responseOK]) (adminClient AuthModeNone)
           servicesRequest [] 3).
  vm_compute. reflexivity.
Defined.

(** X11: a call of [Do] sends nothing exactly when the request cannot be
    prepared: the body cannot be marshalled, the URL is rejected, or, with
    credentials, the mode is none of the three or the random source fails
    in WS-Security mode. In every other case at least one request goes out. *)
Theorem Do_sends_nothing_iff (env : Env) (c : Client) (r : Request) (w : list Event)
    (fuel : nat) (c' : Client) (w' : list Event) (out : Outcome) :
  Do fuel env c r w = Some (c', w', out) ->
  w' = w <-> cannotPrepare env c r w.
Proof. apply Do_nothing_sent. Qed.

Lemma Do_sends_nothing_iff_witness :
  exists c' w' out,
    Do 1 (serverEnv []) (adminClient 7) servicesRequest [] = Some (c', w', out)
    /\ (w' = [] <-> cannotPrepare (serverEnv []) (adminClient 7) servicesRequest []).
Proof.
  eexists _, _, _. split; [vm_compute; reflexivity|].
  eapply (Do_sends_nothing_iff (serverEnv []) (adminClient 7) servicesRequest [] 1 _ _ _).
  vm_compute. reflexivity.
Defined.

(** X12: a client with an empty user name or password never escalates: a
    call of [Do] returns after one pass, leaves the mode as it was, sends at
    most one request, and that request carries no security header. *)
Theorem Do_without_credentials (env : Env) (c : Client) (r : Request) (w : list Event)
    (fuel : nat) :
  credentials c = false ->
  exists c' w' out,
    Do (S fuel) env c r w = Some (c', w', out)
    /\ AuthMode c' = AuthMode c
    /\ out <> Panic
    /\ (w' = w
        \/ exists req, w' = EvSend req :: w /\ requestOf r req
                       /\ ~ emitsElement "wsse:Security" (Payload req)).
Proof.
  intros Hc. rewrite Do_pass.
  pose proof (pass_spec env r c w) as Hs. pose proof (pass_keeps env r c w) as Hk.
  assert (forall c1 req, prepare env c r w = (c1, inr req) ->
                         ~ emitsElement "wsse:Security" (Payload req)) as Hno.
  { intros c1 req Hp Hin. eapply prepare_Security_iff_aux in Hin; [|exact Hp].
    destruct Hin as [Hin _]. congruence. }
  destruct (pass env c r w) as [c' w' out|c' w'|] eqn:Hpass; [| |done].
  - exists c', w', out. destruct Hs as (Hm & _ & _ & Hout).
    destruct Hk as (_ & _ & _ & _ & _ & Hw & _).
    repeat split; try assumption.
    destruct Hw as [[-> _]|(req & -> & Hreq)]; [by left|right].
    exists req. split; [reflexivity|]. split; [exact Hreq|].
    destruct (prepare env c r w) as [c1 [err|req1]] eqn:Hp.
    + unfold pass in Hpass. rewrite Hp in Hpass. injection Hpass as _ Hw _.
      apply (f_equal length) in Hw. simpl in Hw. lia.
    + destruct (pass_Done_sent _ _ _ _ _ _ _ _ _ Hp Hpass) as [_ [= ->]].
      eapply Hno. reflexivity.
  - destruct Hs as (Hc' & _). congruence.
Qed.

Lemma Do_without_credentials_witness :
  exists c' w' out,
    Do 1 (serverEnv [response401]) (anonymousClient AuthModeNone) servicesRequest []
    = Some (c', w', out)
    /\ AuthMode c' = AuthMode (anonymousClient AuthModeNone)
    /\ out <> Panic
    /\ (w' = []
        \/ exists req, w' = [EvSend req] /\ requestOf servicesRequest req
                       /\ ~ emitsElement "wsse:Security" (Payload req)).
Proof.
  apply (Do_without_credentials (serverEnv [response401]) (anonymousClient AuthModeNone)
           servicesRequest [] 0).
  reflexivity.
Defined.

(** ** The service list *)
Section ServiceList.

Import service.

Lemma appendService_entry s ns u : appendService s ns u = s ++ serviceEntry (ns, u).
Proof.
  unfold serviceEntry, appendService. simpl.
  case_bool_decide; [by rewrite app_nil_r | reflexivity].
Qed.

Lemma capabilityServices_entries cap :
  capabilityServices cap = capabilityFields cap ≫= serviceEntry.
Proof.
  unfold capabilityServices, capabilityFields. cbn zeta.
  rewrite !appendService_entry. cbn [mbind list_bind app]. cbn [app].
  rewrite <- !app_assoc. rewrite app_nil_r. reflexivity.
Qed.

Lemma URL_entries fields ns :
  NoDup fields.*1 ->
  (forall u, (ns, u) ∈ fields -> URL (fields ≫= serviceEntry) ns = Some u)
  /\ (ns ∉ fields.*1 -> URL (fields ≫= serviceEntry) ns = Some "").
Proof.
  induction fields as [|[k v] fields IH]; intros Hnd.
  - split; [intros u Hin; inversion Hin | reflexivity].
  - apply NoDup_cons in Hnd as [Hk Hnd]. destruct (IH Hnd) as [IHin IHout].
    assert (URL (((k, v) :: fields) ≫= serviceEntry) ns
            = if bool_decide (v = "") then URL (fields ≫= serviceEntry) ns
              else if bool_decide (k = ns) then Some v
                   else URL (fields ≫= serviceEntry) ns) as ->.
    { cbn [mbind list_bind]. unfold serviceEntry at 1, appendService. simpl.
      case_bool_decide; reflexivity. }
    split.
    + intros u Hin. apply elem_of_cons in Hin as [[= <- <-]|Hin].
      * rewrite (bool_decide_eq_true_2 (ns = ns)) by reflexivity.
        case_bool_decide as Hv; [|reflexivity]. rewrite Hv. by apply IHout.
      * assert (k <> ns) as Hne.
        { intros ->. apply Hk. apply list_elem_of_fmap. by exists (ns, u). }
        rewrite (bool_decide_eq_false_2 _ Hne). rewrite (IHin u Hin).
        by case_bool_decide.
    + intros Hout. apply not_elem_of_cons in Hout as [Hne Hout]. simpl in Hne.
      rewrite (bool_decide_eq_false_2 (k = ns)) by congruence.
      rewrite IHout by exact Hout. by case_bool_decide.
Qed.

Lemma URL_firstService s ns :
  Forall (fun o => o <> None) s ->
  URL s ns = Some (from_option Service_URL "" (firstService s ns)).
Proof.
  induction 1 as [|[svc|] s Hx Hs IH]; [reflexivity| |done].
  simpl. by case_bool_decide.
Qed.

Lemma firstService_elem s ns svc :
  firstService s ns = Some svc -> Some svc ∈ s /\ Namespace svc = ns.
Proof.
  induction s as [|[x|] s IH]; simpl; try discriminate.
  case_bool_decide as Hx.
  - intros [= <-]. split; [apply list_elem_of_here | exact Hx].
  - intros H. destruct (IH H). split; [by apply list_elem_of_further | assumption].
Qed.

Lemma firstService_None s ns :
  Forall (fun o => o <> None) s ->
  firstService s ns = None -> forall svc, Some svc ∈ s -> Namespace svc <> ns.
Proof.
  induction 1 as [|[x|] s Hx Hs IH]; simpl; [intros _ svc Hin; inversion Hin| |done].
  case_bool_decide as Hn; [discriminate|].
  intros H svc Hin. apply elem_of_cons in Hin as [[= ->]|Hin]; [exact Hn | by apply IH].
Qed.

End ServiceList.

(** X13: [Services.URL] on a list without nil elements returns the URL of
    the first service with the given namespace, whatever follows it, and
    the empty string exactly when no service has the namespace or the first
    one that has it has an empty URL; a nil element met before a match
    makes it dereference nil. *)
Theorem URL_first_match (s : service.Services) (namespace : string) :
  (Forall (fun o => o <> None) s ->
   match firstService s namespace with
   | Some svc =>
       Some svc ∈ s /\ service.Namespace svc = namespace
       /\ service.URL s namespace = Some (service.Service_URL svc)
       /\ forall s', service.URL (s ++ s') namespace = Some (service.Service_URL svc)
   | None =>
       (forall svc, Some svc ∈ s -> service.Namespace svc <> namespace)
       /\ service.URL s namespace = Some ""
       /\ forall s', service.URL (s ++ s') namespace = service.URL s' namespace
   end)
  /\ (forall s1 s2,
         s = s1 ++ None :: s2 ->
         (forall svc, Some svc ∈ s1 -> service.Namespace svc <> namespace) ->
         Forall (fun o => o <> None) s1 ->
         service.URL s namespace = None).
Proof.
  split.
  - intros Hs. pose proof (URL_firstService s namespace Hs) as HU.
    destruct (firstService s namespace) as [svc|] eqn:Hf.
    + destruct (firstService_elem _ _ _ Hf) as [Hin Hn].
      repeat split; try assumption.
      intros s'. clear HU Hin Hn. induction Hs as [|[x|] s Hx Hs IH]; try done.
      simpl in *. case_bool_decide; [congruence | by apply IH].
    + split; [by apply firstService_None|]. split; [exact HU|].
      intros s'. clear HU. induction Hs as [|[x|] s Hx Hs IH]; try done.
      simpl in *. case_bool_decide; [discriminate | by apply IH].
  - intros s1 s2 -> Hno Hs1. induction Hs1 as [|[x|] s1 Hx Hs1 IH]; try done.
    simpl. rewrite bool_decide_eq_false_2.
    + apply IH. intros svc Hin. apply Hno. by apply list_elem_of_further.
    + apply Hno. apply list_elem_of_here.
Qed.

(** X14: the list [GetCapabilities] builds from a decoded response holds
    no nil element and no service with an empty URL, and looking a
    namespace up in it with [Services.URL] gives back the response's field
    for that namespace, for each of the twelve, and the empty string for
    every other namespace. *)
Theorem capabilityServices_URL (cap : service.GetCapabilitiesResponse) :
  Forall (fun o => exists svc, o = Some svc /\ service.Service_URL svc <> "")
         (service.capabilityServices cap)
  /\ service.URL (service.capabilityServices cap) NamespaceDevice
     = Some (service.DeviceURL cap)
  /\ service.URL (service.capabilityServices cap) service.NamespaceEvents
     = Some (service.EventsURL cap)
  /\ service.URL (service.capabilityServices cap) service.NamespaceImaging
     = Some (service.ImagingURL cap)
  /\ service.URL (service.capabilityServices cap) service.NamespaceMedia
     = Some (service.MediaURL cap)
  /\ service.URL (service.capabilityServices cap) service.NamespacePTZ
     = Some (service.PTZURL cap)
  /\ service.URL (service.capabilityServices cap) service.NamespaceDeviceIO
     = Some (service.DeviceIOURL cap)
  /\ service.URL (service.capabilityServices cap) service.NamespaceDisplay
     = Some (service.DisplayURL cap)
  /\ service.URL (service.capabilityServices cap) service.NamespaceRecording
     = Some (service.RecordingURL cap)
  /\ service.URL (service.capabilityServices cap) service.NamespaceSearch
     = Some (service.SearchURL cap)
  /\ service.URL (service.capabilityServices cap) service.NamespaceReplay
     = Some (service.ReplayURL cap)
  /\ service.URL (service.capabilityServices cap) service.NamespaceReceiver
     = Some (service.ReceiverURL cap)
  /\ service.URL (service.capabilityServices cap) service.NamespaceAnalyticsDevice
     = Some (service.AnalyticsDeviceURL cap)
  /\ forall ns, ns ∉ (capabilityFields cap).*1 ->
                service.URL (service.capabilityServices cap) ns = Some "".
Proof.
  rewrite capabilityServices_entries.
  assert (NoDup (capabilityFields cap).*1) as Hnd.
  { apply (bool_decide_unpack _). vm_compute. exact I. }
  assert (forall ns u, (ns, u) ∈ capabilityFields cap ->
                       service.URL (capabilityFields cap ≫= serviceEntry) ns = Some u) as Hin.
  { intros ns u Hu. exact (proj1 (URL_entries _ ns Hnd) u Hu). }
  split.
  { generalize (capabilityFields cap). intros fields.
    induction fields as [|[k v] fields IH]; [constructor|].
    cbn [mbind list_bind]. unfold serviceEntry at 1, service.appendService. simpl.
    case_bool_decide; [exact IH|]. constructor; [|exact IH]. eauto. }
  repeat (split; [apply Hin; unfold capabilityFields;
                  repeat first [apply list_elem_of_here | apply list_elem_of_further]|]).
  intros ns. exact (proj2 (URL_entries _ ns Hnd)).
Qed.

(** ** The fields of the security token *)





(** ** The two operations of service.go *)
Section Operations.

Import service.

Variable strings_ToLower : string -> string.
Variable decodeServices : list byte -> error + Services.
Variable decodeCapabilities : list byte -> error + GetCapabilitiesResponse.

(** Each request of a call costs the client one rank, the last one apart. *)
Lemma Do_rank env r fuel : forall c w c' w' out,
  Do fuel env c r w = Some (c', w', out) ->
  exists evs, w' = evs ++ w /\ (countEvents isSend evs + rank c' <= S (rank c))%nat.
Proof.
  induction fuel as [|fuel IH]; intros c w c' w' out; [discriminate|].
  rewrite Do_pass. pose proof (pass_spec env r c w) as Hs.
  destruct (pass env c r w) as [c1 w1 out1|c1 w1|]; [| |discriminate].
  - intros [= <- <- <-]. destruct Hs as (Hm & Hc & Hw & _).
    assert (rank c1 = rank c) as -> by (unfold rank; by rewrite Hm, Hc).
    destruct Hw as [->|[req ->]]; [exists [] | exists [EvSend req]];
      (split; [reflexivity | simpl; lia]).
  - intros H. apply IH in H as (evs & -> & Hcnt).
    destruct Hs as (Hc & Hc1 & req & Hmove).
    assert (rank c1 < rank c)%nat as Hlt.
    { unfold rank. rewrite Hc, Hc1.
      destruct Hmove as [(-> & -> & _)|([->| ->] & -> & _)]; simpl; lia. }
    destruct Hmove as [(_ & _ & ->)|(_ & _ & ->)];
      eexists (evs ++ [_; EvSend req]); rewrite <- app_assoc;
      (split; [reflexivity|]); rewrite countEvents_app; simpl; lia.
Qed.

(** What a call of [Do] on a request returns, for every fuel from 3 on. *)
Lemma Do_summary env r c w :
  exists c' evs out,
    (forall fuel, (3 <= fuel)%nat -> Do fuel env c r w = Some (c', evs ++ w, out))
    /\ (countEvents isSend evs + rank c' <= S (rank c))%nat
    /\ out <> Panic
    /\ (forall req, EvSend req ∈ evs -> requestOf r req)
    /\ (forall e, out = Return e ->
        (exists resp,
            transport env (sentRequests (evs ++ w)) = Some resp
            /\ Decode (Response_Body resp) = Some (e, None))
        /\ exists b, Envelope_Body e = Some b /\ Body_Fault b = None).
Proof.
  destruct (Do_bounded env r 2 c w) as (c' & evs & out & HDo & _ & _ & _ & _ & Hout).
  { unfold rank. repeat case_match; lia. }
  exists c', evs, out. split; [intros fuel Hf; apply HDo; lia|].
  pose proof (HDo 3%nat ltac:(lia)) as H3.
  destruct (Do_rank _ _ _ _ _ _ _ _ H3) as (evs1 & Hevs1 & Hrank).
  apply app_inv_tail in Hevs1 as <-.
  destruct (Do_keeps _ _ _ _ _ _ _ _ H3) as (_ & _ & _ & _ & _ & (evs2 & Hevs2 & Hreq & _) & Hret).
  apply app_inv_tail in Hevs2 as <-.
  split; [exact Hrank|]. split; [exact Hout|]. split; [exact Hreq|].
  intros e ->. split; [|by apply Hret].
  destruct (Do_Return _ _ _ _ _ _ _ _ H3) as (resp & Ht & _ & Hd). eauto.
Qed.

Lemma rank_le c : (rank c <= 2)%nat.
Proof. unfold rank. repeat case_match; lia. Qed.

Lemma GetCapabilities_summary env c addr w :
  exists c' evs res,
    (forall fuel, (3 <= fuel)%nat ->
                  GetCapabilities decodeCapabilities fuel env c addr w
                  = Some (c', evs ++ w, res))
    /\ (countEvents isSend evs + rank c' <= S (rank c))%nat
    /\ res <> Crash
    /\ (forall req, EvSend req ∈ evs -> requestOf (getCapabilitiesRequest addr) req)
    /\ (forall s, res = Ok s ->
        exists resp e b cap,
          transport env (sentRequests (evs ++ w)) = Some resp
          /\ Decode (Response_Body resp) = Some (e, None)
          /\ Envelope_Body e = Some b /\ Body_Fault b = None
          /\ Unmarshal decodeCapabilities b = inr cap
          /\ s = capabilityServices cap).
Proof.
  destruct (Do_summary env (getCapabilitiesRequest addr) c w)
    as (c' & evs & out & HDo & Hrank & Hout & Hreq & Hret).
  unfold GetCapabilities.
  destruct out as [e|err|]; [| |done].
  - destruct (Hret e eq_refl) as ((resp & Ht & Hd) & b & Hb & Hf).
    destruct (Unmarshal decodeCapabilities b) as [err|cap] eqn:Hu.
    + exists c', evs, (Err (Errorf "could not unmarshal response" err)).
      split; [intros fuel Hfuel; by rewrite HDo, Hb, Hu|].
      split; [exact Hrank|]. split; [done|]. split; [exact Hreq|]. intros s [=].
    + exists c', evs, (Ok (capabilityServices cap)).
      split; [intros fuel Hfuel; by rewrite HDo, Hb, Hu|].
      split; [exact Hrank|]. split; [done|]. split; [exact Hreq|].
      intros s [= <-]. by exists resp, e, b, cap.
  - exists c', evs, (Err (Errorf "could not complete operation" err)).
    split; [intros fuel Hfuel; by rewrite HDo|].
    split; [exact Hrank|]. split; [done|]. split; [exact Hreq|]. intros s [=].
Qed.

End Operations.

(** X16: [GetCapabilities] returns, for every fuel from 3 on and with the
    same result, after at most three requests, each of them a POST of the
    [GetCapabilities] body to the device service URL of [addr], and
    dereferences no nil pointer. A list it returns is the one built from
    the capabilities that the payload of the last answer decodes to, and
    that answer held a body without fault. *)
Theorem GetCapabilities_returns
    (decodeCapabilities : list byte -> error + service.GetCapabilitiesResponse)
    (env : Env) (c : Client) (addr : string) (w : list Event) :
  exists c' evs res,
    (forall fuel, (3 <= fuel)%nat ->
                  service.GetCapabilities decodeCapabilities fuel env c addr w
                  = Some (c', evs ++ w, res))
    /\ (countEvents isSend evs <= 3)%nat
    /\ res <> service.Crash
    /\ (forall req, EvSend req ∈ evs -> requestOf (service.getCapabilitiesRequest addr) req)
    /\ (forall s, res = service.Ok s ->
        exists resp e b cap,
          transport env (sentRequests (evs ++ w)) = Some resp
          /\ Decode (Response_Body resp) = Some (e, None)
          /\ Envelope_Body e = Some b /\ Body_Fault b = None
          /\ Unmarshal decodeCapabilities b = inr cap
          /\ s = service.capabilityServices cap).
Proof.
  destruct (GetCapabilities_summary decodeCapabilities env c addr w)
    as (c' & evs & res & HG & Hrank & Hres & Hreq & Hok).
  exists c', evs, res. pose proof (rank_le c).
  split; [exact HG|]. split; [lia|]. split; [exact Hres|]. split; [exact Hreq | exact Hok].
Qed.

(** The case in which [GetServices] ends with its own call of [Do]. *)
Ltac ends_with_Do c1 evs1 res out1 HDo Hreq1 :=
  exists c1, evs1, res, c1, evs1, out1, [];
  split; [|split; [exact HDo|split; [reflexivity|split; [lia|split; [done|
    split; [exact Hreq1|split; [intros [?|?]; done|]]]]]]].

(** X17: [GetServices] returns, for every fuel from 3 on and with the same
    result, after at most four requests, all of them POSTs to the device
    service URL of [addr], and dereferences no nil pointer. Whatever it
    sends beyond the requests of its own call of [Do] follows a fault that
    [Do] returned as it is and whose lower-cased reason contains
    [unknown action] or [not implemented]: after any other error, an
    authorization failure included, nothing more is sent and the client is
    left as [Do] left it. A list it returns comes from the payload of the
    last answer, which held a body without fault: decoded as the services
    themselves, or as capabilities from which the list is built. *)
Theorem GetServices_returns (strings_ToLower : string -> string)
    (decodeServices : list byte -> error + service.Services)
    (decodeCapabilities : list byte -> error + service.GetCapabilitiesResponse)
    (env : Env) (c : Client) (addr : string) (w : list Event) :
  exists c' evs res c1 evs1 out1 evs2,
    (forall fuel, (3 <= fuel)%nat ->
                  service.GetServices strings_ToLower decodeServices decodeCapabilities
                                      fuel env c addr w
                  = Some (c', evs ++ w, res))
    /\ (forall fuel, (3 <= fuel)%nat ->
                     Do fuel env c (service.getServicesRequest addr) w
                     = Some (c1, evs1 ++ w, out1))
    /\ evs = evs2 ++ evs1
    /\ (countEvents isSend evs <= 4)%nat
    /\ res <> service.Crash
    /\ (forall req, EvSend req ∈ evs ->
                    Method req = "POST" /\ HTTPRequest_URL req = service.deviceURL addr)
    /\ (evs2 <> [] \/ c' <> c1 ->
        exists f, out1 = Fail (FaultError f)
                  /\ service.notImplemented strings_ToLower f = true)
    /\ (forall s, res = service.Ok s ->
        exists resp e b,
          transport env (sentRequests (evs ++ w)) = Some resp
          /\ Decode (Response_Body resp) = Some (e, None)
          /\ Envelope_Body e = Some b /\ Body_Fault b = None
          /\ (Unmarshal decodeServices b = inr s
              \/ exists cap, Unmarshal decodeCapabilities b = inr cap
                             /\ s = service.capabilityServices cap)).
Proof.
  destruct (Do_summary env (service.getServicesRequest addr) c w)
    as (c1 & evs1 & out1 & HDo & Hrank & Hout & Hreq & Hret).
  pose proof (rank_le c) as Hc. pose proof (rank_le c1) as Hc1.
  assert (forall req, EvSend req ∈ evs1 ->
                      Method req = "POST" /\ HTTPRequest_URL req = service.deviceURL addr)
    as Hreq1.
  { intros req Hin. destruct (Hreq req Hin) as (Hm & Hu & _). by split. }
  unfold service.GetServices in *.
  destruct out1 as [e|err|]; [| |done].
  - destruct (Hret e eq_refl) as ((resp & Ht & Hd) & b & Hb & Hf).
    destruct (Unmarshal decodeServices b) as [err|s] eqn:Hu.
    + ends_with_Do c1 evs1 (service.Err (Errorf "could not unmarshal response" err))
                   (Return e) HDo Hreq1.
      * intros fuel Hfuel. by rewrite HDo, Hb, Hu.
      * intros s' [=].
    + ends_with_Do c1 evs1 (service.Ok s) (Return e) HDo Hreq1.
      * intros fuel Hfuel. by rewrite HDo, Hb, Hu.
      * intros s' [= <-]. exists resp, e, b. eauto 10.
  - destruct (match err with
              | FaultError f => service.notImplemented strings_ToLower f
              | _ => false
              end) eqn:Hfall.
    + destruct err as [| | | | | | | |f]; try discriminate Hfall.
      destruct (GetCapabilities_summary decodeCapabilities env c1 addr (evs1 ++ w))
        as (c2 & evs2 & res2 & HG & Hrank2 & Hres2 & Hreq2 & Hok2).
      exists c2, (evs2 ++ evs1),
        (match res2 with
         | service.Err err2 =>
             service.Err (Errorf "could not get services via GetServices or GetCapabilities"
                                 err2)
         | _ => res2
         end), c1, evs1, (Fail (FaultError f)), evs2.
      split.
      { intros fuel Hfuel. rewrite HDo, Hfall, HG, <- app_assoc by exact Hfuel.
        by destruct res2. }
      split; [exact HDo|]. split; [reflexivity|].
      split; [rewrite countEvents_app; lia|].
      split; [by destruct res2|].
      split.
      { intros req Hin. apply elem_of_app in Hin as [Hin|Hin]; [|by apply Hreq1].
        destruct (Hreq2 req Hin) as (Hm & Hu & _). by split. }
      split; [intros _; by exists f|].
      intros s Hs. destruct res2 as [s2|err2|]; try discriminate Hs. injection Hs as <-.
      destruct (Hok2 s2 eq_refl) as (resp & e & b & cap & Ht & Hd & Hb & Hf & Hu & ->).
      rewrite <- app_assoc. exists resp, e, b. eauto 10.
    + ends_with_Do c1 evs1 (service.Err (Errorf "could not complete operation" err))
                   (Fail err) HDo Hreq1.
      * intros fuel Hfuel. rewrite HDo by exact Hfuel.
        destruct err; try reflexivity. by rewrite Hfall.
      * intros s' [=].
Qed.

(** The fallback at work: the device answers [GetServices] with a fault
    that says the action is not implemented, the client asks for the
    capabilities, and the list is built from them; two requests are sent. *)
Example GetServices_falls_back :
  exists c' w',
    service.GetServices ToLower (fun _ => inl ExternalError) (fun _ => inr mediaOnly) 3
      (serverEnv [responseNotImplemented; responsePayload]) (anonymousClient AuthModeNone)
      "192.168.0.64" []
    = Some (c', w', service.Ok [Some (service.mkService service.NamespaceMedia
                                        "http://192.168.0.64/onvif/media" 0 0)])
    /\ countEvents isSend w' = 2%nat.
Proof.
  eexists _, _. split; vm_compute; reflexivity.
Qed.

(** An authorization failure is no reason to fall back: one request, and
    the error is handed on. *)
Example GetServices_unauthorized :
  exists c' w' err,
    service.GetServices ToLower (fun _ => inl ExternalError) (fun _ => inr mediaOnly) 3
      (serverEnv [responseNotAuthorized; responsePayload]) (anonymousClient AuthModeNone)
      "192.168.0.64" []
    = Some (c', w', service.Err (Errorf "could not complete operation"
                                        (UnauthorizedError err)))
    /\ countEvents isSend w' = 1%nat.
Proof.
  eexists _, _, _. split; vm_compute; reflexivity.
Qed.

(** ** client.go: the client without authentication modes *)

Lemma client_prepare_spec env c r w :
  match client.prepare env c r w with
  | inl err =>
      Request_Body r = None \/ urlOK env (URL r) = false
      \/ (client.credentials c = true /\ randRead env (length w) = None)
  | inr req =>
      requestOf r req
      /\ (emitsElement "wsse:Security" (Payload req) <-> client.credentials c = true)
      /\ ~ (Request_Body r = None \/ urlOK env (URL r) = false
            \/ (client.credentials c = true /\ randRead env (length w) = None))
  end.
Proof.
  unfold client.prepare, NewSecurity.
  destruct (client.credentials c) eqn:Hc;
    [destruct (randRead env (length w)) as [src|] eqn:Hr; [|simpl; by eauto]|];
    (destruct (Request_Body r) as [buf|] eqn:Hb; [|simpl; by eauto]);
    (destruct (urlOK env (URL r)) eqn:Hu; [|simpl; by eauto]); cbn [negb Payload];
    (split; [by repeat split; eauto|]);
    (split; [rewrite Encode_Security; by split|]);
    intros [?|[?|[? ?]]]; congruence.
Qed.

(** X18: [Do] of client.go returns and dereferences no nil body. It sends
    at most one request, and none exactly when the body cannot be
    marshalled, the URL is rejected, or both credentials are set and the
    random source fails. The request is a POST of the envelope to the URL
    of [r], and it carries a security header exactly when both credentials
    are set. An envelope it returns has a body without fault, and is what
    the answer decodes to. *)
Theorem client_Do_once (strings_ToLower : string -> string) (env : Env)
    (c : client.Client) (r : Request) (w : list Event) :
  exists w' out,
    client.Do strings_ToLower env c r w = Some (w', out)
    /\ out <> Panic
    /\ (w' = w
        \/ exists req,
            w' = EvSend req :: w /\ requestOf r req
            /\ (emitsElement "wsse:Security" (Payload req) <-> client.credentials c = true))
    /\ (w' = w <->
        Request_Body r = None \/ urlOK env (URL r) = false
        \/ (client.credentials c = true /\ randRead env (length w) = None))
    /\ (forall e, out = Return e ->
        (exists resp, transport env (sentRequests w') = Some resp
                      /\ Decode (Response_Body resp) = Some (e, None))
        /\ exists b, Envelope_Body e = Some b /\ Body_Fault b = None).
Proof.
  unfold client.Do. pose proof (client_prepare_spec env c r w) as Hp.
  destruct (client.prepare env c r w) as [err0|req].
  { eexists _, _. split; [reflexivity|]. split; [done|]. split; [by left|].
    split; [by split|done]. }
  destruct Hp as (Hreq & Hsec & Hno).
  assert (forall out : Outcome,
             out <> Panic ->
             (forall e, out = Return e ->
                (exists resp, transport env (sentRequests (EvSend req :: w)) = Some resp
                              /\ Decode (Response_Body resp) = Some (e, None))
                /\ exists b, Envelope_Body e = Some b /\ Body_Fault b = None) ->
             exists w' out',
               Some (EvSend req :: w, out) = Some (w', out')
               /\ out' <> Panic
               /\ (w' = w
                   \/ exists req0,
                       w' = EvSend req0 :: w /\ requestOf r req0
                       /\ (emitsElement "wsse:Security" (Payload req0)
                           <-> client.credentials c = true))
               /\ (w' = w <->
                   Request_Body r = None \/ urlOK env (URL r) = false
                   \/ (client.credentials c = true /\ randRead env (length w) = None))
               /\ (forall e, out' = Return e ->
                     (exists resp, transport env (sentRequests w') = Some resp
                                   /\ Decode (Response_Body resp) = Some (e, None))
                     /\ exists b, Envelope_Body e = Some b /\ Body_Fault b = None)) as Hend.
  { intros out Hout Hret. exists (EvSend req :: w), out.
    split; [reflexivity|]. split; [exact Hout|].
    split; [right; by exists req|]. split; [|exact Hret].
    split; [|done]. intros H. apply (f_equal length) in H. simpl in H. lia. }
  destruct (transport env (sentRequests (EvSend req :: w))) as [resp|] eqn:Ht;
    [|by apply Hend].
  destruct (client.Debug c && BodyErr resp); [by apply Hend|].
  destruct (Decode_returns (Response_Body resp)) as (e & err & Hd & Hbody). rewrite Hd.
  destruct err as [err|]; [destruct (StatusCode resp =? 401)%Z; by apply Hend|].
  destruct (Envelope_Body e) as [b|] eqn:He; [|by destruct Hbody].
  destruct (Body_Fault b) as [fault|] eqn:Hf; [case_bool_decide; by apply Hend|].
  apply Hend; [done|]. intros e0 [= <-]. eauto 10.
Qed.

Lemma withStatus_Do strings_ToLower g env c r w :
  (forall reqs resp, transport env reqs = Some resp ->
                     exists e, Decode (Response_Body resp) = Some (e, None)) ->
  client.Do strings_ToLower (withStatus g env) c r w = client.Do strings_ToLower env c r w.
Proof.
  intros Hdec. unfold client.Do.
  change (client.prepare (withStatus g env) c r w) with (client.prepare env c r w).
  destruct (client.prepare env c r w) as [err0|req]; [reflexivity|].
  cbn [withStatus transport].
  destruct (transport env (sentRequests (EvSend req :: w))) as [resp|] eqn:Ht; [|reflexivity].
  cbn [fmap option_fmap option_map Response_Body BodyErr].
  destruct (client.Debug c && BodyErr resp); [reflexivity|].
  destruct (Hdec _ _ Ht) as [e ->]. reflexivity.
Qed.

(** X19: [Do] of client.go looks at the HTTP status only when the body of
    the answer does not decode: against a device all of whose answers
    decode without error, the call gives the same result whatever status
    the answers carry, 401 included. *)
Theorem client_Do_ignores_status (strings_ToLower : string -> string)
    (g : Response -> Z * string) (env : Env) (c : client.Client) (r : Request)
    (w : list Event) :
  (forall reqs resp, transport env reqs = Some resp ->
                     exists e, Decode (Response_Body resp) = Some (e, None)) ->
  client.Do strings_ToLower (withStatus g env) c r w = client.Do strings_ToLower env c r w.
Proof. apply withStatus_Do. Qed.

Lemma client_Do_ignores_status_witness :
  client.Do ToLower (withStatus (fun _ => (401%Z, "401 Unauthorized")) (serverEnv [responsePayload]))
            (client.mkClient "" "" None false) servicesRequest []
  = client.Do ToLower (serverEnv [responsePayload]) (client.mkClient "" "" None false)
              servicesRequest [].
Proof.
  apply (client_Do_ignores_status ToLower (fun _ => (401%Z, "401 Unauthorized"))
           (serverEnv [responsePayload])).
  intros reqs resp H. cbn [serverEnv transport] in H.
  destruct (length reqs - 1)%nat as [|n]; [|discriminate H].
  injection H as <-. eexists. vm_compute. reflexivity.
Defined.
